(** * AI-Presentation-Agent: the generation pipeline and its front-end state

    A shallow embedding of the parts of the repository that the pipeline
    specification talks about:

    - [PlanEditorPage]   (frontend/src/pages/PlanEditorPage.tsx): the outline
      editor's slide list operations;
    - [SlideEditorPage]  (frontend/src/pages/SlideEditorPage.tsx): the
      conversion of an API slide into an editable slide;
    - [GenerationPage]   (frontend/src/pages/GenerationPage.tsx): the
      generation monitor (filter, delete, add);
    - [Retry] and [SlideGenerator] (the slide generation design document
      and the README): the retry wrapper, the role switch, and the bulk
      generation engine behind its semaphore;
    - [PhaseMachine]: the task phase state machine;
    - [Binary64] and [JS]: the doubles of Python floats and JavaScript
      numbers, and the conversions between strings and numbers.

    JavaScript strings are sequences of UTF-16 code units, React state is
    passed explicitly (a handler is a function from the state it closes over
    to the state it sets), Python exceptions are a constructor of the result
    type, and the concurrent engine is a step relation whose runs are the
    interleavings of its workers. *)

From Stdlib Require Import ZArith NArith List Bool Lia Ascii String.
From Stdlib Require Import QArith Qminmax Qround Qpower Qabs Lqa DecimalN.
From stdpp Require Import base numbers list strings gmap.

Local Open Scope nat_scope.

(** Membership in a concrete list is decided by evaluation. *)
Ltac in_edges := apply (bool_decide_unpack _); vm_compute; exact I.
Ltac not_in_edges H :=
  exfalso; apply (bool_decide_pack _) in H; vm_compute in H; exact H.

(* ===================================================================== *)
(** * IEEE 754 binary64, the numbers of Python floats and of JavaScript *)
(* ===================================================================== *)

Module Binary64.

(** A finite double is kept as the rational it denotes, in lowest terms
    (the sign of zero is not kept).  [round] is rounding to nearest, ties
    to even, the rounding of every arithmetic operation of both languages. *)

(** For [q > 0]: the [e] with [2^e <= q < 2^(e+1)]. *)
Definition floor_log2 (q : Q) : Z :=
  let d := (Z.log2 (Qnum q) - Z.log2 (Zpos (Qden q)))%Z in
  if Qle_bool (2 ^ d) q then d else (d - 1)%Z.

(** The nearest integer, ties to the even one. *)
Definition round_even (q : Q) : Z :=
  let f := Qfloor q in
  match (q - inject_Z f ?= 1 # 2)%Q with
  | Lt => f
  | Gt => (f + 1)%Z
  | Eq => if Z.even f then f else (f + 1)%Z
  end.

Inductive rounded :=
  | Finite (q : Q)
  | Overflow (negative : bool).

(** The double nearest to [a > 0]: 53 bits from the exponent of [a] down,
    or from -1022 down for the subnormal numbers; [None] when that is
    [2^1024], which no double is. *)
Definition round_pos (a : Q) : option Q :=
  let e := Z.max (floor_log2 a) (-1022) in
  let ulp := (2 ^ (e - 52))%Q in
  let r := Qred (inject_Z (round_even (a / ulp)) * ulp) in
  if Qle_bool (2 ^ 1024) r then None else Some r.

Definition round (q : Q) : rounded :=
  let q := Qred q in
  match (q ?= 0)%Q with
  | Eq => Finite 0
  | Gt => match round_pos q with
          | Some r => Finite r
          | None => Overflow false
          end
  | Lt => match round_pos (- q) with
          | Some r => Finite (- r)
          | None => Overflow true
          end
  end.

(** The double a decimal literal of the source denotes. *)
Definition literal (q : Q) : Q :=
  match round q with
  | Finite r => r
  | Overflow _ => 0
  end.

End Binary64.

(* ===================================================================== *)
(** * JavaScript strings and the built-ins the pages use *)
(* ===================================================================== *)

Module JS.

(** A string is its sequence of UTF-16 code units. *)
Definition jsstring := list N.

(** An ASCII literal of the source, as code units. *)
Definition lit (s : string) : jsstring :=
  map N_of_ascii (list_ascii_of_string s).

(** ** Decimal rendering: [String(n)] and [`${n}`] for a natural number
    below 10^21 (JavaScript switches to exponent notation from there on). *)

Fixpoint uint_units (d : Decimal.uint) : jsstring :=
  match d with
  | Decimal.Nil => []
  | Decimal.D0 d => 48%N :: uint_units d
  | Decimal.D1 d => 49%N :: uint_units d
  | Decimal.D2 d => 50%N :: uint_units d
  | Decimal.D3 d => 51%N :: uint_units d
  | Decimal.D4 d => 52%N :: uint_units d
  | Decimal.D5 d => 53%N :: uint_units d
  | Decimal.D6 d => 54%N :: uint_units d
  | Decimal.D7 d => 55%N :: uint_units d
  | Decimal.D8 d => 56%N :: uint_units d
  | Decimal.D9 d => 57%N :: uint_units d
  end.

Definition String_of_N (n : N) : jsstring := uint_units (N.to_uint n).

(** The digits of a string made of ASCII digits only. *)
Fixpoint units_uint (s : jsstring) : option Decimal.uint :=
  match s with
  | [] => Some Decimal.Nil
  | c :: rest =>
      match units_uint rest with
      | None => None
      | Some d =>
          if (c =? 48)%N then Some (Decimal.D0 d)
          else if (c =? 49)%N then Some (Decimal.D1 d)
          else if (c =? 50)%N then Some (Decimal.D2 d)
          else if (c =? 51)%N then Some (Decimal.D3 d)
          else if (c =? 52)%N then Some (Decimal.D4 d)
          else if (c =? 53)%N then Some (Decimal.D5 d)
          else if (c =? 54)%N then Some (Decimal.D6 d)
          else if (c =? 55)%N then Some (Decimal.D7 d)
          else if (c =? 56)%N then Some (Decimal.D8 d)
          else if (c =? 57)%N then Some (Decimal.D9 d)
          else None
      end
  end.

(** ** Numbers

    A Number is a double, an infinity or NaN.  A finite double is the
    rational it denotes, in lowest terms; the sign of zero is not kept
    ([Math.max(0, ...)] and [+ 1] do not tell the zeros apart). *)

Inductive jsnum :=
  | NaN
  | Infinity (negative : bool)
  | Num (q : Q).

Definition of_rounded (r : Binary64.rounded) : jsnum :=
  match r with
  | Binary64.Finite q => Num q
  | Binary64.Overflow negative => Infinity negative
  end.

(** The Number value for a real, [𝔽(q)]. *)
Definition number_for (q : Q) : jsnum := of_rounded (Binary64.round q).

(** The Number is an integer below [bound]. *)
Definition integer_below (bound : Z) (x : jsnum) : Prop :=
  exists n : Z, x = Num (inject_Z n) /\ (n < bound)%Z.

(** ** Blanks and [Number] *)

(** WhiteSpace and LineTerminator code units of ECMAScript. *)
Definition is_white (c : N) : bool :=
  ((c =? 9) || (c =? 10) || (c =? 11) || (c =? 12) || (c =? 13) || (c =? 32)
   || (c =? 160) || (c =? 5760) || ((8192 <=? c) && (c <=? 8202))
   || (c =? 8232) || (c =? 8233) || (c =? 8239) || (c =? 8287)
   || (c =? 12288) || (c =? 65279))%N.

Fixpoint trimStart (s : jsstring) : jsstring :=
  match s with
  | [] => []
  | c :: rest => if is_white c then trimStart rest else s
  end.

Definition trim (s : jsstring) : jsstring :=
  rev (trimStart (rev (trimStart s))).

Definition is_digit (c : N) : bool := ((48 <=? c) && (c <=? 57))%N.

(** The longest prefix of decimal digits, and what follows it. *)
Fixpoint span_digits (s : jsstring) : jsstring * jsstring :=
  match s with
  | c :: rest =>
      if is_digit c then
        let (digits, after) := span_digits rest in (c :: digits, after)
      else ([], s)
  | [] => ([], [])
  end.

(** The value of a string of decimal digits (0 for the empty string). *)
Definition decimal_value (digits : jsstring) : Z :=
  match units_uint digits with
  | Some d => Z.of_N (N.of_uint d)
  | None => 0
  end.

(** The value of a digit of a binary, octal or hexadecimal literal. *)
Definition digit_in (radix : Z) (c : N) : option Z :=
  let v := if ((48 <=? c) && (c <=? 57))%N then Some (Z.of_N c - 48)%Z
           else if ((97 <=? c) && (c <=? 102))%N then Some (Z.of_N c - 87)%Z
           else if ((65 <=? c) && (c <=? 70))%N then Some (Z.of_N c - 55)%Z
           else None in
  match v with
  | Some d => if (d <? radix)%Z then Some d else None
  | None => None
  end.

Fixpoint radix_value (radix : Z) (acc : Z) (s : jsstring) : option Z :=
  match s with
  | [] => Some acc
  | c :: rest =>
      match digit_in radix c with
      | Some d => radix_value radix (radix * acc + d)%Z rest
      | None => None
      end
  end.

(** NonDecimalIntegerLiteral: [0x], [0o] or [0b] and at least one digit. *)
Definition non_decimal (s : jsstring) : option (option Z) :=
  match s with
  | zero :: c :: digits =>
      let radix := if ((c =? 120) || (c =? 88))%N then Some 16%Z
                   else if ((c =? 111) || (c =? 79))%N then Some 8%Z
                   else if ((c =? 98) || (c =? 66))%N then Some 2%Z
                   else None in
      match radix with
      | Some r =>
          if (zero =? 48)%N then
            Some (match digits with
                  | [] => None
                  | _ => radix_value r 0 digits
                  end)
          else None
      | None => None
      end
  | _ => None
  end.

(** A leading sign, and what follows it. *)
Definition signed (s : jsstring) : bool * jsstring :=
  match s with
  | c :: rest =>
      if (c =? 45)%N then (true, rest)
      else if (c =? 43)%N then (false, rest)
      else (false, s)
  | [] => (false, s)
  end.

(** ExponentPart, or nothing: the power of ten it stands for. *)
Definition exponent_part (s : jsstring) : option Z :=
  match s with
  | [] => Some 0%Z
  | c :: rest =>
      if ((c =? 101) || (c =? 69))%N then
        let (negative, digits) := signed rest in
        match span_digits digits with
        | (_ :: _, []) =>
            Some (if negative then - decimal_value digits
                  else decimal_value digits)%Z
        | _ => None
        end
      else None
  end.

(** StrUnsignedDecimalLiteral other than [Infinity]: digits with an
    optional fraction and exponent, or a fraction alone. *)
Definition unsigned_decimal (s : jsstring) : option Q :=
  let (int, after) := span_digits s in
  let whole :=
    match int with
    | [] => None
    | _ =>
        match exponent_part after with
        | Some e => Some (inject_Z (decimal_value int) * 10 ^ e)%Q
        | None => None
        end
    end in
  match after with
  | c :: after' =>
      if (c =? 46)%N then
        let (frac, after'') := span_digits after' in
        match int, frac with
        | [], [] => None
        | _, _ =>
            match exponent_part after'' with
            | Some e =>
                Some ((inject_Z (decimal_value int)
                       + inject_Z (decimal_value frac)
                         / 10 ^ Z.of_nat (length frac)) * 10 ^ e)%Q
            | None => None
            end
        end
      else whole
  | [] => whole
  end.

(** [Number(s)] for a string: blanks around the literal are dropped; the
    empty string is 0; a literal converts to the double nearest to the
    number it denotes; anything else is NaN. *)
Definition Number (s : jsstring) : jsnum :=
  let t := trim s in
  match t with
  | [] => Num 0
  | _ =>
      match non_decimal t with
      | Some (Some v) => number_for (inject_Z v)
      | Some None => NaN
      | None =>
          let (negative, u) := signed t in
          if bool_decide (u = lit "Infinity") then Infinity negative
          else match unsigned_decimal u with
               | Some q => number_for (if negative then - q else q)
               | None => NaN
               end
      end
  end.

(** [Math.max(a, b)]: NaN is absorbing. *)
Definition max2 (a b : jsnum) : jsnum :=
  match a, b with
  | NaN, _ | _, NaN => NaN
  | Infinity false, _ | _, Infinity false => Infinity false
  | Infinity true, x | x, Infinity true => x
  | Num x, Num y => if Qle_bool x y then Num y else Num x
  end.

(** [Math.max(0, ...xs)]. *)
Definition Math_max0 (xs : list jsnum) : jsnum :=
  fold_left max2 xs (Num 0).

(** [x + 1]. *)
Definition plus1 (x : jsnum) : jsnum :=
  match x with
  | NaN => NaN
  | Infinity negative => Infinity negative
  | Num q => number_for (q + 1)
  end.

(** ** [String(x)] for a Number *)

(** For [q > 0]: the first [k], from [k] on, with [q < 10^k]. *)
Fixpoint first_above (q : Q) (k : Z) (fuel : nat) : Z :=
  match fuel with
  | 0 => k
  | S fuel' =>
      if Qle_bool (10 ^ k) q then first_above q (k + 1)%Z fuel' else k
  end.

(** For a double [q > 0]: the [n] with [10^(n-1) <= q < 10^n]. *)
Definition decimal_exponent (q : Q) : Z := first_above q (-330) 640.

(** [s * scale] converts to [q]. *)
Definition converts_to (q scale : Q) (s : Z) : bool :=
  match Binary64.round (inject_Z s * scale) with
  | Binary64.Finite r => Qeq_bool r q
  | Binary64.Overflow _ => false
  end.

(** Of the two multiples of [scale] around [q], one that converts to [q]:
    the closer one when both do, the even one when they are as close. *)
Definition nearest_digits (q scale : Q) : option Z :=
  let lo := Qfloor (q / scale) in
  let hi := (lo + 1)%Z in
  match converts_to q scale lo, converts_to q scale hi with
  | true, false => Some lo
  | false, true => Some hi
  | false, false => None
  | true, true =>
      match (q - inject_Z lo * scale ?= inject_Z hi * scale - q)%Q with
      | Lt => Some lo
      | Gt => Some hi
      | Eq => Some (if Z.even lo then lo else hi)
      end
  end.

(** The shortest digits: the least [k], from [k] on, for which some
    [s * 10^(n-k)] converts to [q], with such an [s]. *)
Fixpoint shortest (q : Q) (n k : Z) (fuel : nat) : Z * Z :=
  match fuel with
  | 0 => (Qfloor (q / 10 ^ (n - k)), k)
  | S fuel' =>
      match nearest_digits q (10 ^ (n - k)) with
      | Some s => (s, k)
      | None => shortest q n (k + 1)%Z fuel'
      end
  end.

(** [Number::toString] for a double [q > 0]: with [n], [k] and [s] such
    that [s] has [k] digits, [s * 10^(n-k)] converts to [q] and [k] is as
    small as possible, the digits of [s] are laid out by [n]. *)
Definition String_of_positive (q : Q) : jsstring :=
  let n0 := decimal_exponent q in
  let (s0, k) := shortest q n0 1 17 in
  let (s, n) := if (s0 =? 10 ^ k)%Z then ((s0 / 10)%Z, (n0 + 1)%Z)
                else (s0, n0) in
  let digits := String_of_N (Z.to_N s) in
  if ((k <=? n) && (n <=? 21))%Z then
    String_of_N (Z.to_N (s * 10 ^ (n - k)))
  else if ((0 <? n) && (n <=? 21))%Z then
    take (Z.to_nat n) digits ++ 46%N :: drop (Z.to_nat n) digits
  else if ((-6 <? n) && (n <=? 0))%Z then
    48%N :: 46%N :: repeat 48%N (Z.to_nat (- n)) ++ digits
  else
    let e := (n - 1)%Z in
    let exponent := 101%N :: (if (e <? 0)%Z then 45%N else 43%N)
                              :: String_of_N (Z.abs_N e) in
    match digits with
    | [d] => d :: exponent
    | d :: more => d :: 46%N :: more ++ exponent
    | [] => exponent
    end.

(** [String(x)]. *)
Definition String_of_num (x : jsnum) : jsstring :=
  match x with
  | NaN => lit "NaN"
  | Infinity false => lit "Infinity"
  | Infinity true => lit "-Infinity"
  | Num q =>
      match (q ?= 0)%Q with
      | Eq => lit "0"
      | Gt => String_of_positive q
      | Lt => 45%N :: String_of_positive (- q)
      end
  end.

(** ** [split] *)

(** [s.split(re)] for a regular expression that is an alternation of single
    code units, given as the predicate [sep]. *)
Fixpoint split_on (sep : N -> bool) (s : jsstring) : list jsstring :=
  match s with
  | [] => [[]]
  | c :: rest =>
      if sep c then [] :: split_on sep rest
      else match split_on sep rest with
           | [] => [[c]]
           | w :: ws => (c :: w) :: ws
           end
  end.

(** A string is truthy when it is not empty. *)
Definition truthy (s : jsstring) : bool :=
  match s with [] => false | _ => true end.

(** [o || d] for an optional string property: [undefined] and the empty
    string are falsy. *)
Definition or_else (o : option jsstring) (d : jsstring) : jsstring :=
  match o with
  | Some s => if truthy s then s else d
  | None => d
  end.

(** [s.includes(q)]. *)
Fixpoint starts_with (q s : jsstring) : bool :=
  match q, s with
  | [], _ => true
  | _ :: _, [] => false
  | a :: q', b :: s' => (a =? b)%N && starts_with q' s'
  end.

Fixpoint includes (s q : jsstring) : bool :=
  starts_with q s ||
  match s with
  | [] => false
  | _ :: s' => includes s' q
  end.

End JS.

Import JS.

(* ===================================================================== *)
(** * Shared types (frontend/src/types/index.ts) *)
(* ===================================================================== *)

Inductive SlideType := TTitle | TContent | TSection | TEnd.

(** An element of a [content] array: a string, or any other JSON value,
    kept as the string [String(item)] renders it to. *)
Inductive ContentItem :=
  | ItemString (s : jsstring)
  | ItemOther (rendered : jsstring).

(** [Slide.content] is declared a string; the plan served by the back end
    may also hold an array or nothing there, and the pages test for that. *)
Inductive SlideContent :=
  | ContentString (s : jsstring)
  | ContentArray (items : list ContentItem)
  | ContentOther.

(** A slide as it arrives at run time: [None] is a missing property. *)
Record Slide := mkSlide {
  slide_id : option jsstring;
  slide_title : option jsstring;
  slide_content : SlideContent;
  slide_type : option SlideType;
  slide_notes : option jsstring
}.

Record Theme := mkTheme {
  primaryColor : jsstring;
  accentColor : jsstring
}.

Record Presentation := mkPresentation {
  pres_title : jsstring;
  slides : list Slide;
  theme : option Theme
}.

Record SlideContentItem := mkItem {
  item_id : jsstring;
  item_label : jsstring;
  item_value : jsstring
}.

Inductive Layout := LStandard | LGrid | LMinimal.

Record DetailedSlide := mkDetailed {
  d_id : jsstring;
  d_title : jsstring;
  d_subtitle : jsstring;
  d_layout : Layout;
  d_content : list SlideContentItem
}.

(** [SlideGenerationStatus]: the status is whatever string the progress
    endpoint sent. *)
Record SlideGenerationStatus := mkStatus {
  g_id : jsstring;
  g_title : jsstring;
  g_section : option jsstring;
  g_status : jsstring;
  g_progress : Z
}.

(* ===================================================================== *)
(** * The outline editor (PlanEditorPage) *)
(* ===================================================================== *)

Module PlanEditorPage.

Definition INITIAL_PRESENTATION : Presentation :=
  {| pres_title := [];
     slides := [];
     theme := Some {| primaryColor := lit "#171717";
                      accentColor := lit "#737373" |} |}.

Definition with_slides (p : Presentation) (l : list Slide) : Presentation :=
  {| pres_title := pres_title p; slides := l; theme := theme p |}.

(** [s.id === id] against a string argument. *)
Definition id_is (id : jsstring) (s : Slide) : bool :=
  match slide_id s with
  | Some i => bool_decide (i = id)
  | None => false
  end.

(** [s.id === updatedSlide.id]. *)
Definition same_id (a b : Slide) : bool :=
  bool_decide (slide_id a = slide_id b).

Definition updateSlide (updatedSlide : Slide) (prev : Presentation)
  : Presentation :=
  with_slides prev
    (map (fun s => if same_id s updatedSlide then updatedSlide else s)
         (slides prev)).

(** The guard reads the rendered state and the update runs on the state it
    is applied to; for one event the two are the same presentation. *)
Definition removeSlide (id : jsstring) (presentation : Presentation)
  : Presentation :=
  if length (slides presentation) <=? 1 then presentation
  else with_slides presentation
         (List.filter (fun s => negb (id_is id s)) (slides presentation)).

(** [s.id !== id] on the argument as it arrives at run time: the cards
    call [removeSlide(slide.id)], and a slide of a served or pasted outline
    may carry no id, so the argument may be [undefined], which is strictly
    equal to the missing id of every such slide. *)
Definition id_differs (id : option jsstring) (s : Slide) : bool :=
  negb (bool_decide (slide_id s = id)).

(** The body of [removeSlide] run on such an argument. *)
Definition removeSlide_at (id : option jsstring) (presentation : Presentation)
  : Presentation :=
  if length (slides presentation) <=? 1 then presentation
  else with_slides presentation
         (List.filter (id_differs id) (slides presentation)).

(** The [onRemove] of a card: [() => removeSlide(slide.id)]. *)
Definition onRemove (slide : Slide) (presentation : Presentation)
  : Presentation :=
  removeSlide_at (slide_id slide) presentation.

(** [now] is the reading of [Date.now()], in milliseconds. *)
Definition newSlide (now : N) : Slide :=
  {| slide_id := Some (lit "slide_" ++ String_of_N now);
     slide_title := Some [];
     slide_content := ContentString [];
     slide_type := Some TContent;
     slide_notes := None |}.

Definition addSlide (now : N) (prev : Presentation) : Presentation :=
  with_slides prev (slides prev ++ [newSlide now]).

Inductive Direction := up | down.

(** [moveSlide]: when the target index is outside the array nothing is set.
    When it is inside, the two elements are exchanged by a destructuring
    assignment; if [index] itself is outside (only [-1] going down and
    [length] going up), the exchange stores [undefined] in the array, which
    is no [Slide[]] any more: [None].  The cards call it with their own
    index. *)
Definition moveSlide (index : Z) (direction : Direction)
    (presentation : Presentation) : option Presentation :=
  let newSlides := slides presentation in
  let targetIndex :=
    match direction with up => (index - 1)%Z | down => (index + 1)%Z end in
  if ((0 <=? targetIndex) && (targetIndex <? Z.of_nat (length newSlides)))%Z
  then
    if (0 <=? index)%Z then
      match newSlides !! Z.to_nat index, newSlides !! Z.to_nat targetIndex with
      | Some a, Some b =>
          Some (with_slides presentation
                  (<[Z.to_nat targetIndex := a]>
                     (<[Z.to_nat index := b]> newSlides)))
      | _, _ => None
      end
    else None
  else Some presentation.

End PlanEditorPage.

(* ===================================================================== *)
(** * The slide editor (SlideEditorPage) *)
(* ===================================================================== *)

Module SlideEditorPage.

(** The separators of [/\n|•|·/]: line feed, U+2022 and U+00B7. *)
Definition is_separator (c : N) : bool :=
  ((c =? 10) || (c =? 8226) || (c =? 183))%N.

(** ["要点 "], ["幻灯片 "] and ["在此输入内容"]. *)
Definition point_label : jsstring := [35201; 28857; 32]%N.
Definition slide_label : jsstring := [24187; 28783; 29255; 32]%N.
Definition placeholder : jsstring :=
  [22312; 27492; 36755; 20837; 20869; 23481]%N.

Definition String_of_nat (n : nat) : jsstring := String_of_N (N.of_nat n).

(** [`c${index}_${i}`] *)
Definition content_id (index i : nat) : jsstring :=
  lit "c" ++ String_of_nat index ++ lit "_" ++ String_of_nat i.

(** [arr.map((x, i) => f x i)] *)
Fixpoint mapi_from {A B} (f : A -> nat -> B) (i : nat) (l : list A) : list B :=
  match l with
  | [] => []
  | x :: rest => f x i :: mapi_from f (S i) rest
  end.

Definition mapi {A B} (f : A -> nat -> B) (l : list A) : list B :=
  mapi_from f 0 l.

Definition item_text (item : ContentItem) : jsstring :=
  match item with
  | ItemString s => s
  | ItemOther rendered => rendered
  end.

(** The local [contentItems]: the items parsed from [slide.content]. *)
Definition contentItems (slide : Slide) (index : nat)
  : list SlideContentItem :=
  match slide_content slide with
  | ContentString s =>
      let lines :=
        List.filter (fun l => truthy (trim l)) (split_on is_separator s) in
      mapi (fun line i =>
              {| item_id := content_id index i;
                 item_label := point_label ++ String_of_nat (i + 1);
                 item_value := trim line |}) lines
  | ContentArray items =>
      mapi (fun item i =>
              {| item_id := content_id index i;
                 item_label := point_label ++ String_of_nat (i + 1);
                 item_value := item_text item |}) items
  | ContentOther => []
  end.

Definition default_item (index : nat) : SlideContentItem :=
  {| item_id := content_id index 0;
     item_label := point_label ++ lit "1";
     item_value := placeholder |}.

Definition convertToDetailedSlide (slide : Slide) (index : nat)
  : DetailedSlide :=
  let contentItems := contentItems slide index in
  {| d_id := or_else (slide_id slide)
                     (lit "slide_" ++ String_of_nat (index + 1));
     d_title := or_else (slide_title slide)
                        (slide_label ++ String_of_nat (index + 1));
     d_subtitle := or_else (slide_notes slide) [];
     d_layout := LStandard;
     d_content :=
       if 0 <? length contentItems then contentItems
       else [default_item index] |}.

End SlideEditorPage.

(* ===================================================================== *)
(** * The generation monitor (GenerationPage) *)
(* ===================================================================== *)

Module GenerationPage.

Record Filters := mkFilters {
  f_queued : bool;
  f_running : bool;
  f_done : bool
}.

Definition initial_filters : Filters :=
  {| f_queued := true; f_running := true; f_done := true |}.

Definition queued : jsstring := lit "queued".
Definition running : jsstring := lit "running".
Definition done : jsstring := lit "done".
Definition failed : jsstring := lit "failed".

(** The elements of [new Set<string>([...])], in insertion order. *)
Definition allowed (filters : Filters) : list jsstring :=
  (if f_queued filters then [queued] else []) ++
  (if f_running filters then [running] else []) ++
  (if f_done filters then [done] else []).

(** [allowed.has(x)] *)
Definition has (set : list jsstring) (x : jsstring) : bool :=
  bool_decide (x ∈ set).

Section Filtered.

(** [String.prototype.toLowerCase], the Unicode case mapping of the
    JavaScript engine. *)
Variable toLowerCase : jsstring -> jsstring.

Definition filtered (slides : list SlideGenerationStatus)
    (query : jsstring) (filters : Filters) : list SlideGenerationStatus :=
  List.filter
    (fun s =>
       has (allowed filters) (g_status s) &&
       (negb (truthy query) ||
        includes (toLowerCase (g_title s)) (toLowerCase query)))
    slides.

End Filtered.

Definition handleDelete (id : jsstring) (prev : list SlideGenerationStatus)
  : list SlideGenerationStatus :=
  List.filter (fun s => negb (bool_decide (g_id s = id))) prev.

(** ["新增页面 "] and ["新建"]. *)
Definition new_page_label : jsstring := [26032; 22686; 39029; 38754; 32]%N.
Definition new_section : jsstring := [26032; 24314]%N.

(** [String(Math.max(0, ...slides.map(s => Number(s.id))) + 1)] *)
Definition nextId (slides : list SlideGenerationStatus) : jsstring :=
  String_of_num
    (plus1 (Math_max0 (map (fun s => Number (g_id s)) slides))).

(** [handleAddSlide]; the state it sets is the state it read ([prev] is
    [slides]). *)
Definition handleAddSlide (slides : list SlideGenerationStatus)
  : list SlideGenerationStatus :=
  let nextId := nextId slides in
  slides ++
  [ {| g_id := nextId;
       g_title := new_page_label ++ nextId;
       g_section := Some new_section;
       g_status := queued;
       g_progress := 0 |} ].

End GenerationPage.

(* ===================================================================== *)
(** * The retry wrapper (slide generation design, "重试机制") *)
(* ===================================================================== *)

Module Retry.

(** [max_retries] is an [int]; the three delays are [float]s, each kept
    as the rational the double denotes ([Binary64]).  Infinities and NaN
    are not among the configured values. *)
Record RetryConfig := mkRetryConfig {
  max_retries : Z;
  base_delay : Q;
  max_delay : Q;
  exponential_base : Q
}.

Definition default_config : RetryConfig :=
  {| max_retries := 3;
     base_delay := 1;
     max_delay := 30;
     exponential_base := 2 |}.

(** [x ** attempt] for a float [x] and an int [attempt]: the int is
    converted to a float, and the power is the double nearest to the exact
    one (CPython hands it to the C library's [pow], taken here to round
    correctly, as IEEE 754 recommends).  [None] is [OverflowError], which
    CPython raises when the result is out of range, and also when the int
    is too large for a float. *)
Definition float_pow (x : Q) (attempt : nat) : option Q :=
  match Binary64.round (inject_Z (Z.of_nat attempt)) with
  | Binary64.Overflow _ => None
  | Binary64.Finite w =>
      match Binary64.round (x ^ Qfloor w) with
      | Binary64.Finite p => Some p
      | Binary64.Overflow _ => None
      end
  end.

(** How the statement [delay = min(...)] ends. *)
Inductive delay_result :=
  | Seconds (d : Q)
  | MinusInfinity
  | OverflowError.

(** [min(config.base_delay * (config.exponential_base ** attempt),
       config.max_delay)]: the power raises or is a double; the product
    is rounded, or is an infinity where it overflows; [min(x, cap)] is
    [cap] when [cap < x], and [x] otherwise. *)
Definition delay (config : RetryConfig) (attempt : nat) : delay_result :=
  match float_pow (exponential_base config) attempt with
  | None => OverflowError
  | Some p =>
      match Binary64.round (base_delay config * p) with
      | Binary64.Finite x =>
          Seconds (if Qle_bool x (max_delay config) then x
                   else max_delay config)
      | Binary64.Overflow false => Seconds (max_delay config)
      | Binary64.Overflow true => MinusInfinity
      end
  end.

(** What an observer of [with_retry] sees: the awaited calls of [func] and
    the awaited sleeps, in order.  [asyncio.sleep(d)] returns after [d]
    seconds, and at once when [d <= 0], which [-inf] is. *)
Inductive event :=
  | Called (attempt : nat)
  | Slept (seconds : Q)
  | SleptMinusInfinity.

(** How a Python call ends.  [RaisedOverflowError] is the [OverflowError]
    of the delay expression, raised while the exception of [func] is being
    handled. *)
Inductive outcome (A E : Type) :=
  | Returned (v : A)
  | ReturnedNone
  | Raised (e : E)
  | RaisedOverflowError.
Arguments Returned {A E} v.
Arguments ReturnedNone {A E}.
Arguments Raised {A E} e.
Arguments RaisedOverflowError {A E}.

(** The sleep of a delay, as an event. *)
Definition slept (d : delay_result) : list event :=
  match d with
  | Seconds q => [Slept q]
  | MinusInfinity => [SleptMinusInfinity]
  | OverflowError => []
  end.

Section WithRetry.

Context {A E : Type}.

(** [func attempt]: how awaiting [func()] ends in the iteration
    [attempt] of the loop, [inl e] when it raises the [Exception] [e]. *)
Variable func : nat -> E + A.
Variable config : RetryConfig.
Variable on_failure : option (E -> A).

(** The body of [for attempt in range(config.max_retries)], over the
    attempts still to come. *)
Fixpoint retry_loop (attempts : list nat) : list event * outcome A E :=
  match attempts with
  | [] => ([], ReturnedNone)
  | attempt :: rest =>
      match func attempt with
      | inr v => ([Called attempt], Returned v)
      | inl e =>
          if (Z.of_nat attempt =? max_retries config - 1)%Z then
            ([Called attempt],
             match on_failure with
             | Some handler => Returned (handler e)
             | None => Raised e
             end)
          else
            match delay config attempt with
            | OverflowError => ([Called attempt], RaisedOverflowError)
            | d =>
                let (events, result) := retry_loop rest in
                (Called attempt :: slept d ++ events, result)
            end
      end
  end.

Definition with_retry : list event * outcome A E :=
  retry_loop (seq 0 (Z.to_nat (max_retries config))).

End WithRetry.

(** How [with_retry] ends when the last attempt raised [errors last]. *)
Definition exhausted {A E} (errors : nat -> E) (on_failure : option (E -> A))
    (last : nat) : outcome A E :=
  match on_failure with
  | Some handler => Returned (handler (errors last))
  | None => Raised (errors last)
  end.

Definition calls (events : list event) : list nat :=
  omap (fun ev => match ev with Called a => Some a | _ => None end) events.

(** The sleeps of a positive or zero or negative number of seconds. *)
Definition sleeps (events : list event) : list Q :=
  omap (fun ev => match ev with Slept d => Some d | _ => None end) events.

(** All the sleeps. *)
Definition sleep_count (events : list event) : nat :=
  length (List.filter
            (fun ev => match ev with Called _ => false | _ => true end)
            events).

(** The retry policy as the specification words it: one first attempt, then
    up to [max_retries] retries, the retry number [k] (from 0) coming after
    a sleep of [min(base * 2^k, cap)], in exact arithmetic. *)
Definition spec_attempts (config : RetryConfig) : nat :=
  S (Z.to_nat (max_retries config)).

Definition spec_delays (config : RetryConfig) : list Q :=
  map (fun k => Qmin (base_delay config * exponential_base config ^ Z.of_nat k)
                     (max_delay config))
      (seq 0 (Z.to_nat (max_retries config))).

End Retry.

(* ===================================================================== *)
(** * The slide generator (slide generation design, "SlideGenerator 类") *)
(* ===================================================================== *)

Module SlideGenerator.

(** ** Agents and the role switch *)

Record ToolCall := mkToolCall {
  call_id : string;
  tool_name : string;
  arguments : string
}.

(** Modelled from the spec: [agent_core.Agent] is imported by the design
    but is not among the sources.  Its conversation history is the
    Transcript of the data model, an ordered sequence of turns. *)
Inductive Turn :=
  | UserMessage (text : string)
  | AssistantMessage (text : string) (toolCalls : list ToolCall)
  | ToolResult (callId : string) (payload : string).

Record AgentTools := mkTools {
  tool_definitions_json : string
}.

(** Modelled from the spec: the fields of [agent_core.Agent] the generator
    reads and writes: the system prompt (the bound role), the history and
    the tool catalogue. *)
Record Agent := mkAgent {
  system_prompt : string;
  messages : list Turn;
  tools : AgentTools
}.

(** The configuration [__init__] stores ([on_slide_progress], a callback,
    is left out). *)
Record SlideGenerator := mkGenerator {
  api_key : string;
  workspace_dir : string;
  model : string;
  base_url : option string;
  concurrency : Z;
  architect_prompt : string;
  designer_prompt : string
}.

Inductive PyError :=
  | NameError (name : string).

(** What leaves the process: tool executions and model requests. *)
Inductive effect :=
  | ToolExecuted (name : string)
  | ModelRequested.

(** A computation with the effects it performed, in order. *)
Definition Eff (A : Type) : Type := A * list effect.

Definition ret {A} (a : A) : Eff A := (a, []).

Definition bind {A B} (m : Eff A) (k : A -> Eff B) : Eff B :=
  let (a, log) := m in
  let (b, log') := k a in
  (b, log ++ log').

Definition newline : string := String "010"%char EmptyString.

(** [_build_architect_system_prompt] has no [agent] parameter and reads
    [agent.tools]: the name is looked up in the enclosing module, and
    [scope_agent] is what it is bound to there, if anything.  The getter
    [get_tool_definitions_json] reads the catalogue. *)
Definition _build_architect_system_prompt (self : SlideGenerator)
    (scope_agent : option Agent) : PyError + string :=
  match scope_agent with
  | None => inl (NameError "agent")
  | Some agent =>
      let tool_definitions := tool_definitions_json (tools agent) in
      inr (architect_prompt self ++ newline ++ newline ++ tool_definitions)%string
  end.

(** The listing of the design holds the class alone: its module binds no
    name [agent]. *)
Definition module_scope : option Agent := None.

(** [switch_to_architect] assigns [agent.system_prompt] in place: the
    result is the agent object after the call and the exception, if the
    prompt could not be built (nothing is assigned then). *)
Definition switch_to_architect (self : SlideGenerator)
    (scope_agent : option Agent) (agent : Agent)
  : Eff (Agent * option PyError) :=
  match _build_architect_system_prompt self scope_agent with
  | inr prompt =>
      ret ({| system_prompt := prompt;
              messages := messages agent;
              tools := tools agent |}, None)
  | inl e => ret (agent, Some e)
  end.

Section GeneratePlan.

(** [_run_agent_async], the agent runner: it continues the conversation
    of the agent with the task and performs tool and model calls. *)
Variable _run_agent_async : Agent -> string -> Eff Agent.
Variable plan_task : string -> string.

(** [generate_plan], up to the point where the plan file is read. *)
Definition generate_plan (self : SlideGenerator) (scope_agent : option Agent)
    (agent : Agent) (user_request : string) : Eff (Agent * option PyError) :=
  bind (switch_to_architect self scope_agent agent) (fun r =>
    match r with
    | (agent', None) =>
        bind (_run_agent_async agent' (plan_task user_request))
             (fun agent'' => ret (agent'', None))
    | (agent', Some e) => ret (agent', Some e)
    end).

End GeneratePlan.

(** ** Plan and manifest *)

(** Modelled from the spec: the design keeps plan and manifest as JSON
    documents ([presentation_plan.json], [manifest.json]) without code for
    them; SlideSpec, Plan, ManifestEntry and the summary are the records of
    the data model. *)
Record SlideSpec := mkSpec {
  spec_id : string;
  spec_title : string;
  contentBrief : string
}.

Record Plan := mkPlan {
  plan_title : string;
  plan_slides : list SlideSpec
}.

Inductive Status := pending | running | done | failed.

#[global] Instance Status_eq_dec : EqDecision Status.
Proof. solve_decision. Defined.

Record ManifestEntry := mkEntry {
  slideId : string;
  status : Status;
  attempts : nat;
  artifactPath : option string;
  lastUpdated : nat
}.

Record ManifestSummary := mkSummary {
  n_done : nat;
  n_failed : nat
}.

(** Modelled from the spec: the body of [create_slide_framework] is elided
    in the design.  It expands the plan into the manifest: one entry per
    SlideSpec, in plan order, each [pending] with no attempt made. *)
Definition new_entry (s : SlideSpec) : ManifestEntry :=
  {| slideId := spec_id s;
     status := pending;
     attempts := 0;
     artifactPath := None;
     lastUpdated := 0 |}.

(** Modelled from the spec: [create_slide_framework], whose body is elided,
    as far as the manifest goes (the blank HTML pages are left out). *)
Definition create_slide_framework (plan : Plan) : list ManifestEntry :=
  map new_entry (plan_slides plan).

(** ** The bulk generation engine *)

(** Modelled from the spec: the run-level errors of a designer run. *)
Inductive RunError := ModelUnavailable | IterationLimitExceeded.

(** How one designer run ends: it wrote the artifact, or it failed. *)
Inductive RunResult :=
  | RunOk (artifact : string)
  | RunFailed (e : RunError).

Definition is_ok (r : RunResult) : bool :=
  match r with RunOk _ => true | RunFailed _ => false end.

(** The manifest the workers share, and the time. *)
Record EngineState := mkState {
  manifest : list ManifestEntry;
  clock : nat
}.

Definition count_status (st : Status) (m : list ManifestEntry) : nat :=
  length (List.filter (fun e => bool_decide (status e = st)) m).

(** 1 when [st'] is the status [st], 0 otherwise. *)
Definition indicator (st st' : Status) : nat :=
  if bool_decide (st' = st) then 1 else 0.

(** The counts of a list of statuses. *)
Definition tally (sts : list Status) : ManifestSummary :=
  {| n_done := length (List.filter (fun x => bool_decide (x = done)) sts);
     n_failed := length (List.filter (fun x => bool_decide (x = failed)) sts) |}.

(** The number the semaphore is built with: [MAX_CONCURRENT_SLIDES],
    which is 3 when the variable is not set (README, configuration
    table). *)
Definition max_concurrent (limit : option nat) : nat := default 3 limit.

(** The admission gate (README, concurrent generation):
    [self._semaphore = asyncio.Semaphore(max_concurrent)] and, around
    every designer run,
    [async with self._semaphore: await self._call_designer(task)].
    A semaphore is acquired while its counter is positive; the counter is
    [max_concurrent] less the runs that hold it, and a run holds it from
    its admission until it is over.  With [max_concurrent = 0] it is never
    acquired. *)
Definition gate_open (limit : option nat) (m : list ManifestEntry) : bool :=
  count_status running m <? max_concurrent limit.

Definition set_entry (i : nat) (e : ManifestEntry) (s : EngineState)
  : EngineState :=
  {| manifest := <[i := e]> (manifest s); clock := S (clock s) |}.

Section Engine.

(** The configured concurrency limit ([None] when it is not set), the
    retry budget, and the designer: [designer id k] is how the run number
    [k] (from 0) for the slide [id] ends. *)
Variable limit : option nat.
Variable maxRetries : nat.
Variable designer : string -> nat -> RunResult.

(** Modelled from the spec: the body of [generate_all_slides] is elided
    in the design; the gate is the one of the README.  One move of the
    worker of entry [i]:
    - a [pending] entry passes the gate, when it is open, and runs;
    - a [running] entry ends its current designer run: on success it is
      [done], stamped with the time; on failure it retries while the
      budget lasts and is [failed] after that.
    No move exists for a [done] or [failed] entry, or outside the
    manifest.  A move writes the entry [i] only.  The budget is the one
    of the spec, [maxRetries] runs after the first; [with_retry] as the
    design lists it ([Retry]) makes [max_retries] runs in all. *)
Definition step_at (i : nat) (s : EngineState) : option EngineState :=
  match manifest s !! i with
  | None => None
  | Some e =>
      match status e with
      | pending =>
          if gate_open limit (manifest s) then
            Some (set_entry i
                    {| slideId := slideId e; status := running;
                       attempts := attempts e;
                       artifactPath := artifactPath e;
                       lastUpdated := clock s |} s)
          else None
      | running =>
          match designer (slideId e) (attempts e) with
          | RunOk artifact =>
              Some (set_entry i
                      {| slideId := slideId e; status := done;
                         attempts := S (attempts e);
                         artifactPath := Some artifact;
                         lastUpdated := clock s |} s)
          | RunFailed _ =>
              if attempts e <? maxRetries then
                Some (set_entry i
                        {| slideId := slideId e; status := running;
                           attempts := S (attempts e);
                           artifactPath := artifactPath e;
                           lastUpdated := clock s |} s)
              else
                Some (set_entry i
                        {| slideId := slideId e; status := failed;
                           attempts := S (attempts e);
                           artifactPath := artifactPath e;
                           lastUpdated := clock s |} s)
          end
      | done | failed => None
      end
  end.

(** The four moves, as a relation between the entry before and after. *)
Inductive move (e e' : ManifestEntry) (m : list ManifestEntry) : Prop :=
  | move_enter :
      status e = pending -> gate_open limit m = true ->
      status e' = running -> attempts e' = attempts e -> move e e' m
  | move_done :
      status e = running -> is_ok (designer (slideId e) (attempts e)) = true ->
      status e' = done -> attempts e' = S (attempts e) -> move e e' m
  | move_retry :
      status e = running -> is_ok (designer (slideId e) (attempts e)) = false ->
      attempts e < maxRetries ->
      status e' = running -> attempts e' = S (attempts e) -> move e e' m
  | move_fail :
      status e = running -> is_ok (designer (slideId e) (attempts e)) = false ->
      maxRetries <= attempts e ->
      status e' = failed -> attempts e' = S (attempts e) -> move e e' m.

(** The engine moves by a move of any one worker: the interleavings of
    the concurrent workers. *)
Definition step (s s' : EngineState) : Prop :=
  exists i, step_at i s = Some s'.

Inductive steps : EngineState -> EngineState -> Prop :=
  | steps_refl s : steps s s
  | steps_step s s' s'' : steps s s' -> step s' s'' -> steps s s''.

Definition initial (plan : Plan) : EngineState :=
  {| manifest := create_slide_framework plan; clock := 0 |}.

Definition reachable (plan : Plan) (s : EngineState) : Prop :=
  steps (initial plan) s.

Definition is_terminal (st : Status) : bool :=
  match st with done | failed => true | pending | running => false end.

Definition terminal (s : EngineState) : Prop :=
  Forall (fun e => is_terminal (status e) = true) (manifest s).

Definition summary (m : list ManifestEntry) : ManifestSummary :=
  {| n_done := count_status done m; n_failed := count_status failed m |}.

(** One scheduler among the many: admit the first waiting entry while the
    gate is open, otherwise let the first running entry move. *)
Definition schedule (s : EngineState) : option nat :=
  match list_find (fun e => status e = pending) (manifest s) with
  | Some (i, _) =>
      if gate_open limit (manifest s) then Some i
      else fst <$> list_find (fun e => status e = running) (manifest s)
  | None => fst <$> list_find (fun e => status e = running) (manifest s)
  end.

Fixpoint run (fuel : nat) (s : EngineState) : EngineState :=
  match fuel with
  | 0 => s
  | S fuel' =>
      match schedule s with
      | Some i =>
          match step_at i s with
          | Some s' => run fuel' s'
          | None => s
          end
      | None => s
      end
  end.

(** The moves an entry still has before it, at most. *)
Definition entry_budget (e : ManifestEntry) : nat :=
  match status e with
  | pending => S (S (S maxRetries))
  | running => S (S maxRetries - attempts e)
  | done | failed => 0
  end.

Definition budget (s : EngineState) : nat :=
  sum_list_with entry_budget (manifest s).

Definition terminalb (s : EngineState) : bool :=
  forallb (fun e => is_terminal (status e)) (manifest s).

(** Modelled from the spec: [generate_all_slides], whose body is elided:
    expand the plan, let the workers move until none can, and report the
    counts of done and failed entries.  [None]: workers are left that can
    never move, and the call does not return. *)
Definition generate_all_slides (plan : Plan) : option ManifestSummary :=
  let s := initial plan in
  let s' := run (budget s) s in
  if terminalb s' then Some (summary (manifest s')) else None.

(** The status a slide ends in, from its own designer runs alone. *)
Definition final_status (id : string) : Status :=
  if existsb (fun k => is_ok (designer id k)) (seq 0 (S maxRetries))
  then done else failed.

(** What the engine maintains for each entry: a waiting entry has made no
    attempt; a running entry is within its budget and all its attempts so
    far failed; a finished entry has the status its designer runs decide. *)
Definition entry_ok (e : ManifestEntry) : Prop :=
  match status e with
  | pending => attempts e = 0
  | running =>
      attempts e <= maxRetries /\
      forall k, k < attempts e -> is_ok (designer (slideId e) k) = false
  | done => final_status (slideId e) = done
  | failed => final_status (slideId e) = failed
  end.

End Engine.

End SlideGenerator.

(* ===================================================================== *)
(** * The task phase state machine *)
(* ===================================================================== *)

Module PhaseMachine.

Import SlideGenerator.

Inductive TaskPhase := collecting | editing_plan | designing | completed.

#[global] Instance TaskPhase_eq_dec : EqDecision TaskPhase.
Proof. solve_decision. Defined.

(** Modelled from the spec: the Task of the data model; [plan] is its
    validated Plan, once it has one. *)
Record Task := mkTask {
  task_id : string;
  phase : TaskPhase;
  plan : option Plan;
  task_manifest : option (list ManifestEntry)
}.

Inductive PhaseError := InvalidPhaseTransition.

(** Modelled from the spec: the state machine behind the endpoint
    [/tasks/{id}/transition] ([workflow/phase_manager.py]) is not among the
    sources.  Forward edges collecting → editing_plan → designing →
    completed; backward edges editing_plan → collecting, which discards the
    Plan, and designing → editing_plan, which invalidates the Manifest and
    keeps the Plan; designing is entered with a validated Plan only. *)
Definition transition (t : Task) (target_phase : TaskPhase)
  : PhaseError + Task :=
  match phase t, target_phase with
  | collecting, editing_plan =>
      inr {| task_id := task_id t; phase := editing_plan;
             plan := plan t; task_manifest := task_manifest t |}
  | editing_plan, designing =>
      match plan t with
      | Some _ =>
          inr {| task_id := task_id t; phase := designing;
                 plan := plan t; task_manifest := task_manifest t |}
      | None => inl InvalidPhaseTransition
      end
  | designing, completed =>
      inr {| task_id := task_id t; phase := completed;
             plan := plan t; task_manifest := task_manifest t |}
  | editing_plan, collecting =>
      inr {| task_id := task_id t; phase := collecting;
             plan := None; task_manifest := task_manifest t |}
  | designing, editing_plan =>
      inr {| task_id := task_id t; phase := editing_plan;
             plan := plan t; task_manifest := None |}
  | _, _ => inl InvalidPhaseTransition
  end.

(** The task the store holds after the request. *)
Definition after_transition (t : Task) (target_phase : TaskPhase) : Task :=
  match transition t target_phase with
  | inr t' => t'
  | inl _ => t
  end.

Definition allowed_edges : list (TaskPhase * TaskPhase) :=
  [ (collecting, editing_plan); (editing_plan, designing);
    (designing, completed);
    (editing_plan, collecting); (designing, editing_plan) ].

End PhaseMachine.


(* ===================================================================== *)
(** * The generation monitor: the other handlers (GenerationPage) *)
(* ===================================================================== *)

Module GenerationHandlers.

Import GenerationPage.

(** [{ ...s, status: st, progress: p }] *)
Definition with_status (s : SlideGenerationStatus) (st : jsstring) (p : Z)
  : SlideGenerationStatus :=
  {| g_id := g_id s; g_title := g_title s; g_section := g_section s;
     g_status := st; g_progress := p |}.

(** [handleRegenerate]: the state it sets (the request to the back end goes
    out besides, its failure is only logged). *)
Definition handleRegenerate (id : jsstring)
    (prev : list SlideGenerationStatus) : list SlideGenerationStatus :=
  map (fun s => if bool_decide (g_id s = id)
                then with_status s running (Z.min (g_progress s) 5)
                else s) prev.

(** The optimistic update of [handleStartAllQueued] and the update that
    takes it back when [startGeneration] threw. *)
Definition markQueuedRunning (prev : list SlideGenerationStatus)
  : list SlideGenerationStatus :=
  map (fun s => if bool_decide (g_status s = queued)
                then with_status s running 1 else s) prev.

Definition revertOptimistic (prev : list SlideGenerationStatus)
  : list SlideGenerationStatus :=
  map (fun s => if bool_decide (g_status s = running)
                   && (g_progress s <=? 1)%Z
                then with_status s queued 0 else s) prev.

(** [handleStartAllQueued] on the state [(slides, isGenerating)];
    [started] tells whether [startGeneration] resolved.  Without a task id
    nothing happens. *)
Definition handleStartAllQueued (taskId : option jsstring) (started : bool)
    (state : list SlideGenerationStatus * bool)
  : list SlideGenerationStatus * bool :=
  if truthy (or_else taskId []) then
    let optimistic := markQueuedRunning (fst state) in
    if started then (optimistic, true)
    else (revertOptimistic optimistic, false)
  else state.

(** [Math.round] of a finite number: the nearest integer, ties upwards. *)
Definition Math_round (n : Q) : Z := Qfloor (n + (1 # 2)).

(** [pct], on a finite number. *)
Definition pct (n : Q) : Z := Z.max 0 (Z.min 100 (Math_round n)).

Definition type_name (t : SlideType) : jsstring :=
  match t with
  | TTitle => lit "title"
  | TContent => lit "content"
  | TSection => lit "section"
  | TEnd => lit "end"
  end.

(** [progress.slides.forEach(s => progressMap.set(s.id, s))] *)
Definition progressMap (progress : list SlideGenerationStatus)
  : gmap jsstring SlideGenerationStatus :=
  foldl (fun m s => <[g_id s := s]> m) ∅ progress.

(** The element [loadData] builds for the plan slide [s] at index [i]. *)
Definition slideWithProgress
    (pm : gmap jsstring SlideGenerationStatus) (s : Slide) (i : nat)
  : SlideGenerationStatus :=
  let slideId :=
    or_else (slide_id s)
            (lit "slide_" ++ SlideEditorPage.String_of_nat (i + 1)) in
  let progressSlide := pm !! slideId in
  {| g_id := slideId;
     g_title := or_else (slide_title s)
                  (SlideEditorPage.slide_label
                     ++ SlideEditorPage.String_of_nat (i + 1));
     g_section := Some (match slide_type s with
                        | Some t => type_name t
                        | None => lit "content"
                        end);
     g_status := or_else (g_status <$> progressSlide) queued;
     g_progress := match progressSlide with
                   | Some p => g_progress p
                   | None => 0%Z
                   end |}.

(** [loadData], after the task was fetched: the slides it leaves in the
    state.  [plan] and [progress] are [None] when the request failed (or,
    for [progress], when the answer has no [slides]); [current] is the
    state before. *)
Definition loadData (plan : option Presentation)
    (progress : option (list SlideGenerationStatus))
    (current : list SlideGenerationStatus) : list SlideGenerationStatus :=
  let pm := progressMap (default [] progress) in
  let fallback :=
    match progress with
    | Some (p :: ps) => p :: ps
    | _ => current
    end in
  match plan with
  | Some pl =>
      if 0 <? length (slides pl)
      then SlideEditorPage.mapi (slideWithProgress pm) (slides pl)
      else fallback
  | None => fallback
  end.

End GenerationHandlers.

(* ===================================================================== *)
(** * The slide editor: loading, current slide, navigation *)
(* ===================================================================== *)

Module SlideEditorState.

Import SlideEditorPage.

(** [SlideWithGeneration]: a [DetailedSlide] with its generation state. *)
Record SlideWithGeneration := mkWithGeneration {
  base : DetailedSlide;
  generationStatus : jsstring;
  htmlContent : option jsstring;
  streamingContent : option jsstring
}.

Definition sid (s : SlideWithGeneration) : jsstring := d_id (base s).

(** [progress?.slides?.find(p => p.id === id)] *)
Definition findProgress (progress : option (list SlideGenerationStatus))
    (id : jsstring) : option SlideGenerationStatus :=
  match progress with
  | Some l => List.find (fun p => bool_decide (g_id p = id)) l
  | None => None
  end.

Definition detailedSlide (progress : option (list SlideGenerationStatus))
    (s : Slide) (i : nat) : SlideWithGeneration :=
  let base := convertToDetailedSlide s i in
  let progressSlide := findProgress progress (d_id base) in
  {| base := base;
     generationStatus :=
       or_else (g_status <$> progressSlide) GenerationPage.queued;
     htmlContent := None;
     streamingContent := None |}.

(** [loadData], after the task was fetched: the slides it leaves in the
    state; [plan] is [None] when [getPlan] threw. *)
Definition loadData (plan : option Presentation)
    (progress : option (list SlideGenerationStatus))
    (current : list SlideWithGeneration) : list SlideWithGeneration :=
  match plan with
  | Some pl =>
      if 0 <? length (slides pl)
      then mapi (detailedSlide progress) (slides pl)
      else []
  | None => current
  end.

(** The update of the polling callback. *)
Definition applyProgress (progress : list SlideGenerationStatus)
    (prev : list SlideWithGeneration) : list SlideWithGeneration :=
  map (fun slide =>
         match List.find (fun p => bool_decide (g_id p = sid slide))
                         progress with
         | Some progressSlide =>
             {| base := base slide;
                generationStatus := g_status progressSlide;
                htmlContent := htmlContent slide;
                streamingContent := streamingContent slide |}
         | None => slide
         end) prev.

(** [slides.find(s => s.id === currentSlideId) || slides[0]] *)
Definition currentSlide (slides : list SlideWithGeneration)
    (currentSlideId : jsstring) : option SlideWithGeneration :=
  match List.find (fun s => bool_decide (sid s = currentSlideId)) slides with
  | Some s => Some s
  | None => head slides
  end.

(** [arr.findIndex(p)]: the first index, or -1. *)
Fixpoint findIndex_from {A} (p : A -> bool) (i : Z) (l : list A) : Z :=
  match l with
  | [] => (-1)%Z
  | x :: rest => if p x then i else findIndex_from p (i + 1)%Z rest
  end.

Definition findIndex {A} (p : A -> bool) (l : list A) : Z :=
  findIndex_from p 0%Z l.

Definition currentIdx (slides : list SlideWithGeneration)
    (currentSlideId : jsstring) : Z :=
  findIndex (fun s => bool_decide (sid s = currentSlideId)) slides.

(** [String(i)] for an integer. *)
Definition String_of_Z (i : Z) : jsstring :=
  if (i <? 0)%Z then lit "-" ++ String_of_N (Z.abs_N i)
  else String_of_N (Z.to_N i).

(** [getSlideHtmlUrl] (services/api.ts) *)
Definition getSlideHtmlUrl (taskId : jsstring) (slideIndex : Z) : jsstring :=
  lit "/api/tasks/" ++ taskId ++ lit "/slides/" ++ String_of_Z slideIndex
    ++ lit "/html".

(** The URL the effect that loads the HTML of the current slide fetches,
    if it fetches. *)
Definition htmlRequest (taskId : option jsstring)
    (slides : list SlideWithGeneration) (currentSlideId : jsstring)
  : option jsstring :=
  match taskId, currentSlide slides currentSlideId with
  | Some t, Some s =>
      if truthy t && bool_decide (generationStatus s = GenerationPage.done)
      then Some (getSlideHtmlUrl t (currentIdx slides currentSlideId))
      else None
  | _, _ => None
  end.

(** [arr[i]] for an integer index. *)
Definition at_index {A} (l : list A) (i : Z) : option A :=
  if (i <? 0)%Z then None else l !! Z.to_nat i.

(** What a click on a footer button does; the footer is rendered when
    the list of slides is not empty. *)
Inductive Navigation :=
  | Disabled
  | Selected (id : jsstring)
  | TypeError.

(** The "previous" button: disabled on index 0, otherwise it selects
    [slides[currentIdx - 1].id]. *)
Definition goPrevious (slides : list SlideWithGeneration)
    (currentSlideId : jsstring) : Navigation :=
  let idx := currentIdx slides currentSlideId in
  if (idx =? 0)%Z then Disabled
  else match at_index slides (idx - 1) with
       | Some s => Selected (sid s)
       | None => TypeError
       end.

(** The "next" button: disabled on the last index, otherwise it selects
    [slides[currentIdx + 1].id]. *)
Definition goNext (slides : list SlideWithGeneration)
    (currentSlideId : jsstring) : Navigation :=
  let idx := currentIdx slides currentSlideId in
  if (idx =? Z.of_nat (length slides) - 1)%Z then Disabled
  else match at_index slides (idx + 1) with
       | Some s => Selected (sid s)
       | None => TypeError
       end.

End SlideEditorState.

(* ===================================================================== *)
(** * The slide detail editor (components/SlideDetailEditor.tsx) *)
(* ===================================================================== *)

Module SlideDetailEditor.

Inductive Field := FLabel | FValue.

Definition with_content (slide : DetailedSlide)
    (content : list SlideContentItem) : DetailedSlide :=
  {| d_id := d_id slide; d_title := d_title slide;
     d_subtitle := d_subtitle slide; d_layout := d_layout slide;
     d_content := content |}.

(** [{ ...item, [field]: value }] *)
Definition set_field (item : SlideContentItem) (field : Field)
    (value : jsstring) : SlideContentItem :=
  match field with
  | FLabel => {| item_id := item_id item; item_label := value;
                 item_value := item_value item |}
  | FValue => {| item_id := item_id item; item_label := item_label item;
                 item_value := value |}
  end.

(** Each handler gives the slide it passes to [onUpdate], if it calls it. *)
Definition handleContentItemChange (slide : DetailedSlide) (id : jsstring)
    (field : Field) (value : jsstring) : option DetailedSlide :=
  Some (with_content slide
          (map (fun item => if bool_decide (item_id item = id)
                            then set_field item field value else item)
               (d_content slide))).

(** ["新要点"] *)
Definition new_point : jsstring := [26032; 35201; 28857]%N.

Definition newItem (now : N) : SlideContentItem :=
  {| item_id := lit "c-" ++ String_of_N now;
     item_label := new_point;
     item_value := [] |}.

Definition handleAddContentItem (slide : DetailedSlide) (now : N)
  : option DetailedSlide :=
  Some (with_content slide (d_content slide ++ [newItem now])).

Definition handleRemoveContentItem (slide : DetailedSlide) (id : jsstring)
  : option DetailedSlide :=
  if length (d_content slide) <=? 1 then None
  else Some (with_content slide
               (List.filter (fun item => negb (bool_decide (item_id item = id)))
                            (d_content slide))).

(** The slide the parent holds after the handler ran. *)
Definition after (slide : DetailedSlide) (update : option DetailedSlide)
  : DetailedSlide :=
  default slide update.

End SlideDetailEditor.

(* ===================================================================== *)
(** * The request helper (services/api.ts) *)
(* ===================================================================== *)

Module Api.

(** The values of the properties of a request description. *)
Inductive InitValue :=
  | VUndefined
  | VText (s : jsstring)
  | VRecord (fields : gmap string jsstring).

(** An object literal: its own properties. *)
Definition JSObject := gmap string InitValue.

(** [{ ...a, ...b }]: the properties of [b] win. *)
Definition spread (a b : JSObject) : JSObject := b ∪ a.

(** [...v] inside a literal of headers: the own properties of a record,
    nothing for [undefined]; a string would spread its characters and is
    left out of the headers modelled here. *)
Definition spread_headers (base : gmap string jsstring) (v : option InitValue)
  : option (gmap string jsstring) :=
  match v with
  | None | Some VUndefined => Some base
  | Some (VRecord h) => Some (h ∪ base)
  | Some (VText _) => None
  end.

Definition default_headers : gmap string jsstring :=
  {[ "Content-Type"%string := lit "application/json" ]}.

(** The second argument [fetchAPI] passes to [fetch]:
    [{ headers: { 'Content-Type': 'application/json', ...options?.headers },
       ...options }]; [options] is [None] when the caller passes none. *)
Definition request_init (options : option JSObject) : option JSObject :=
  let given := default ∅ options in
  match spread_headers default_headers (given !! "headers"%string) with
  | Some merged =>
      Some (spread {[ "headers"%string := VRecord merged ]} given)
  | None => None
  end.

Record Response := mkResponse {
  ok : bool;
  statusText : jsstring
}.

(** [fetchAPI] up to the decoding of the body: the request it sends and,
    when the response is not ok, the message of the error it throws. *)
Definition fetchAPI_error (response : Response) : option jsstring :=
  if ok response then None
  else Some (lit "API Error: " ++ statusText response).

End Api.

(* ===================================================================== *)
(** * Notions used to state the properties of the pages *)
(* ===================================================================== *)

Module Notions.

Import PlanEditorPage SlideEditorPage GenerationPage.

(** The other direction of a move. *)
Definition opposite (d : Direction) : Direction :=
  match d with up => down | down => up end.

(** A slide is settled when it is where the back end leaves it: queued
    with progress 0, or, if running, with a progress above 1. *)
Definition settled (s : SlideGenerationStatus) : Prop :=
  (g_status s = queued -> g_progress s = 0%Z) /\
  (g_status s = running -> (1 < g_progress s)%Z).

(** The id the pages give the plan slide [s] at index [i]. *)
Definition plan_id (s : Slide) (i : nat) : jsstring :=
  or_else (slide_id s) (lit "slide_" ++ String_of_nat (i + 1)).

End Notions.

(* ===================================================================== *)
(** * The trace of the retry wrapper *)
(* ===================================================================== *)

Module RetryTrace.

Import Retry.

(** What is seen of [c] failed attempts, each followed by its sleep, and one
    more attempt, counting from the attempt [j]. *)
Definition attempts_trace (config : RetryConfig) (j c : nat) : list event :=
  flat_map (fun a => Called a :: slept (delay config a)) (seq j c)
    ++ [Called (j + c)].

(** How [with_retry] ends when its last attempt raised [e]. *)
Definition on_exhaustion {A E} (on_failure : option (E -> A)) (e : E)
  : outcome A E :=
  match on_failure with
  | Some handler => Returned (handler e)
  | None => Raised e
  end.

Section Shape.

Context {A E : Type}.
Variable func : nat -> E + A.
Variable config : RetryConfig.
Variable on_failure : option (E -> A).

(** The attempt [a] raised and the delay after it was computed. *)
Definition retried (a : nat) : Prop :=
  (exists e, func a = inl e) /\ delay config a <> OverflowError.

(** How the run ends with the attempt [c], the last allowed one being
    [last]: the attempt returns; or it is the last one and raises; or it
    raises before the last one and the delay expression overflows. *)
Definition ends_with (c last : nat) (result : outcome A E) : Prop :=
  (exists v, func c = inr v /\ result = Returned v)
  \/ (c = last /\
      exists e, func c = inl e /\ result = on_exhaustion on_failure e)
  \/ (c < last /\ (exists e, func c = inl e) /\
      delay config c = OverflowError /\ result = RaisedOverflowError).

End Shape.


(** A tenth of a second, tripled on every retry. *)
Definition tenth_config : RetryConfig :=
  {| max_retries := 5;
     base_delay := Binary64.literal (1 # 10);
     max_delay := 30;
     exponential_base := 3 |}.


End RetryTrace.

(* ===================================================================== *)
(** * Sample inputs *)
(* ===================================================================== *)

Module Samples.

Definition plain_slide (id title : string) : Slide :=
  {| slide_id := Some (lit id);
     slide_title := Some (lit title);
     slide_content := ContentString [];
     slide_type := Some TContent;
     slide_notes := None |}.

(** An outline whose two slides carry the same id, as the JSON view of the
    editor accepts it. *)
Definition twins : Presentation :=
  {| pres_title := lit "Twins";
     slides := [plain_slide "a" "First"; plain_slide "a" "Second"];
     theme := None |}.

(** An outline of two slides without ids, as a served plan may hold them
    (the pages fall back to [slide_<i+1>] where they need an id). *)
Definition unnamed_pair : Presentation :=
  {| pres_title := lit "Unnamed";
     slides := [ {| slide_id := None; slide_title := Some (lit "First");
                    slide_content := ContentString [];
                    slide_type := Some TContent; slide_notes := None |};
                 {| slide_id := None; slide_title := Some (lit "Second");
                    slide_content := ContentString [];
                    slide_type := Some TContent; slide_notes := None |} ];
     theme := None |}.

Definition trio : Presentation :=
  {| pres_title := lit "Trio";
     slides := [plain_slide "s1" "One"; plain_slide "s2" "Two";
                plain_slide "s3" "Three"];
     theme := None |}.

(** A slide of a served plan with no id and no title, whose content is two
    bullet lines and a blank one. *)
Definition bare_slide : Slide :=
  {| slide_id := None;
     slide_title := None;
     slide_content :=
       ContentString (lit "alpha" ++ [8226%N] ++ lit " beta " ++ [10%N]
                      ++ lit "  ");
     slide_type := None;
     slide_notes := None |}.

Definition empty_slide : Slide :=
  {| slide_id := Some [];
     slide_title := Some (lit "Kept");
     slide_content := ContentOther;
     slide_type := None;
     slide_notes := None |}.

Definition monitor_slide (id status : string) : SlideGenerationStatus :=
  {| g_id := lit id;
     g_title := lit "Page";
     g_section := None;
     g_status := lit status;
     g_progress := 0 |}.

Definition numbered : list SlideGenerationStatus :=
  [monitor_slide "1" "done"; monitor_slide "2" "done";
   monitor_slide "3" "queued"].

(** The monitor as [loadData] fills it from a plan without ids. *)
Definition defaulted : list SlideGenerationStatus :=
  [monitor_slide "slide_1" "done"; monitor_slide "slide_2" "queued"].

Definition mixed : list SlideGenerationStatus :=
  [monitor_slide "1" "done"; monitor_slide "2" "failed";
   monitor_slide "3" "queued"; monitor_slide "4" "running"].

Definition sample_plan : SlideGenerator.Plan :=
  {| SlideGenerator.plan_title := "Quarterly review";
     SlideGenerator.plan_slides :=
       [ {| SlideGenerator.spec_id := "1";
            SlideGenerator.spec_title := "Opening";
            SlideGenerator.contentBrief := "Title and agenda" |} ] |}.

Definition editing_task : PhaseMachine.Task :=
  {| PhaseMachine.task_id := "t1";
     PhaseMachine.phase := PhaseMachine.editing_plan;
     PhaseMachine.plan := Some sample_plan;
     PhaseMachine.task_manifest := None |}.

Definition planless_task : PhaseMachine.Task :=
  {| PhaseMachine.task_id := "t2";
     PhaseMachine.phase := PhaseMachine.editing_plan;
     PhaseMachine.plan := None;
     PhaseMachine.task_manifest := None |}.

Definition numbered_spec (id : string) : SlideGenerator.SlideSpec :=
  {| SlideGenerator.spec_id := id;
     SlideGenerator.spec_title := ("Slide " ++ id)%string;
     SlideGenerator.contentBrief := "" |}.

Definition five_plan : SlideGenerator.Plan :=
  {| SlideGenerator.plan_title := "Five slides";
     SlideGenerator.plan_slides :=
       map numbered_spec ["1"; "2"; "3"; "4"; "5"]%string |}.

(** The designer of slide 3 fails on every run; the others succeed at
    once. *)
Definition slide3_fails (id : string) (attempt : nat)
  : SlideGenerator.RunResult :=
  if String.eqb id "3" then
    SlideGenerator.RunFailed SlideGenerator.ModelUnavailable
  else SlideGenerator.RunOk ("slides/slide_" ++ id ++ ".html")%string.

End Samples.


(* ===================================================================== *)
(** * More sample inputs *)
(* ===================================================================== *)

Module MoreSamples.

Import SlideEditorPage SlideEditorState.

Definition editor_slide (id status : string) : SlideWithGeneration :=
  {| base := convertToDetailedSlide
               (Samples.plain_slide id "Title") 0;
     generationStatus := lit status;
     htmlContent := None;
     streamingContent := None |}.

Definition deck : list SlideWithGeneration :=
  [editor_slide "a" "done"; editor_slide "b" "running";
   editor_slide "c" "queued"].

(** A deck in which two slides carry the id [b]. *)
Definition deck_with_twins : list SlideWithGeneration :=
  [editor_slide "a" "done"; editor_slide "b" "done";
   editor_slide "b" "done"; editor_slide "c" "done"].

Definition converted : DetailedSlide :=
  convertToDetailedSlide Samples.bare_slide 4.

(** The options of a POST with a header of the caller's own. *)
Definition post_options : Api.JSObject :=
  {[ "method"%string := Api.VText (lit "POST");
     "headers"%string :=
       Api.VRecord {[ "Authorization"%string := lit "Bearer t" ]} ]}.

End MoreSamples.

(* ===================================================================== *)
(** * Facts about the JavaScript built-ins *)
(* ===================================================================== *)

Module JSFacts.

Lemma units_uint_uint_units d : units_uint (uint_units d) = Some d.
Proof.
  induction d as [|d IH|d IH|d IH|d IH|d IH|d IH|d IH|d IH|d IH|d IH];
    simpl; [reflexivity | rewrite IH; reflexivity ..].
Qed.

Lemma units_uint_String_of_N n :
  units_uint (String_of_N n) = Some (N.to_uint n).
Proof. apply units_uint_uint_units. Qed.

Lemma String_of_N_inj n m : String_of_N n = String_of_N m -> n = m.
Proof.
  intros H.
  assert (Hu : Some (N.to_uint n) = Some (N.to_uint m)).
  { rewrite <- !units_uint_String_of_N. now rewrite H. }
  injection Hu as Hu.
  rewrite <- (DecimalN.Unsigned.of_to n), <- (DecimalN.Unsigned.of_to m).
  now rewrite Hu.
Qed.

End JSFacts.

(* ===================================================================== *)
(** * Facts about rounding to a double *)
(* ===================================================================== *)

Module Binary64Facts.

Import Binary64.

Lemma Qred_inject_Z n : Qred (inject_Z n) = inject_Z n.
Proof.
  unfold Qred, inject_Z.
  pose proof (Z.ggcd_gcd n 1) as Hg.
  pose proof (Z.ggcd_correct_divisors n 1) as Hd.
  destruct (Z.ggcd n 1) as (g & aa & bb). simpl in *.
  rewrite Z.gcd_1_r in Hg. subst g. destruct Hd as (Ha & Hb).
  f_equal; [lia|]. replace bb with 1%Z by lia. reflexivity.
Qed.

(** Rounding reads the number, not the fraction that denotes it. *)
Lemma round_comp q q' : (q == q')%Q -> round q = round q'.
Proof. intros H. unfold round. now rewrite (Qred_complete q q'). Qed.

Lemma round_even_comp q q' : (q == q')%Q -> round_even q = round_even q'.
Proof.
  intros H. unfold round_even. rewrite (Qfloor_comp q q' H).
  assert (Hc : (q - inject_Z (Qfloor q') ?= 1 # 2)%Q
               = (q' - inject_Z (Qfloor q') ?= 1 # 2)%Q).
  { apply Qcompare_comp; [now rewrite H | reflexivity]. }
  now rewrite Hc.
Qed.

Lemma round_even_Z z : round_even (inject_Z z) = z.
Proof.
  unfold round_even. rewrite Qfloor_Z.
  assert (Hc : (inject_Z z - inject_Z z ?= 1 # 2)%Q = (0 ?= 1 # 2)%Q)
    by (apply Qcompare_comp; [ring | reflexivity]).
  now rewrite Hc.
Qed.

Lemma floor_le_round_even q : (Qfloor q <= round_even q)%Z.
Proof.
  unfold round_even. destruct (_ ?= _)%Q; [destruct (Z.even _)|..]; lia.
Qed.

Lemma two_power e : (0 <= e)%Z -> (2 ^ e == inject_Z (2 ^ e))%Q.
Proof. intros H. now rewrite (Zpower_Qpower 2 e). Qed.

Lemma floor_log2_Z n : (0 < n)%Z -> floor_log2 (inject_Z n) = Z.log2 n.
Proof.
  intros Hn. unfold floor_log2. simpl. rewrite Z.sub_0_r.
  destruct (Z.log2_spec n Hn) as (Hlo & _).
  pose proof (Z.log2_nonneg n) as Hnn.
  replace (Qle_bool (2 ^ Z.log2 n) (inject_Z n)) with true; [reflexivity|].
  symmetry. apply Qle_bool_iff. rewrite two_power by assumption.
  now rewrite <- Zle_Qle.
Qed.

Lemma below_overflow n :
  (0 <= n < 2 ^ 53)%Z -> Qle_bool (2 ^ 1024) (inject_Z n) = false.
Proof.
  intros Hn. destruct (Qle_bool _ _) eqn:H; [|reflexivity].
  apply Qle_bool_iff in H. rewrite two_power in H by lia.
  rewrite <- Zle_Qle in H.
  assert (2 ^ 53 <= 2 ^ 1024)%Z by (apply Z.pow_le_mono_r; lia). lia.
Qed.

(** On the naturals below [2^53] rounding is exact. *)
Lemma round_pos_natural n :
  (0 < n < 2 ^ 53)%Z -> round_pos (inject_Z n) = Some (inject_Z n).
Proof.
  intros Hn. unfold round_pos. rewrite floor_log2_Z by lia.
  pose proof (Z.log2_nonneg n) as Hnn.
  assert (He : (Z.log2 n < 53)%Z) by (apply Z.log2_lt_pow2; lia).
  rewrite Z.max_l by lia.
  set (e := Z.log2 n) in *.
  assert (Hulp : (2 ^ (e - 52) == / inject_Z (2 ^ (52 - e)))%Q).
  { replace (e - 52)%Z with (- (52 - e))%Z by lia.
    rewrite Qpower_opp, two_power by lia. reflexivity. }
  assert (Hpos : (0 < inject_Z (2 ^ (52 - e)))%Q).
  { rewrite <- two_power by lia. now apply Qpower_0_lt. }
  assert (Hx : (inject_Z n / 2 ^ (e - 52)
                == inject_Z (n * 2 ^ (52 - e)))%Q).
  { rewrite Hulp, inject_Z_mult. field. lra. }
  rewrite (round_even_comp _ _ Hx), round_even_Z.
  assert (Hr : (inject_Z (n * 2 ^ (52 - e)) * 2 ^ (e - 52)
                == inject_Z n)%Q).
  { rewrite Hulp, inject_Z_mult. field. lra. }
  rewrite (Qred_complete _ _ Hr), Qred_inject_Z.
  now rewrite below_overflow by lia.
Qed.

Lemma round_natural n :
  (0 <= n <= 2 ^ 53)%Z -> round (inject_Z n) = Finite (inject_Z n).
Proof.
  intros Hn. destruct (Z.eq_dec n 0%Z) as [->|Hz]; [reflexivity|].
  destruct (Z.eq_dec n (2 ^ 53)%Z) as [->|Hm]; [vm_compute; reflexivity|].
  unfold round. cbv zeta. rewrite Qred_inject_Z.
  replace (inject_Z n ?= 0)%Q with Gt.
  - now rewrite round_pos_natural by lia.
  - symmetry. apply Qgt_alt. replace 0%Q with (inject_Z 0) by reflexivity.
    rewrite <- Zlt_Qlt. lia.
Qed.

Lemma round_integer n :
  (Z.abs n <= 2 ^ 53)%Z -> round (inject_Z n) = Finite (inject_Z n).
Proof.
  intros Hn. destruct (Z.le_gt_cases 0%Z n); [apply round_natural; lia|].
  destruct (Z.eq_dec n (- 2 ^ 53)%Z) as [->|Hm]; [vm_compute; reflexivity|].
  unfold round. cbv zeta. rewrite Qred_inject_Z.
  replace (inject_Z n ?= 0)%Q with Lt.
  - replace (- inject_Z n)%Q with (inject_Z (- n)) by reflexivity.
    rewrite round_pos_natural by lia.
    unfold inject_Z, Qopp. simpl. now rewrite Z.opp_involutive.
  - symmetry. apply (proj1 (Qlt_alt _ _)). unfold Qlt. simpl. lia.
Qed.

(** From [2^53] on the rounded number is at least [2^53]. *)
Lemma round_large z :
  (2 ^ 53 <= z)%Z ->
  match round (inject_Z z) with
  | Finite r => (inject_Z (2 ^ 53) <= r)%Q
  | Overflow negative => negative = false
  end.
Proof.
  intros Hz. unfold round. cbv zeta. rewrite Qred_inject_Z.
  assert (Hpos : (0 < z)%Z) by (assert (0 < 2 ^ 53)%Z by reflexivity; lia).
  replace (inject_Z z ?= 0)%Q with Gt.
  2:{ symmetry. apply Qgt_alt. replace 0%Q with (inject_Z 0) by reflexivity.
      rewrite <- Zlt_Qlt. lia. }
  unfold round_pos. rewrite floor_log2_Z by lia.
  assert (He : (53 <= Z.log2 z)%Z).
  { change 53%Z with (Z.log2 (2 ^ 53)). now apply Z.log2_le_mono. }
  rewrite Z.max_l by lia. set (e := Z.log2 z) in *.
  destruct (Qle_bool _ _); [reflexivity|].
  rewrite Qred_correct.
  destruct (Z.log2_spec z Hpos) as (Hlo & _). fold e in Hlo.
  assert (Hulp : (2 ^ (e - 52) == inject_Z (2 ^ (e - 52)))%Q)
    by (apply two_power; lia).
  assert (Hu : (0 < 2 ^ (e - 52))%Z) by (apply Z.pow_pos_nonneg; lia).
  assert (Hsplit : (2 ^ e = 2 ^ 52 * 2 ^ (e - 52))%Z).
  { rewrite <- Z.pow_add_r by lia. f_equal. lia. }
  assert (Hx : (inject_Z (2 ^ 52) <= inject_Z z / 2 ^ (e - 52))%Q).
  { rewrite Hulp. apply Qle_shift_div_l.
    - unfold Qlt. simpl. lia.
    - rewrite <- inject_Z_mult, <- Zle_Qle. lia. }
  apply Qfloor_resp_le in Hx. rewrite Qfloor_Z in Hx.
  pose proof (floor_le_round_even (inject_Z z / 2 ^ (e - 52))) as Hre.
  set (m := round_even _) in *. set (f := Qfloor _) in *.
  rewrite Hulp, <- inject_Z_mult, <- Zle_Qle.
  assert (2 ^ 53 <= 2 ^ e)%Z by (apply Z.pow_le_mono_r; lia).
  nia.
Qed.

End Binary64Facts.

(* ===================================================================== *)
(** * Facts about JavaScript numbers: the integers below 2^53 *)
(* ===================================================================== *)

Module JSNumberFacts.

Import Binary64 Binary64Facts JSFacts.

Lemma ten_power e : (0 <= e)%Z -> (10 ^ e == inject_Z (10 ^ e))%Q.
Proof. intros H. now rewrite (Zpower_Qpower 10 e). Qed.

(** ** The decimal exponent *)

Lemma first_above_spec q : forall fuel k,
  (10 ^ (k - 1) <= q)%Q -> (q < 10 ^ (k + Z.of_nat fuel))%Q ->
  (10 ^ (first_above q k fuel - 1) <= q)%Q /\
  (q < 10 ^ first_above q k fuel)%Q.
Proof.
  induction fuel as [|fuel IH]; intros k Hlo Hhi.
  - simpl in *. rewrite Z.add_0_r in Hhi. split; assumption.
  - simpl. destruct (Qle_bool (10 ^ k) q) eqn:Hk.
    + apply Qle_bool_iff in Hk. apply IH.
      * now replace (k + 1 - 1)%Z with k by lia.
      * now replace (k + 1 + Z.of_nat fuel)%Z
          with (k + Z.of_nat (S fuel))%Z by lia.
    + split; [assumption|]. apply Qnot_le_lt. intros H.
      apply Qle_bool_iff in H. congruence.
Qed.

Lemma decimal_exponent_natural m :
  (1 <= m < 2 ^ 53)%Z ->
  let n := decimal_exponent (inject_Z m) in
  (1 <= n <= 16)%Z /\ (10 ^ (n - 1) <= m < 10 ^ n)%Z.
Proof.
  intros Hm n.
  assert (Hone : (1 <= inject_Z m)%Q).
  { replace 1%Q with (inject_Z 1) by reflexivity. rewrite <- Zle_Qle. lia. }
  assert (Hbig : (inject_Z m < 10 ^ 16)%Q).
  { rewrite ten_power by lia. rewrite <- Zlt_Qlt.
    assert (2 ^ 53 < 10 ^ 16)%Z by reflexivity. lia. }
  destruct (first_above_spec (inject_Z m) 640 (-330)) as (Hlo & Hhi).
  - apply Qle_trans with (10 ^ 0)%Q; [|exact Hone].
    apply Qpower_le_compat_l; [lia | discriminate].
  - apply Qlt_le_trans with (10 ^ 16)%Q; [exact Hbig|].
    apply Qpower_le_compat_l; [simpl; lia | discriminate].
  - fold (decimal_exponent (inject_Z m)) in Hlo, Hhi. fold n in Hlo, Hhi.
    assert (Hn1 : (1 <= n)%Z).
    { destruct (Z.le_gt_cases 1 n) as [|Hn]; [assumption|]. exfalso.
      apply (Qlt_irrefl (inject_Z m)).
      apply Qlt_le_trans with (10 ^ n)%Q; [exact Hhi|].
      apply Qle_trans with (10 ^ 0)%Q; [|exact Hone].
      apply Qpower_le_compat_l; [lia | discriminate]. }
    assert (Hn16 : (n <= 16)%Z).
    { destruct (Z.le_gt_cases n 16) as [|Hn]; [assumption|]. exfalso.
      apply (Qlt_irrefl (inject_Z m)).
      apply Qlt_le_trans with (10 ^ 16)%Q; [exact Hbig|].
      apply Qle_trans with (10 ^ (n - 1))%Q; [|exact Hlo].
      apply Qpower_le_compat_l; [lia | discriminate]. }
    split; [lia|].
    rewrite ten_power in Hlo, Hhi by lia.
    rewrite <- Zle_Qle in Hlo. rewrite <- Zlt_Qlt in Hhi. lia.
Qed.

(** ** The shortest digits of a natural number *)

(** An integer that converts to [m] is [m]. *)
Lemma converts_natural m s scale v :
  (1 <= m < 2 ^ 53)%Z -> (0 <= v)%Z ->
  (inject_Z s * scale == inject_Z v)%Q ->
  converts_to (inject_Z m) scale s = true -> v = m.
Proof.
  intros Hm Hv Hval. unfold converts_to. rewrite (round_comp _ _ Hval).
  destruct (Z.le_gt_cases v (2 ^ 53)) as [Hle|Hgt].
  - rewrite round_natural by lia. intros H.
    apply Qeq_bool_iff in H. now apply inject_Z_injective.
  - pose proof (round_large v ltac:(lia)) as Hr.
    destruct (round (inject_Z v)) as [r|]; [|discriminate].
    intros H. apply Qeq_bool_iff in H. rewrite H in Hr.
    rewrite <- Zle_Qle in Hr. lia.
Qed.

Lemma converts_itself m :
  (1 <= m < 2 ^ 53)%Z -> converts_to (inject_Z m) (10 ^ 0) m = true.
Proof.
  intros Hm. unfold converts_to.
  rewrite (round_comp _ (inject_Z m)) by (simpl; ring).
  rewrite round_natural by lia. apply Qeq_bool_iff. reflexivity.
Qed.

Lemma nearest_digits_Some q scale s :
  nearest_digits q scale = Some s ->
  (s = Qfloor (q / scale) \/ s = (Qfloor (q / scale) + 1)%Z) /\
  converts_to q scale s = true.
Proof.
  unfold nearest_digits.
  destruct (converts_to q scale (Qfloor (q / scale))) eqn:Hlo;
    destruct (converts_to q scale (Qfloor (q / scale) + 1)) eqn:Hhi;
    try discriminate.
  - destruct (_ ?= _)%Q; [destruct (Z.even _)|..];
      intros [= <-]; auto.
  - intros [= <-]; auto.
  - intros [= <-]; auto.
Qed.

Lemma nearest_digits_None q scale :
  nearest_digits q scale = None ->
  converts_to q scale (Qfloor (q / scale)) = false.
Proof.
  unfold nearest_digits.
  destruct (converts_to q scale (Qfloor (q / scale)));
    [|reflexivity].
  destruct (converts_to q scale (Qfloor (q / scale) + 1));
    [destruct (_ ?= _)%Q|]; discriminate.
Qed.

Lemma shortest_natural m n :
  (1 <= m < 2 ^ 53)%Z -> (1 <= n)%Z ->
  forall fuel k,
    (1 <= k <= n)%Z -> (n - k < Z.of_nat fuel)%Z ->
    exists s k',
      shortest (inject_Z m) n k fuel = (s, k') /\
      (k <= k' <= n)%Z /\ (s * 10 ^ (n - k') = m)%Z.
Proof.
  intros Hm Hn. induction fuel as [|fuel IH]; intros k Hk Hfuel; [lia|].
  cbn [shortest].
  assert (Hscale : (10 ^ (n - k) == inject_Z (10 ^ (n - k)))%Q)
    by (apply ten_power; lia).
  assert (Hpos : (0 < 10 ^ (n - k))%Z) by (apply Z.pow_pos_nonneg; lia).
  destruct (nearest_digits (inject_Z m) (10 ^ (n - k))) as [s|] eqn:Hnd.
  - exists s, k. split; [reflexivity|]. split; [lia|].
    apply nearest_digits_Some in Hnd as (Hs & Hconv).
    assert (Hfloor : (0 <= Qfloor (inject_Z m / 10 ^ (n - k)))%Z).
    { change 0%Z with (Qfloor 0). apply Qfloor_resp_le.
      apply Qle_shift_div_l; [now apply Qpower_0_lt|].
      rewrite Qmult_0_l. unfold Qle. simpl. lia. }
    apply (converts_natural m s (10 ^ (n - k))); [assumption | | | assumption].
    + destruct Hs as [-> | ->]; nia.
    + now rewrite Hscale, inject_Z_mult.
  - destruct (Z.eq_dec k n) as [->|Hne].
    + exfalso. apply nearest_digits_None in Hnd.
      rewrite Z.sub_diag in Hnd.
      assert (Hq : (inject_Z m / 10 ^ 0 == inject_Z m)%Q)
        by (simpl; field).
      rewrite (Qfloor_comp _ _ Hq), Qfloor_Z in Hnd.
      now rewrite converts_itself in Hnd.
    + destruct (IH (k + 1)%Z) as (s & k' & Hsh & Hk' & Hval); [lia | lia |].
      exists s, k'. split; [exact Hsh|]. split; [lia | exact Hval].
Qed.

(** ** Rendering and reading the naturals below [2^53] *)

Lemma String_of_positive_natural m :
  (1 <= m < 2 ^ 53)%Z ->
  String_of_positive (inject_Z m) = String_of_N (Z.to_N m).
Proof.
  intros Hm. unfold String_of_positive.
  destruct (decimal_exponent_natural m Hm) as (Hn & Hdec).
  set (n := decimal_exponent (inject_Z m)) in *.
  destruct (shortest_natural m n Hm ltac:(lia) 17 1%Z)
    as (s & k & -> & Hk & Hval); [lia | simpl; lia |].
  assert (Hs : (s =? 10 ^ k)%Z = false).
  { apply Z.eqb_neq. intros ->.
    rewrite <- Z.pow_add_r in Hval by lia.
    replace (k + (n - k))%Z with n in Hval by lia. lia. }
  rewrite Hs.
  replace ((k <=? n)%Z && (n <=? 21)%Z) with true.
  - now rewrite Hval.
  - symmetry. apply andb_true_iff. split; apply Z.leb_le; lia.
Qed.

Lemma String_of_num_natural m :
  (0 <= m < 2 ^ 53)%Z ->
  String_of_num (Num (inject_Z m)) = String_of_N (Z.to_N m).
Proof.
  intros Hm. destruct (Z.eq_dec m 0%Z) as [->|Hz]; [reflexivity|].
  unfold String_of_num.
  replace (inject_Z m ?= 0)%Q with Gt.
  - apply String_of_positive_natural. lia.
  - symmetry. apply (proj1 (Qgt_alt _ _)). unfold Qlt. simpl. lia.
Qed.

Lemma uint_units_digits d : Forall (fun c => is_digit c = true) (uint_units d).
Proof.
  induction d; simpl; constructor; try reflexivity; assumption.
Qed.

Lemma String_of_N_digits x :
  String_of_N x <> [] /\
  Forall (fun c => is_digit c = true) (String_of_N x).
Proof.
  split; [|apply uint_units_digits].
  unfold String_of_N.
  assert (H : N.to_uint x <> Decimal.Nil).
  { destruct x; [discriminate|]. apply DecimalPos.Unsigned.to_uint_nonnil. }
  destruct (N.to_uint x); [congruence|..]; discriminate.
Qed.

Lemma digit_bounds c : is_digit c = true -> (48 <= c <= 57)%N.
Proof.
  unfold is_digit. intros H. apply andb_true_iff in H as (H1 & H2).
  apply N.leb_le in H1, H2. lia.
Qed.

Lemma digit_not_white c : is_digit c = true -> is_white c = false.
Proof.
  intros H. apply digit_bounds in H. unfold is_white.
  repeat match goal with
         | |- context [(c =? ?k)%N] => destruct (N.eqb_spec c k); [lia|]
         end.
  destruct (N.leb_spec 8192 c); [lia | reflexivity].
Qed.

Lemma trimStart_digits s :
  Forall (fun c => is_digit c = true) s -> trimStart s = s.
Proof.
  intros [|c rest Hc _]; [reflexivity|].
  simpl. now rewrite digit_not_white.
Qed.

Lemma trim_digits s : Forall (fun c => is_digit c = true) s -> trim s = s.
Proof.
  intros H. unfold trim. rewrite (trimStart_digits s H).
  rewrite trimStart_digits by now apply Forall_rev.
  apply rev_involutive.
Qed.

Lemma span_digits_all s :
  Forall (fun c => is_digit c = true) s -> span_digits s = (s, []).
Proof.
  induction 1 as [|c rest Hc _ IH]; [reflexivity|].
  simpl. now rewrite Hc, IH.
Qed.

Lemma non_decimal_digits s :
  Forall (fun c => is_digit c = true) s -> non_decimal s = None.
Proof.
  intros H. destruct s as [|zero [|c digits]]; try reflexivity.
  apply Forall_cons in H as (_ & H). apply Forall_cons in H as (Hc & _).
  apply digit_bounds in Hc. unfold non_decimal.
  repeat match goal with
         | |- context [(c =? ?k)%N] => destruct (N.eqb_spec c k); [lia|]
         end.
  reflexivity.
Qed.

(** Reading the decimal of a natural below [2^53] gives it back. *)
Lemma Number_String_of_N x :
  (Z.of_N x < 2 ^ 53)%Z ->
  Number (String_of_N x) = Num (inject_Z (Z.of_N x)).
Proof.
  intros Hx. destruct (String_of_N_digits x) as (Hne & Hall).
  unfold Number. rewrite (trim_digits _ Hall). cbv zeta.
  rewrite (non_decimal_digits _ Hall).
  destruct (String_of_N x) as [|c rest] eqn:Hs; [congruence|].
  pose proof Hall as Hc. apply Forall_cons in Hc as (Hc & _).
  apply digit_bounds in Hc.
  unfold signed.
  destruct (N.eqb_spec c 45); [lia|]. destruct (N.eqb_spec c 43); [lia|].
  rewrite bool_decide_eq_false_2.
  2:{ intros H. apply (f_equal head) in H. vm_compute in H.
      injection H as ->. lia. }
  unfold unsigned_decimal. rewrite (span_digits_all _ Hall).
  cbn [exponent_part]. unfold decimal_value, number_for.
  rewrite <- Hs, units_uint_String_of_N, DecimalN.Unsigned.of_to.
  rewrite (round_comp _ (inject_Z (Z.of_N x))) by (simpl; ring).
  now rewrite round_natural by lia.
Qed.

(** ** [Math.max] over integers *)

Lemma max2_integers a n :
  max2 (Num (inject_Z a)) (Num (inject_Z n)) = Num (inject_Z (Z.max a n)).
Proof.
  unfold max2. destruct (Qle_bool _ _) eqn:H.
  - apply Qle_bool_iff in H. rewrite <- Zle_Qle in H.
    now rewrite Z.max_r.
  - rewrite Z.max_l; [reflexivity|].
    destruct (Z.le_gt_cases n a); [assumption|].
    assert (Qle_bool (inject_Z a) (inject_Z n) = true); [|congruence].
    apply Qle_bool_iff. rewrite <- Zle_Qle. lia.
Qed.

Lemma fold_max2_integers bound xs : forall a,
  (a < bound)%Z ->
  Forall (integer_below bound) xs ->
  exists M,
    fold_left max2 xs (Num (inject_Z a)) = Num (inject_Z M) /\
    (a <= M < bound)%Z /\
    forall n, Num (inject_Z n) ∈ xs -> (n <= M)%Z.
Proof.
  induction xs as [|x xs IH]; intros a Ha Hxs.
  - exists a. split; [reflexivity|]. split; [lia|].
    intros n Hn. inversion Hn.
  - apply Forall_cons in Hxs as ((n & -> & Hn) & Hxs).
    cbn [fold_left]. rewrite max2_integers.
    destruct (IH (Z.max a n)) as (M & HM & Hle & Hall); [lia | assumption |].
    exists M. split; [exact HM|]. split; [lia|].
    intros k Hk. apply elem_of_cons in Hk as [Hk|Hk].
    + injection Hk as ->. lia.
    + now apply Hall.
Qed.

Lemma Math_max0_integers bound xs :
  (0 < bound)%Z ->
  Forall (integer_below bound) xs ->
  exists M,
    Math_max0 xs = Num (inject_Z M) /\ (0 <= M < bound)%Z /\
    forall n, Num (inject_Z n) ∈ xs -> (n <= M)%Z.
Proof. intros Hb. now apply (fold_max2_integers bound xs 0%Z). Qed.

Lemma plus1_natural M :
  (0 <= M < 2 ^ 53)%Z ->
  plus1 (Num (inject_Z M)) = Num (inject_Z (M + 1)).
Proof.
  intros HM. unfold plus1, number_for.
  rewrite (round_comp _ (inject_Z (M + 1)))
    by (rewrite inject_Z_plus; reflexivity).
  now rewrite round_natural by lia.
Qed.

(** A NaN among the numbers makes the maximum NaN. *)
Lemma fold_max2_NaN xs : fold_left max2 xs NaN = NaN.
Proof. induction xs as [|x xs IH]; [reflexivity|]. simpl. exact IH. Qed.

Lemma Math_max0_NaN xs : NaN ∈ xs -> Math_max0 xs = NaN.
Proof.
  unfold Math_max0. generalize (Num 0).
  induction xs as [|x xs IH]; intros a H; [inversion H|].
  apply elem_of_cons in H as [<-|H]; simpl.
  - replace (max2 a NaN) with NaN by (destruct a as [|[|]|]; reflexivity).
    apply fold_max2_NaN.
  - now apply IH.
Qed.

End JSNumberFacts.

(* ===================================================================== *)
(** * The outline editor: removing, adding and moving slides *)
(* ===================================================================== *)

Module PlanEditorFacts.

Import PlanEditorPage Samples.

Lemma id_is_true id s : id_is id s = true <-> slide_id s = Some id.
Proof.
  unfold id_is. destruct (slide_id s) as [i|].
  - rewrite bool_decide_eq_true. split; congruence.
  - split; discriminate.
Qed.

Lemma id_is_false id s : negb (id_is id s) = true <-> slide_id s <> Some id.
Proof.
  rewrite negb_true_iff, <- not_true_iff_false, id_is_true. reflexivity.
Qed.

(** The boolean filter of the page is the filter by "another id". *)
Lemma filter_other_ids id (l : list Slide) :
  List.filter (fun s => negb (id_is id s)) l
  = filter (fun s => slide_id s <> Some id) l.
Proof.
  induction l as [|s l IH]; [reflexivity|].
  simpl. rewrite filter_cons.
  destruct (negb (id_is id s)) eqn:E.
  - apply id_is_false in E. rewrite decide_True by assumption.
    now rewrite IH.
  - rewrite decide_False; [assumption|].
    intros H. apply id_is_false in H. congruence.
Qed.

Lemma removeSlide_short id p :
  length (slides p) <= 1 -> removeSlide id p = p.
Proof.
  intros H. unfold removeSlide.
  destruct (Nat.leb_spec (length (slides p)) 1); [reflexivity | lia].
Qed.

Lemma removeSlide_long id p :
  1 < length (slides p) ->
  slides (removeSlide id p) = filter (fun s => slide_id s <> Some id) (slides p).
Proof.
  intros H. unfold removeSlide.
  destruct (Nat.leb_spec (length (slides p)) 1); [lia|].
  simpl. apply filter_other_ids.
Qed.

Lemma filter_all (l : list Slide) id :
  (forall s, s ∈ l -> slide_id s <> Some id) ->
  filter (fun s => slide_id s <> Some id) l = l.
Proof.
  induction l as [|s l IH]; intros H; [reflexivity|].
  rewrite filter_cons, decide_True.
  - f_equal. apply IH. intros s' Hs'. apply H. now right.
  - apply H. left.
Qed.

(** Of two slides with the same id, removing that id leaves none. *)
Lemma removeSlide_twins_empties_outline :
  1 <= length (slides twins) /\
  slides (removeSlide (lit "a") twins) = [].
Proof. split; [simpl; lia | reflexivity]. Qed.

Lemma removeSlide_keeps_other id p s :
  s ∈ slides p -> slide_id s <> Some id ->
  1 <= length (slides (removeSlide id p)).
Proof.
  intros Hin Hid.
  destruct (Nat.le_gt_cases (length (slides p)) 1) as [Hle|Hgt].
  - rewrite removeSlide_short by assumption.
    destruct (slides p); [inversion Hin | simpl; lia].
  - rewrite removeSlide_long by assumption.
    assert (Hs : s ∈ filter (fun s => slide_id s <> Some id) (slides p)).
    { apply list_elem_of_filter. tauto. }
    destruct (filter _ (slides p)); [inversion Hs | simpl; lia].
Qed.

Lemma removeSlide_distinct_ids id p :
  NoDup (map slide_id (slides p)) -> 1 <= length (slides p) ->
  1 <= length (slides (removeSlide id p)).
Proof.
  intros Hnd Hlen.
  destruct (slides p) as [|a [|b l]] eqn:Hsl.
  - simpl in Hlen. lia.
  - rewrite removeSlide_short; rewrite Hsl; simpl; lia.
  - assert (Hab : slide_id a <> slide_id b).
    { simpl in Hnd. apply NoDup_cons in Hnd as (Hnotin & _).
      intros Heq. apply Hnotin. rewrite Heq. left. }
    destruct (decide (slide_id a = Some id)) as [Ha|Ha].
    + apply (removeSlide_keeps_other id p b).
      * rewrite Hsl. right. left.
      * congruence.
    + apply (removeSlide_keeps_other id p a); [|assumption].
      rewrite Hsl. left.
Qed.

(** What [removeSlide] does: it leaves an outline of at most one slide as it
    is; on a longer one it keeps, in order, exactly the slides whose id is
    not the given one, and title and theme stay; an id no slide has leaves
    the outline as it is; and the outline keeps a slide whenever one of its
    slides has another id, in particular when it is not empty and the ids
    of its slides are pairwise distinct. *)
Theorem removeSlide_spec id p :
  (length (slides p) <= 1 -> removeSlide id p = p) /\
  (1 < length (slides p) ->
     slides (removeSlide id p)
       = filter (fun s => slide_id s <> Some id) (slides p) /\
     (forall s, s ∈ slides (removeSlide id p)
                <-> s ∈ slides p /\ slide_id s <> Some id) /\
     slides (removeSlide id p) `sublist_of` slides p /\
     pres_title (removeSlide id p) = pres_title p /\
     theme (removeSlide id p) = theme p) /\
  ((forall s, s ∈ slides p -> slide_id s <> Some id) ->
     removeSlide id p = p) /\
  (forall s, s ∈ slides p -> slide_id s <> Some id ->
     1 <= length (slides (removeSlide id p))) /\
  (NoDup (map slide_id (slides p)) -> 1 <= length (slides p) ->
     1 <= length (slides (removeSlide id p))).
Proof.
  split; [apply removeSlide_short|].
  split.
  { intros Hlen. pose proof (removeSlide_long id p Hlen) as Heq.
    split; [exact Heq|]. rewrite Heq.
    split; [intros s; rewrite list_elem_of_filter; tauto|].
    split; [apply sublist_filter|].
    unfold removeSlide.
    destruct (Nat.leb_spec (length (slides p)) 1); [lia|]. now simpl. }
  split.
  { intros Hall.
    destruct (Nat.le_gt_cases (length (slides p)) 1) as [Hle|Hgt].
    - now apply removeSlide_short.
    - unfold removeSlide.
      destruct (Nat.leb_spec (length (slides p)) 1); [lia|].
      rewrite filter_other_ids, filter_all by assumption.
      now destruct p. }
  split; [apply removeSlide_keeps_other | apply removeSlide_distinct_ids].
Qed.

Lemma removeSlide_spec_witness :
  slides (removeSlide (lit "s2") trio)
    = [plain_slide "s1" "One"; plain_slide "s3" "Three"] /\
  1 <= length (slides (removeSlide (lit "s2") trio)) /\
  removeSlide (lit "zz") trio = trio /\
  removeSlide (lit "a") PlanEditorPage.INITIAL_PRESENTATION
    = PlanEditorPage.INITIAL_PRESENTATION.
Proof.
  destruct (removeSlide_spec (lit "s2") trio) as (_ & Hlong & _ & Hkeep & _).
  destruct (removeSlide_spec (lit "zz") trio) as (_ & _ & Hnone & _).
  destruct (removeSlide_spec (lit "a") PlanEditorPage.INITIAL_PRESENTATION)
    as (Hshort & _).
  split.
  { destruct Hlong as (Heq & _); [simpl; lia|]. rewrite Heq. reflexivity. }
  split.
  { apply (Hkeep (plain_slide "s1" "One")); [left | discriminate]. }
  split.
  { apply Hnone. intros s Hs.
    repeat (apply elem_of_cons in Hs as [->|Hs]; [discriminate|]).
    inversion Hs. }
  apply Hshort. simpl. lia.
Defined.

Lemma id_differs_Some id s : id_differs (Some id) s = negb (id_is id s).
Proof.
  unfold id_differs, id_is. f_equal.
  destruct (slide_id s) as [i|].
  - apply bool_decide_ext. split; congruence.
  - reflexivity.
Qed.

(** On a string argument the run-time body is [removeSlide]. *)
Lemma removeSlide_at_Some id p : removeSlide_at (Some id) p = removeSlide id p.
Proof.
  unfold removeSlide_at, removeSlide.
  destruct (length (slides p) <=? 1); [reflexivity|].
  f_equal. induction (slides p) as [|s l IH]; [reflexivity|].
  simpl. rewrite id_differs_Some, IH. reflexivity.
Qed.

Lemma filter_shared_id id (l : list Slide) :
  Forall (fun s => slide_id s = id) l -> List.filter (id_differs id) l = [].
Proof.
  induction 1 as [|s l Hs _ IH]; [reflexivity|].
  simpl. unfold id_differs at 1.
  rewrite bool_decide_eq_true_2 by assumption. exact IH.
Qed.

(** C9, on the code: the guard of [removeSlide] counts the slides before
    the removal, and the filter drops every slide that carries the id.  On
    an outline of two or more slides that all carry the id of the card
    (the same string, or none), one click on the card's remove button
    leaves no slide at all, although the guard and its alert ("a
    presentation needs at least one page") are there to keep one. *)
Theorem onRemove_empties_shared_ids slide p :
  2 <= length (slides p) ->
  Forall (fun s => slide_id s = slide_id slide) (slides p) ->
  slides (onRemove slide p) = [] /\
  (forall id, slide_id slide = Some id -> slides (removeSlide id p) = []).
Proof.
  intros Hlen Hall.
  assert (Hempty : slides (onRemove slide p) = []).
  { unfold onRemove, removeSlide_at.
    destruct (Nat.leb_spec (length (slides p)) 1); [lia|].
    simpl. now apply filter_shared_id. }
  split; [exact Hempty|].
  intros id Hid. rewrite <- removeSlide_at_Some, <- Hid. exact Hempty.
Qed.

Lemma onRemove_empties_shared_ids_witness :
  slides (removeSlide (lit "a") twins) = [] /\
  slides (onRemove (plain_slide "a" "First") twins) = [] /\
  slides (onRemove bare_slide unnamed_pair) = [].
Proof.
  destruct (onRemove_empties_shared_ids (plain_slide "a" "First") twins)
    as [Hcard Hid].
  { simpl. lia. }
  { repeat constructor. }
  destruct (onRemove_empties_shared_ids bare_slide unnamed_pair)
    as [Hbare _].
  { simpl. lia. }
  { repeat constructor. }
  split; [now apply Hid|]. split; assumption.
Defined.

End PlanEditorFacts.

(* ===================================================================== *)
(** * Slide ids under reordering and adding *)
(* ===================================================================== *)

Module SlideIdFacts.

Import PlanEditorPage GenerationPage Samples JSFacts JSNumberFacts.

(** Exchanging two neighbours of a list permutes it. *)
Lemma swap_down {A} (l : list A) : forall i a b,
  l !! i = Some a -> l !! S i = Some b ->
  <[S i := a]> (<[i := b]> l) ≡ₚ l.
Proof.
  induction l as [|x l IH]; intros i a b Ha Hb; [discriminate|].
  destruct i as [|i].
  - destruct l as [|y l]; [discriminate|].
    simpl in *. injection Ha as ->. injection Hb as ->. apply perm_swap.
  - simpl in *. apply perm_skip. now apply IH.
Qed.

Lemma swap_up {A} (l : list A) t a b :
  l !! S t = Some a -> l !! t = Some b ->
  <[t := a]> (<[S t := b]> l) ≡ₚ l.
Proof.
  intros Ha Hb. rewrite list_insert_insert_ne by lia.
  now apply swap_down.
Qed.

Lemma moveSlide_Some index direction p p' :
  moveSlide index direction p = Some p' ->
  slides p' ≡ₚ slides p /\
  pres_title p' = pres_title p /\ theme p' = theme p.
Proof.
  unfold moveSlide.
  destruct (_ && _)%bool eqn:Htarget.
  2:{ intros [= <-]. auto. }
  destruct (0 <=? index)%Z eqn:Hindex; [|discriminate].
  apply andb_true_iff in Htarget as [Hlo Hhi].
  apply Z.leb_le in Hlo, Hindex. apply Z.ltb_lt in Hhi.
  destruct (slides p !! Z.to_nat index) as [a|] eqn:Ha; [|discriminate].
  destruct direction.
  - replace (Z.to_nat index) with (S (Z.to_nat (index - 1))) in * by lia.
    destruct (slides p !! Z.to_nat (index - 1)) as [b|] eqn:Hb;
      [|discriminate].
    intros [= <-]. simpl. split; [|auto]. now apply swap_up.
  - replace (Z.to_nat (index + 1)) with (S (Z.to_nat index)) in * by lia.
    destruct (slides p !! S (Z.to_nat index)) as [b|] eqn:Hb; [|discriminate].
    intros [= <-]. simpl. split; [|auto]. now apply swap_down.
Qed.

(** A card moves: its index is inside the list, and the page offers "up"
    from the second card on and "down" up to the last but one. *)
Lemma moveSlide_card index direction p :
  (0 <= index < Z.of_nat (length (slides p)))%Z ->
  is_Some (moveSlide index direction p).
Proof.
  intros Hin. unfold moveSlide.
  destruct (_ && _)%bool eqn:Htarget; [|eauto].
  apply andb_true_iff in Htarget as [Hlo Hhi].
  apply Z.leb_le in Hlo. apply Z.ltb_lt in Hhi.
  destruct (Z.leb_spec 0 index); [|lia].
  destruct (lookup_lt_is_Some_2 (slides p) (Z.to_nat index)) as [a ->];
    [lia|].
  set (t := match direction with up => _ | down => _ end) in *.
  destruct (lookup_lt_is_Some_2 (slides p) (Z.to_nat t)) as [b ->]; [lia|].
  eauto.
Qed.

(** When every id converts to an integer below [2^53 - 1], the next id of
    the monitor is the decimal of the largest of them (or of 0) plus one,
    and no slide of the list has it. *)
Lemma nextId_fresh (l : list SlideGenerationStatus) :
  Forall (fun s => integer_below (2 ^ 53 - 1) (Number (g_id s))) l ->
  nextId l ∉ map g_id l.
Proof.
  intros Hall Hin.
  assert (Hxs : Forall (integer_below (2 ^ 53 - 1))
                       (map (fun s => Number (g_id s)) l)).
  { apply Forall_map. exact Hall. }
  destruct (Math_max0_integers (2 ^ 53 - 1) _ ltac:(reflexivity) Hxs)
    as (M & HM & HMb & Hmax).
  unfold nextId in Hin.
  rewrite HM, plus1_natural, String_of_num_natural in Hin by lia.
  apply list_elem_of_fmap in Hin as (s & Hs & Hsl).
  rewrite Forall_forall in Hall.
  destruct (Hall s Hsl) as (n & Hn & _).
  assert (Hle : (n <= M)%Z).
  { apply Hmax. rewrite <- Hn.
    apply (list_elem_of_fmap_2 (fun s => Number (g_id s))). exact Hsl. }
  rewrite <- Hs, Number_String_of_N in Hn by lia.
  injection Hn as Hn. lia.
Qed.

(** C7, the claim as stated fails: in the monitor, with slides 1, 2 and 3,
    deleting slide 3 and then adding a slide gives the new slide the id 3,
    which a slide of the list has had before. *)
Lemma handleAddSlide_reuses_deleted_id :
  let before := numbered in
  let after_delete := handleDelete (lit "3") before in
  exists added,
    handleAddSlide after_delete = after_delete ++ [added] /\
    g_id added = lit "3" /\
    g_id added ∈ map g_id before /\
    g_id added ∉ map g_id after_delete.
Proof.
  eexists. split; [vm_compute; reflexivity|]. split; [reflexivity|].
  split; [|intros H]; simpl.
  - do 2 right. left.
  - repeat (apply elem_of_cons in H as [H|H]; [discriminate|]).
    inversion H.
Qed.

(** With the default ids [slide_1], [slide_2], ... [Number] gives NaN: the
    added slide is named "NaN", and so is the next one. *)
Example handleAddSlide_default_ids :
  map g_id (handleAddSlide (handleAddSlide defaulted))
  = [lit "slide_1"; lit "slide_2"; lit "NaN"; lit "NaN"].
Proof. vm_compute. reflexivity. Qed.

(** Whenever some id does not convert to a number, the new id is "NaN". *)
Lemma nextId_NaN l s :
  s ∈ l -> Number (g_id s) = NaN -> nextId l = lit "NaN".
Proof.
  intros Hs Hnan. unfold nextId. rewrite Math_max0_NaN; [reflexivity|].
  rewrite <- Hnan.
  apply (list_elem_of_fmap_2 (fun s => Number (g_id s))). exact Hs.
Qed.

(** From [2^53] on, adding 1 is lost in rounding, and infinity plus one is
    infinity: the new slide gets the id of the slide that is there. *)
Example handleAddSlide_repeats_large_ids :
  map g_id (handleAddSlide [monitor_slide "9007199254740992" "done"])
  = [lit "9007199254740992"; lit "9007199254740992"] /\
  map g_id (handleAddSlide [monitor_slide "Infinity" "done"])
  = [lit "Infinity"; lit "Infinity"] /\
  map g_id (handleAddSlide [monitor_slide "9007199254740991" "done"])
  = [lit "9007199254740991"; lit "9007199254740992"].
Proof. vm_compute. repeat split. Qed.

(** Ids need not be written as plain decimals to be numbers. *)
Example handleAddSlide_reads_literals :
  map g_id (handleAddSlide
              [monitor_slide " 7 " "done"; monitor_slide "0x1F" "done";
               monitor_slide "1e2" "done"; monitor_slide "-5" "done";
               monitor_slide "2.5" "done"])
  = [lit " 7 "; lit "0x1F"; lit "1e2"; lit "-5"; lit "2.5"; lit "101"].
Proof. vm_compute. reflexivity. Qed.

(** C7, amended: moving a slide permutes the slides of the outline, each
    with the id it had, and every card can move; adding a slide leaves the
    slides already there as they are and appends one slide; the outline
    editor names the new slide after the clock, so that slides added at
    different clock readings differ in id; the monitor names it
    [String(Math.max(0, ...ids as Numbers) + 1)], an id that no slide of
    the current list has when every id converts to an integer below
    [2^53 - 1]. *)
Theorem slide_ids_on_move_and_add :
  (forall index direction p p',
     moveSlide index direction p = Some p' ->
     slides p' ≡ₚ slides p /\ map slide_id (slides p') ≡ₚ map slide_id (slides p)) /\
  (forall index direction p,
     (0 <= index < Z.of_nat (length (slides p)))%Z ->
     is_Some (moveSlide index direction p)) /\
  (forall now p,
     slides (addSlide now p) = slides p ++ [newSlide now] /\
     slide_id (newSlide now) = Some (lit "slide_" ++ String_of_N now)) /\
  (forall now now', now <> now' ->
     slide_id (newSlide now) <> slide_id (newSlide now')) /\
  (forall l,
     exists added,
       handleAddSlide l = l ++ [added] /\
       g_id added
       = String_of_num
           (plus1 (Math_max0 (map (fun s => Number (g_id s)) l)))) /\
  (forall l,
     Forall (fun s => integer_below (2 ^ 53 - 1) (Number (g_id s))) l ->
     forall added, handleAddSlide l = l ++ [added] ->
     g_id added ∉ map g_id l).
Proof.
  split.
  { intros index direction p p' H.
    destruct (moveSlide_Some _ _ _ _ H) as (Hp & _).
    split; [exact Hp | now rewrite Hp]. }
  split; [apply moveSlide_card|].
  split; [intros now p; split; reflexivity|].
  split.
  { intros now now' Hne H. apply Hne.
    injection H as H. now apply String_of_N_inj. }
  split.
  { intros l. eexists. split; reflexivity. }
  intros l Hall added Hadd.
  unfold handleAddSlide in Hadd. apply app_inv_head in Hadd.
  injection Hadd as <-. now apply nextId_fresh.
Qed.

Lemma slide_ids_on_move_and_add_witness :
  (exists p', moveSlide 1 down trio = Some p' /\
              map slide_id (slides p') ≡ₚ map slide_id (slides trio)) /\
  slide_id (newSlide 1700000000000) <> slide_id (newSlide 1700000000001) /\
  (exists added, handleAddSlide numbered = numbered ++ [added] /\
                 g_id added = lit "4" /\
                 g_id added ∉ map g_id numbered).
Proof.
  destruct slide_ids_on_move_and_add
    as (Hmove & Hcard & _ & Hclock & Hadd & Hfresh).
  split.
  { destruct (Hcard 1%Z down trio) as [p' Hp']; [simpl; lia|].
    exists p'. split; [exact Hp'|]. now apply (Hmove 1%Z down trio). }
  split; [apply Hclock; discriminate|].
  destruct (Hadd numbered) as (added & Hl & Hid).
  exists added. split; [exact Hl|]. split; [rewrite Hid; vm_compute; reflexivity|].
  apply (Hfresh numbered); [|exact Hl].
  repeat constructor.
  - exists 1%Z. split; [vm_compute; reflexivity | reflexivity].
  - exists 2%Z. split; [vm_compute; reflexivity | reflexivity].
  - exists 3%Z. split; [vm_compute; reflexivity | reflexivity].
Defined.

End SlideIdFacts.

(* ===================================================================== *)
(** * The slide editor: converting a served slide *)
(* ===================================================================== *)

Module SlideEditorFacts.

Import SlideEditorPage Samples.

Lemma mapi_from_length {A B} (f : A -> nat -> B) (l : list A) : forall i,
  length (mapi_from f i l) = length l.
Proof. induction l as [|x l IH]; intros i; simpl; [|rewrite IH]; reflexivity. Qed.

Lemma or_else_missing d : or_else None d = d.
Proof. reflexivity. Qed.

Lemma or_else_present s d : s <> [] -> or_else (Some s) d = s.
Proof. destruct s; [congruence | reflexivity]. Qed.

(** The number of parsed items: the lines that are not blank, or the
    elements of the array. *)
Lemma contentItems_length slide index :
  length (contentItems slide index) =
  match slide_content slide with
  | ContentString s =>
      length (List.filter (fun l => truthy (trim l)) (split_on is_separator s))
  | ContentArray items => length items
  | ContentOther => 0
  end.
Proof.
  unfold contentItems, mapi.
  destruct (slide_content slide); [apply mapi_from_length ..| reflexivity].
Qed.

Example convert_bare_slide :
  convertToDetailedSlide bare_slide 4 =
  {| d_id := lit "slide_5";
     d_title := slide_label ++ lit "5";
     d_subtitle := [];
     d_layout := LStandard;
     d_content :=
       [ {| item_id := lit "c4_0"; item_label := point_label ++ lit "1";
            item_value := lit "alpha" |};
         {| item_id := lit "c4_1"; item_label := point_label ++ lit "2";
            item_value := lit "beta" |} ] |}.
Proof. reflexivity. Qed.


End SlideEditorFacts.

(* ===================================================================== *)
(** * The generation monitor: the filtered collection *)
(* ===================================================================== *)

Module GenerationFacts.

Import GenerationPage Samples.

Lemma allowed_statuses filters x :
  x ∈ allowed filters -> x = queued \/ x = running \/ x = done.
Proof.
  unfold allowed. intros H.
  destruct (f_queued filters), (f_running filters), (f_done filters);
    simpl in H;
    repeat (apply elem_of_cons in H as [H|H]; [tauto|]);
    inversion H.
Qed.

Lemma failed_not_allowed filters : failed ∉ allowed filters.
Proof.
  intros H. apply allowed_statuses in H as [H|[H|H]]; discriminate.
Qed.

Lemma filtered_elem toLowerCase slides query filters s :
  s ∈ filtered toLowerCase slides query filters ->
  s ∈ slides /\ g_status s ∈ allowed filters.
Proof.
  unfold filtered. rewrite list_elem_of_In, filter_In, <- list_elem_of_In.
  intros (Hin & Hkeep). apply andb_true_iff in Hkeep as (Hhas & _).
  split; [assumption|]. unfold has in Hhas.
  now apply bool_decide_eq_true in Hhas.
Qed.

Example filtered_mixed :
  map g_id (filtered (fun s => s) mixed [] initial_filters)
  = [lit "1"; lit "3"; lit "4"].
Proof. reflexivity. Qed.

(** C10: whatever the three filter flags and the search query are, every
    slide of the filtered collection is a slide of the page whose status is
    one of queued, running and done; none has the status failed. *)
Theorem filtered_never_failed toLowerCase slides query filters :
  Forall (fun s => s ∈ slides /\
                   (g_status s = queued \/ g_status s = running \/
                    g_status s = done) /\
                   g_status s <> failed)
         (filtered toLowerCase slides query filters).
Proof.
  apply Forall_forall. intros s Hs.
  apply filtered_elem in Hs as (Hin & Hst).
  split; [assumption|]. split; [now apply allowed_statuses in Hst|].
  intros Hf. rewrite Hf in Hst. now apply failed_not_allowed in Hst.
Qed.

End GenerationFacts.

(* ===================================================================== *)
(** * The retry wrapper on a run that always fails *)
(* ===================================================================== *)

Module RetryFacts.

Import Retry.

Section AlwaysFailing.

Context {A E : Type}.
Variable errors : nat -> E.
Variable config : RetryConfig.
Variable on_failure : option (E -> A).

Local Abbreviation func := (fun attempt : nat => @inl E A (errors attempt)).
Local Abbreviation exhausted := (exhausted errors on_failure).

(** From the attempt [k] on, with [n] further attempts before the last,
    when the delay expression raises for none of them. *)
Lemma retry_loop_always_failing n : forall k,
  max_retries config = Z.of_nat (k + S n) ->
  (forall a, k <= a < k + n -> delay config a <> OverflowError) ->
  retry_loop func config on_failure (seq k (S n))
  = (flat_map (fun a => Called a :: slept (delay config a)) (seq k n)
       ++ [Called (k + n)],
     exhausted (k + n)).
Proof.
  induction n as [|n IH]; intros k Hmax Hfin.
  - simpl.
    destruct (Z.eqb_spec (Z.of_nat k) (max_retries config - 1)); [|lia].
    rewrite Nat.add_0_r. reflexivity.
  - change (seq k (S (S n))) with (k :: seq (S k) (S n)).
    cbn [retry_loop].
    destruct (Z.eqb_spec (Z.of_nat k) (max_retries config - 1)); [lia|].
    rewrite (IH (S k)) by (try lia; intros a Ha; apply Hfin; lia).
    replace (S k + n) with (k + S n) by lia.
    specialize (Hfin k ltac:(lia)).
    destruct (delay config k) eqn:Hd; [| |congruence];
      cbn [seq flat_map]; rewrite Hd; reflexivity.
Qed.

Lemma calls_flat_map n k :
  calls (flat_map (fun a => Called a :: slept (delay config a)) (seq k n)
           ++ [Called (k + n)])
  = seq k (S n).
Proof.
  revert k. induction n as [|n IH]; intros k.
  - simpl. now rewrite Nat.add_0_r.
  - specialize (IH (S k)). replace (k + S n) with (S k + n) by lia.
    change (seq k (S (S n))) with (k :: seq (S k) (S n)). rewrite <- IH.
    simpl. destruct (delay config k); reflexivity.
Qed.

Lemma sleep_count_flat_map n k :
  (forall a, k <= a < k + n -> delay config a <> OverflowError) ->
  sleep_count
    (flat_map (fun a => Called a :: slept (delay config a)) (seq k n)
       ++ [Called (k + n)])
  = n.
Proof.
  revert k. induction n as [|n IH]; intros k Hfin.
  - reflexivity.
  - assert (IH' := IH (S k) ltac:(intros a Ha; apply Hfin; lia)).
    replace (k + S n) with (S k + n) by lia.
    specialize (Hfin k ltac:(lia)). unfold sleep_count in *.
    cbn [seq flat_map].
    destruct (delay config k) eqn:Hd; [| |congruence];
      simpl in IH' |- *; rewrite IH'; reflexivity.
Qed.

(** A run that fails on every attempt is called [max_retries] times in
    all, with a sleep before each call but the first, when the delay
    expression raises for none of them; then the failure is handed to
    [on_failure], or raised. *)
Lemma with_retry_always_failing :
  (1 <= max_retries config)%Z ->
  let n := Z.to_nat (max_retries config) in
  (forall a, a < n - 1 -> delay config a <> OverflowError) ->
  let (events, result) := with_retry func config on_failure in
  calls events = seq 0 n /\
  sleep_count events = n - 1 /\
  result = exhausted (n - 1).
Proof.
  intros Hpos n Hfin. unfold with_retry. fold n.
  destruct n as [|m] eqn:Hn; [lia|].
  rewrite (retry_loop_always_failing m 0)
    by (try lia; intros a Ha; apply Hfin; lia).
  rewrite calls_flat_map, sleep_count_flat_map
    by (intros a Ha; apply Hfin; lia).
  replace (S m - 1) with m by lia. auto.
Qed.

(** With no retry allowed the run is not even called once. *)
Lemma with_retry_no_budget :
  (max_retries config <= 0)%Z ->
  with_retry func config on_failure = ([], ReturnedNone).
Proof.
  intros H. unfold with_retry.
  replace (Z.to_nat (max_retries config)) with 0 by lia. reflexivity.
Qed.

End AlwaysFailing.

(** C2, on the code: with the default configuration a run that always
    fails is awaited three times, after sleeps of 1 s and 2 s, and the third
    failure is raised; the policy as specified has four attempts, the last
    after a sleep of 4 s. *)
Theorem with_retry_default_always_failing {A E : Type} (e : E) :
  let (events, result) :=
    with_retry (A := A) (fun _ => inl e) default_config None in
  events = [Called 0; Slept 1; Called 1; Slept 2; Called 2] /\
  result = Raised e /\
  length (calls events) = 3 /\
  spec_attempts default_config = 4 /\
  sleeps events = [1%Q; 2%Q] /\
  spec_delays default_config = [1%Q; 2%Q; 4%Q].
Proof. vm_compute. repeat split. Qed.

End RetryFacts.

(* ===================================================================== *)
(** * The role switch *)
(* ===================================================================== *)

Module RoleSwitchFacts.

Import SlideGenerator.

Lemma switch_to_architect_frame self scope_agent agent :
  let '((agent', raised), performed) :=
    switch_to_architect self scope_agent agent in
  messages agent' = messages agent /\
  tools agent' = tools agent /\
  performed = [].
Proof.
  unfold switch_to_architect, _build_architect_system_prompt.
  destruct scope_agent as [a|]; simpl; repeat split.
Qed.

(** With a module-level [agent] bound, the prompt is built from the tool
    catalogue of that object, not of the agent passed in. *)
Lemma switch_to_architect_reads_module_agent self a agent :
  switch_to_architect self (Some a) agent
  = (({| system_prompt :=
           (architect_prompt self ++ newline ++ newline
              ++ tool_definitions_json (tools a))%string;
         messages := messages agent;
         tools := tools agent |}, None), []).
Proof. reflexivity. Qed.

(** C5, on the code as listed: [_build_architect_system_prompt] reads the
    name [agent], which neither it nor the module binds.  For every
    generator and every agent, [switch_to_architect] therefore ends in
    [NameError] before the assignment: the agent is left exactly as it was,
    the collector's system prompt included, so the role is not rebound
    (against the docstring, "keep the history, only switch the system
    prompt"); the turns and the tool catalogue are untouched and nothing is
    executed or requested.  [generate_plan] stops at the same exception and
    never starts the runner. *)
Theorem switch_to_architect_raises_NameError self agent :
  switch_to_architect self module_scope agent
    = ((agent, Some (NameError "agent")), []) /\
  (let '((agent', raised), performed) :=
     switch_to_architect self module_scope agent in
   system_prompt agent' = system_prompt agent /\
   messages agent' = messages agent /\
   tools agent' = tools agent /\
   raised = Some (NameError "agent") /\
   performed = []) /\
  (forall run task user_request,
     generate_plan run task self module_scope agent user_request
       = ((agent, Some (NameError "agent")), [])).
Proof.
  split; [reflexivity|].
  split; [cbn; repeat split|].
  intros run task user_request. reflexivity.
Qed.

(** The switch inside [generate_plan]: the runner starts from the turns of
    the collector. *)
Lemma generate_plan_runs_on_same_turns run task self agent request :
  exists agent',
    messages agent' = messages agent /\
    generate_plan run task self (Some agent) agent request
    = (let (a, performed) := run agent' (task request) in
       ((a, None), performed)).
Proof.
  exists {| system_prompt :=
              (architect_prompt self ++ newline ++ newline
                 ++ tool_definitions_json (tools agent))%string;
            messages := messages agent;
            tools := tools agent |}.
  split; [reflexivity|].
  unfold generate_plan, switch_to_architect, bind, ret. simpl.
  destruct (run _ _) as [a performed]. now rewrite app_nil_r.
Qed.

End RoleSwitchFacts.

(* ===================================================================== *)
(** * The task phase state machine *)
(* ===================================================================== *)

Module PhaseFacts.

Import SlideGenerator PhaseMachine Samples.

Lemma transition_accepts t target t' :
  transition t target = inr t' ->
  (phase t, target) ∈ allowed_edges /\ phase t' = target /\
  task_id t' = task_id t /\
  (target = designing -> is_Some (plan t)).
Proof.
  unfold transition, allowed_edges.
  destruct (phase t), target; try discriminate;
    try (destruct (plan t); try discriminate);
    intros [= <-]; simpl; repeat split; eauto;
    try discriminate; in_edges.
Qed.

Lemma transition_rejects t target :
  (phase t, target) ∉ allowed_edges ->
  transition t target = inl InvalidPhaseTransition.
Proof.
  unfold transition, allowed_edges. intros H.
  destruct (phase t), target; try reflexivity; exfalso; apply H; in_edges.
Qed.

(** C6: the machine accepts a request only along collecting → editing_plan
    → designing → completed, editing_plan → collecting and designing →
    editing_plan, and then lands in the requested phase; it rejects every
    other pair of phases with InvalidPhaseTransition; a request for
    designing from a task without a validated Plan is rejected with
    InvalidPhaseTransition and leaves the task, its phase included, as it
    was. Going back to collecting discards the Plan; going back to
    editing_plan invalidates the Manifest and keeps the Plan. *)
Theorem phase_transitions t target :
  (forall t', transition t target = inr t' ->
     (phase t, target) ∈ allowed_edges /\ phase t' = target) /\
  ((phase t, target) ∉ allowed_edges ->
     transition t target = inl InvalidPhaseTransition /\
     after_transition t target = t) /\
  (target = designing -> plan t = None ->
     transition t target = inl InvalidPhaseTransition /\
     after_transition t target = t) /\
  ((phase t, target) ∈ allowed_edges ->
     (target = designing -> is_Some (plan t)) ->
     exists t', transition t target = inr t' /\ phase t' = target) /\
  (phase t = editing_plan -> target = collecting ->
     plan (after_transition t target) = None) /\
  (phase t = designing -> target = editing_plan ->
     task_manifest (after_transition t target) = None /\
     plan (after_transition t target) = plan t).
Proof.
  split.
  { intros t' H. apply transition_accepts in H. tauto. }
  split.
  { intros H. unfold after_transition.
    rewrite transition_rejects by assumption. auto. }
  split.
  { intros -> Hplan. unfold after_transition, transition.
    rewrite Hplan. destruct (phase t); auto. }
  split.
  { intros Hedge Hplan. unfold transition, allowed_edges in *.
    destruct (phase t), target;
      try (not_in_edges Hedge);
      try (eexists; split; reflexivity).
    destruct (Hplan eq_refl) as [p ->]. eexists; split; reflexivity. }
  split.
  { intros Hp ->. unfold after_transition, transition. now rewrite Hp. }
  intros Hp ->. unfold after_transition, transition. now rewrite Hp.
Qed.

Lemma phase_transitions_witness :
  (exists t', transition editing_task designing = inr t' /\
              phase t' = designing) /\
  transition planless_task designing = inl InvalidPhaseTransition /\
  phase (after_transition planless_task designing) = editing_plan /\
  transition editing_task completed = inl InvalidPhaseTransition /\
  plan (after_transition editing_task collecting) = None.
Proof.
  destruct (phase_transitions editing_task designing)
    as (_ & _ & _ & Hok & _).
  destruct (phase_transitions planless_task designing)
    as (_ & _ & Hplan & _).
  destruct (phase_transitions editing_task completed)
    as (_ & Hrej & _).
  destruct (phase_transitions editing_task collecting)
    as (_ & _ & _ & _ & Hback & _).
  split.
  { apply Hok; [in_edges | intros _; simpl; eauto]. }
  destruct (Hplan eq_refl eq_refl) as (Herr & Hsame).
  split; [exact Herr|]. split; [now rewrite Hsame|].
  split.
  { apply Hrej. intros H. not_in_edges H. }
  now apply Hback.
Defined.

End PhaseFacts.

(* ===================================================================== *)
(** * The bulk generation engine *)
(* ===================================================================== *)

Module EngineFacts.

Import SlideGenerator.

(** ** Counting and summing over a manifest with one entry rewritten *)

Lemma insert_split {A} (l : list A) i x y :
  l !! i = Some x ->
  l = take i l ++ x :: drop (S i) l /\
  <[i := y]> l = take i l ++ y :: drop (S i) l.
Proof.
  intros H. split.
  - symmetry. now apply take_drop_middle.
  - apply insert_take_drop. now apply lookup_lt_Some in H.
Qed.


Lemma count_status_cons st e l :
  count_status st (e :: l) = indicator st (status e) + count_status st l.
Proof.
  unfold count_status, indicator. simpl.
  destruct (bool_decide (status e = st)); reflexivity.
Qed.


Lemma count_status_fmap st m :
  count_status st m
  = length (List.filter (fun x => bool_decide (x = st)) (map status m)).
Proof.
  unfold count_status. induction m as [|e m IH]; [reflexivity|].
  simpl. destruct (bool_decide (status e = st)); simpl; now rewrite IH.
Qed.

Lemma count_status_pos st m :
  0 < count_status st m -> exists i e, m !! i = Some e /\ status e = st.
Proof.
  induction m as [|e m IH]; [intros H; cbv in H; lia|].
  rewrite count_status_cons. unfold indicator.
  destruct (bool_decide (status e = st)) eqn:E.
  - intros _. exists 0, e. split; [reflexivity|].
    now apply bool_decide_eq_true in E.
  - intros H. destruct IH as (i & e' & Hi & He'); [lia|].
    exists (S i), e'. split; assumption.
Qed.

Lemma sum_list_with_insert (f : ManifestEntry -> nat) m i e e' :
  m !! i = Some e ->
  sum_list_with f (<[i := e']> m) + f e = sum_list_with f m + f e'.
Proof.
  intros H. destruct (insert_split m i e e' H) as (Hm & ->).
  rewrite Hm at 3.
  rewrite !sum_list_with_app. simpl. lia.
Qed.

Section Engine.

Variable limit : option nat.
Variable maxRetries : nat.
Variable designer : string -> nat -> RunResult.

Local Abbreviation step_at := (step_at limit maxRetries designer).
Local Abbreviation step := (step limit maxRetries designer).
Local Abbreviation steps := (steps limit maxRetries designer).
Local Abbreviation reachable := (reachable limit maxRetries designer).
Local Abbreviation final_status := (final_status maxRetries designer).
Local Abbreviation move := (move limit maxRetries designer).
Local Abbreviation entry_ok := (entry_ok maxRetries designer).

(** A move of the worker [i] rewrites the entry [i], keeping its slide id. *)
Lemma step_at_inv i s s' :
  step_at i s = Some s' ->
  exists e e',
    manifest s !! i = Some e /\
    s' = set_entry i e' s /\
    slideId e' = slideId e /\
    move e e' (manifest s).
Proof.
  unfold SlideGenerator.step_at.
  destruct (manifest s !! i) as [e|] eqn:He; [|discriminate].
  destruct (status e) eqn:Hst; try discriminate.
  - destruct (gate_open limit (manifest s)) eqn:Hgate; [|discriminate].
    intros [= <-]. do 2 eexists. split; [reflexivity|].
    split; [reflexivity|]. split; [reflexivity|].
    now apply move_enter.
  - destruct (designer (slideId e) (attempts e)) as [artifact|err] eqn:Hrun.
    + intros [= <-]. do 2 eexists. split; [reflexivity|].
      split; [reflexivity|]. split; [reflexivity|].
      apply move_done; try reflexivity; [assumption | now rewrite Hrun].
    + destruct (Nat.ltb_spec (attempts e) maxRetries);
        intros [= <-]; do 2 eexists; (split; [reflexivity|]);
        (split; [reflexivity|]); (split; [reflexivity|]).
      * apply move_retry; try reflexivity; try assumption. now rewrite Hrun.
      * apply move_fail; try reflexivity; try assumption. now rewrite Hrun.
Qed.

Lemma step_at_ids i s s' :
  step_at i s = Some s' ->
  map slideId (manifest s') = map slideId (manifest s).
Proof.
  intros H. apply step_at_inv in H as (e & e' & He & -> & Hid & _).
  simpl. change (map slideId) with (fmap (M := list) slideId).
  rewrite list_fmap_insert, Hid. apply list_insert_id.
  now rewrite list_lookup_fmap, He.
Qed.

Lemma steps_trans s1 s2 s3 : steps s1 s2 -> steps s2 s3 -> steps s1 s3.
Proof.
  intros H12 H23. induction H23 as [|s2 s3 s4 _ IH Hstep]; [assumption|].
  eapply steps_step; [now apply IH | exact Hstep].
Qed.

Lemma steps_ids s s' :
  steps s s' -> map slideId (manifest s') = map slideId (manifest s).
Proof.
  induction 1 as [|s s' s'' _ IH (i & Hstep)]; [reflexivity|].
  now rewrite (step_at_ids _ _ _ Hstep).
Qed.

Lemma create_slide_framework_ids plan :
  map slideId (create_slide_framework plan) = map spec_id (plan_slides plan).
Proof.
  unfold create_slide_framework. rewrite map_map. reflexivity.
Qed.

Lemma create_slide_framework_pending plan :
  Forall (fun e => status e = pending /\ attempts e = 0 /\
                   artifactPath e = None)
         (create_slide_framework plan).
Proof.
  unfold create_slide_framework. apply Forall_forall. intros e He.
  apply list_elem_of_fmap in He as (sp & -> & _). auto.
Qed.

Lemma reachable_ids plan s :
  reachable plan s ->
  map slideId (manifest s) = map spec_id (plan_slides plan).
Proof.
  intros H. apply steps_ids in H. rewrite H.
  apply create_slide_framework_ids.
Qed.

(** ** The admission gate *)










(** ** Every run of the engine ends *)

Lemma move_budget e e' m :
  move e e' m -> entry_budget maxRetries e' < entry_budget maxRetries e.
Proof.
  unfold entry_budget.
  intros [Hs _ Hs' Ha|Hs _ Hs' _|Hs _ Hlt Hs' Ha|Hs _ _ Hs' _];
    rewrite Hs, Hs', ?Ha; lia.
Qed.

Lemma step_budget s s' :
  step s s' -> budget maxRetries s' < budget maxRetries s.
Proof.
  intros (i & H). apply step_at_inv in H as (e & e' & He & -> & _ & Hmove).
  unfold budget. simpl.
  pose proof (sum_list_with_insert (entry_budget maxRetries)
                (manifest s) i e e' He).
  apply move_budget in Hmove. lia.
Qed.

Lemma steps_finite : well_founded (fun s' s => step s s').
Proof.
  apply (well_founded_lt_compat _ (budget maxRetries)).
  intros s' s. apply step_budget.
Qed.

(** ** The engine is never stuck before the end *)

Lemma running_moves i e s :
  manifest s !! i = Some e -> status e = running ->
  is_Some (step_at i s).
Proof.
  intros He Hst. unfold SlideGenerator.step_at. rewrite He, Hst.
  destruct (designer _ _); [eauto|].
  destruct (attempts e <? maxRetries); eauto.
Qed.

Lemma gate_closed_running m :
  1 <= max_concurrent limit ->
  gate_open limit m = false -> 0 < count_status running m.
Proof.
  unfold gate_open. intros Htokens H. apply Nat.ltb_ge in H. lia.
Qed.

Lemma schedule_sound s :
  1 <= max_concurrent limit ->
  match schedule limit s with
  | Some i => is_Some (step_at i s)
  | None => terminal s
  end.
Proof.
  intros Htokens. unfold schedule.
  assert (Hrun : match fst <$> list_find (fun e => status e = running)
                                          (manifest s) with
                 | Some i => is_Some (step_at i s)
                 | None => Forall (fun e => status e <> running) (manifest s)
                 end).
  { destruct (list_find _ _) as [[j e]|] eqn:Hfind; simpl.
    - apply list_find_Some in Hfind as (He & Hst & _).
      eapply running_moves; eassumption.
    - now apply list_find_None in Hfind. }
  destruct (list_find (fun e => status e = pending) (manifest s))
    as [[i e]|] eqn:Hpend.
  - apply list_find_Some in Hpend as (He & Hst & _).
    destruct (gate_open limit (manifest s)) eqn:Hgate.
    + unfold SlideGenerator.step_at. rewrite He, Hst, Hgate. eauto.
    + destruct (fst <$> list_find _ _) as [j|]; [assumption|].
      exfalso. apply gate_closed_running in Hgate; [|assumption].
      apply count_status_pos in Hgate as (j & e' & He' & Hst').
      rewrite Forall_forall in Hrun. apply (Hrun e'); [|assumption].
      eapply list_elem_of_lookup_2. eassumption.
  - apply list_find_None in Hpend.
    destruct (fst <$> list_find _ _) as [j|]; [assumption|].
    unfold terminal. rewrite Forall_forall in *.
    intros e He. specialize (Hpend e He). specialize (Hrun e He).
    destruct (status e); try reflexivity; congruence.
Qed.

Lemma progress s :
  1 <= max_concurrent limit -> terminal s \/ exists s', step s s'.
Proof.
  intros Htokens. pose proof (schedule_sound s Htokens) as H.
  destruct (schedule limit s) as [i|]; [|now left].
  right. destruct H as [s' Hs']. exists s'. now exists i.
Qed.

Lemma terminal_no_step s s' : terminal s -> ~ step s s'.
Proof.
  intros Hterm (i & H). apply step_at_inv in H as (e & e' & He & _ & _ & Hm).
  unfold terminal in Hterm. rewrite Forall_forall in Hterm.
  assert (Ht : is_terminal (status e) = true).
  { apply Hterm. eapply list_elem_of_lookup_2. eassumption. }
  destruct Hm as [Hs|Hs|Hs|Hs]; rewrite Hs in Ht; discriminate.
Qed.

(** The scheduler of [run] reaches the end within the budget. *)
Lemma run_ends fuel : forall s,
  1 <= max_concurrent limit ->
  budget maxRetries s <= fuel ->
  steps s (run limit maxRetries designer fuel s) /\
  terminal (run limit maxRetries designer fuel s).
Proof.
  induction fuel as [|fuel IH]; intros s Htokens Hfuel.
  - simpl. split; [apply steps_refl|].
    destruct (progress s Htokens) as [Hterm|(s' & Hstep)]; [assumption|].
    apply step_budget in Hstep. lia.
  - simpl. pose proof (schedule_sound s Htokens) as Hsched.
    destruct (schedule limit s) as [i|].
    + destruct Hsched as [s' Hs']. rewrite Hs'.
      assert (Hstep : step s s') by now exists i.
      pose proof (step_budget _ _ Hstep).
      destruct (IH s') as (Hsteps & Hterm); [assumption | lia |].
      split; [|assumption].
      eapply steps_trans; [|exact Hsteps].
      eapply steps_step; [apply steps_refl | exact Hstep].
    + split; [apply steps_refl | assumption].
Qed.

(** ** What a finished slide's status is *)

Lemma final_status_done id k :
  k <= maxRetries -> is_ok (designer id k) = true -> final_status id = done.
Proof.
  intros Hk Hok. unfold SlideGenerator.final_status.
  destruct (existsb _ _) eqn:E; [reflexivity|].
  rewrite <- not_true_iff_false in E. exfalso. apply E.
  apply existsb_exists. exists k. split; [apply in_seq; lia | assumption].
Qed.

Lemma final_status_failed id :
  (forall k, k <= maxRetries -> is_ok (designer id k) = false) ->
  final_status id = failed.
Proof.
  intros H. unfold SlideGenerator.final_status.
  destruct (existsb _ _) eqn:E; [|reflexivity].
  apply existsb_exists in E as (k & Hk & Hok). apply in_seq in Hk.
  rewrite H in Hok by lia. discriminate.
Qed.

Lemma move_entry_ok e e' m :
  slideId e' = slideId e -> entry_ok e -> move e e' m -> entry_ok e'.
Proof.
  unfold SlideGenerator.entry_ok. intros Hid Hok Hmove.
  destruct Hmove as [Hs _ Hs' Ha|Hs Hrun Hs' _|Hs Hrun Hlt Hs' Ha
                    |Hs Hrun Hge Hs' _];
    rewrite Hs in Hok; rewrite Hs', ?Hid.
  - rewrite Ha, Hok. split; [lia|]. intros k Hk. lia.
  - destruct Hok as (Hle & _). eapply final_status_done; eassumption.
  - destruct Hok as (Hle & Hfailed). rewrite Ha. split; [lia|].
    intros k Hk. destruct (decide (k = attempts e)) as [->|Hne];
      [assumption | apply Hfailed; lia].
  - destruct Hok as (Hle & Hfailed). apply final_status_failed.
    intros k Hk. destruct (decide (k = attempts e)) as [->|Hne];
      [assumption | apply Hfailed; lia].
Qed.

Lemma steps_entry_ok s s' :
  Forall entry_ok (manifest s) -> steps s s' -> Forall entry_ok (manifest s').
Proof.
  intros Hs H. induction H as [|s s' s'' _ IH (i & Hstep)]; [assumption|].
  apply step_at_inv in Hstep as (e & e' & He & -> & Hid & Hmove).
  simpl. apply Forall_insert; [now apply IH|].
  eapply move_entry_ok; [exact Hid | | exact Hmove].
  specialize (IH Hs). rewrite Forall_forall in IH. apply IH.
  eapply list_elem_of_lookup_2. eassumption.
Qed.

Lemma initial_entry_ok plan :
  Forall entry_ok (create_slide_framework plan).
Proof.
  pose proof (create_slide_framework_pending plan) as H.
  rewrite Forall_forall in *. intros e He.
  destruct (H e He) as (Hs & Ha & _).
  unfold SlideGenerator.entry_ok. now rewrite Hs.
Qed.

Lemma terminal_statuses m :
  Forall entry_ok m ->
  Forall (fun e => is_terminal (status e) = true) m ->
  map status m = map final_status (map slideId m).
Proof.
  induction m as [|e m IH]; intros Hok Hterm; [reflexivity|].
  apply Forall_cons in Hok as (He & Hok).
  apply Forall_cons in Hterm as (Ht & Hterm).
  simpl. rewrite IH by assumption. f_equal.
  unfold SlideGenerator.entry_ok in He.
  destruct (status e); try discriminate; now rewrite He.
Qed.

Lemma summary_tally m : summary m = tally (map status m).
Proof. unfold summary, tally. now rewrite !count_status_fmap. Qed.

(** At the end the status of each slide is the one its own designer runs
    decide, whatever the order of the moves was. *)
Lemma reachable_terminal plan s :
  reachable plan s -> terminal s ->
  map status (manifest s)
  = map final_status (map spec_id (plan_slides plan)).
Proof.
  intros Hreach Hterm.
  rewrite <- (reachable_ids plan s Hreach).
  apply terminal_statuses; [|assumption].
  eapply steps_entry_ok; [|exact Hreach]. apply initial_entry_ok.
Qed.

Lemma terminalb_spec s : terminalb s = true <-> terminal s.
Proof.
  unfold terminalb, terminal. rewrite forallb_forall, Forall_forall.
  split; intros H e He; apply H; now apply list_elem_of_In.
Qed.

Lemma generate_all_slides_reaches plan :
  1 <= max_concurrent limit ->
  let s := run limit maxRetries designer
               (budget maxRetries (initial plan)) (initial plan) in
  reachable plan s /\ terminal s.
Proof. intros Htokens. apply run_ends; [assumption | lia]. Qed.

(** With a token to give, the call returns, and what it returns depends on
    the designer runs of each slide alone. *)
Lemma generate_all_slides_tally plan :
  1 <= max_concurrent limit ->
  generate_all_slides limit maxRetries designer plan
  = Some (tally (map final_status (map spec_id (plan_slides plan)))).
Proof.
  intros Htokens. unfold generate_all_slides.
  destruct (generate_all_slides_reaches plan Htokens) as (Hreach & Hterm).
  cbv zeta. rewrite (proj2 (terminalb_spec _) Hterm).
  rewrite summary_tally. do 2 f_equal. now apply reachable_terminal.
Qed.


Lemma tally_total (ids : list string) :
  let t := tally (map final_status ids) in
  n_done t + n_failed t = length ids.
Proof.
  induction ids as [|id ids IH]; [reflexivity|].
  assert (Hf : final_status id = done \/ final_status id = failed).
  { unfold SlideGenerator.final_status. destruct (existsb _ _); auto. }
  cbv zeta in *. unfold tally in *. simpl in *.
  destruct Hf as [-> | ->]; simpl; lia.
Qed.

Lemma run_steps fuel : forall s,
  steps s (run limit maxRetries designer fuel s).
Proof.
  induction fuel as [|fuel IH]; intros s; simpl; [apply steps_refl|].
  destruct (schedule limit s) as [i|]; [|apply steps_refl].
  destruct (step_at i s) as [s'|] eqn:Hs'; [|apply steps_refl].
  eapply steps_trans; [|apply IH].
  eapply steps_step; [apply steps_refl | now exists i].
Qed.

Lemma step_at_in_manifest plan i s s' :
  reachable plan s -> step_at i s = Some s' ->
  i < length (create_slide_framework plan).
Proof.
  intros Hreach Hstep.
  apply step_at_inv in Hstep as (e & _ & He & _).
  apply lookup_lt_Some in He. apply reachable_ids in Hreach.
  rewrite <- create_slide_framework_ids in Hreach.
  apply (f_equal length) in Hreach. rewrite !length_map in Hreach. lia.
Qed.

End Engine.

Import Samples.

(** C1: for every plan and every concurrency limit, the manifest of
    [generateAll] is the expansion of the plan: as many entries as the plan
    has slides, one per SlideSpec id in plan order, all of them pending with
    no attempt made in the state the generation starts from; every state of
    the generation has these same entries, and every move is the move of
    one of them. *)
Theorem generateAll_expands_plan limit maxRetries designer plan :
  length (create_slide_framework plan) = length (plan_slides plan) /\
  map slideId (create_slide_framework plan) = map spec_id (plan_slides plan) /\
  Forall (fun e => status e = pending /\ attempts e = 0 /\
                   artifactPath e = None)
         (create_slide_framework plan) /\
  manifest (initial plan) = create_slide_framework plan /\
  (forall s, reachable limit maxRetries designer plan s ->
     length (manifest s) = length (plan_slides plan) /\
     map slideId (manifest s) = map spec_id (plan_slides plan) /\
     forall i s', step_at limit maxRetries designer i s = Some s' ->
                  i < length (create_slide_framework plan)).
Proof.
  split; [unfold create_slide_framework; apply length_map|].
  split; [apply create_slide_framework_ids|].
  split; [apply create_slide_framework_pending|].
  split; [reflexivity|].
  intros s Hreach.
  pose proof (reachable_ids _ _ _ plan s Hreach) as Hids.
  split; [|split; [exact Hids|]].
  - apply (f_equal length) in Hids. now rewrite !length_map in Hids.
  - intros i s'. now apply step_at_in_manifest.
Qed.

Lemma generateAll_expands_plan_witness :
  let s := run (Some 2) 3 slide3_fails 4 (initial five_plan) in
  length (manifest s) = 5 /\
  map slideId (manifest s) = ["1"; "2"; "3"; "4"; "5"]%string.
Proof.
  destruct (generateAll_expands_plan (Some 2) 3 slide3_fails five_plan)
    as (_ & _ & _ & _ & H).
  destruct (H (run (Some 2) 3 slide3_fails 4 (initial five_plan)))
    as (Hlen & Hids & _); [apply run_steps|].
  split; [exact Hlen | exact Hids].
Defined.




(** Two tokens: with slides 1 and 2 running, slide 3 waits at the gate. *)
Example gate_holds_third_slide :
  let s := run (Some 2) 3 slide3_fails 2 (initial five_plan) in
  map status (manifest s) = [running; running; pending; pending; pending] /\
  step_at (Some 2) 3 slide3_fails 2 s = None.
Proof. split; reflexivity. Qed.

(** With a token to give, five slides of which the third always fails end
    as 4 done, 1 failed. *)
Lemma slide3_fails_summary limit maxRetries :
  1 <= max_concurrent limit ->
  generate_all_slides limit maxRetries slide3_fails five_plan
  = Some {| n_done := 4; n_failed := 1 |}.
Proof.
  intros Htokens. rewrite generate_all_slides_tally by assumption.
  assert (Hok : forall id, String.eqb id "3" = false ->
                  final_status maxRetries slide3_fails id = done).
  { intros id Hid. apply (final_status_done _ _ id 0); [lia|].
    unfold slide3_fails. now rewrite Hid. }
  assert (Hko : final_status maxRetries slide3_fails "3" = failed).
  { apply final_status_failed. reflexivity. }
  simpl. rewrite Hko, !Hok by reflexivity. reflexivity.
Qed.



End EngineFacts.

(* ===================================================================== *)
(** * The retry wrapper on any run *)
(* ===================================================================== *)

Module RetryMore.

Import Retry RetryTrace RetryFacts.

Section AnyRun.

Context {A E : Type}.
Variable func : nat -> E + A.
Variable config : RetryConfig.
Variable on_failure : option (E -> A).

Local Abbreviation retried := (retried func config).
Local Abbreviation ends_with := (ends_with func config on_failure).

(** The loop from the attempt [j] on, with [n] attempts after it: it makes
    [c] failed attempts, each followed by its sleep, and one more. *)
Lemma retry_loop_shape n : forall j,
  max_retries config = Z.of_nat (j + S n) ->
  exists c,
    c <= n /\
    fst (retry_loop func config on_failure (seq j (S n)))
    = attempts_trace config j c /\
    (forall a, j <= a < j + c -> retried a) /\
    ends_with (j + c) (j + n)
      (snd (retry_loop func config on_failure (seq j (S n)))).
Proof.
  induction n as [|n IH]; intros j Hmax.
  - exists 0. split; [lia|]. unfold attempts_trace, ends_with. simpl.
    rewrite !Nat.add_0_r.
    destruct (func j) as [e|v] eqn:Hj.
    + destruct (Z.eqb_spec (Z.of_nat j) (max_retries config - 1)); [|lia].
      simpl. split; [reflexivity|]. split; [intros a Ha; lia|].
      right. left. split; [reflexivity|]. exists e.
      split; [first [assumption | reflexivity] | reflexivity].
    + simpl. split; [reflexivity|]. split; [intros a Ha; lia|].
      left. exists v. split; [first [assumption | reflexivity] | reflexivity].
  - change (seq j (S (S n))) with (j :: seq (S j) (S n)).
    cbn [retry_loop].
    destruct (func j) as [e|v] eqn:Hj.
    + destruct (Z.eqb_spec (Z.of_nat j) (max_retries config - 1)); [lia|].
      destruct (IH (S j)) as (c & Hc & Hev & Hfail & Hend); [lia|].
      destruct (retry_loop func config on_failure (seq (S j) (S n)))
        as [events result] eqn:Hloop.
      cbn [fst snd] in Hev, Hend.
      assert (Hnext : forall d, delay config j = d -> d <> OverflowError ->
                exists c0, c0 <= S n /\
                  Called j :: slept d ++ events = attempts_trace config j c0 /\
                  (forall a, j <= a < j + c0 -> retried a) /\
                  ends_with (j + c0) (j + S n) result).
      { intros d Hd Hne. exists (S c). split; [lia|]. split.
        { rewrite Hev. unfold attempts_trace. cbn [seq flat_map].
          rewrite Hd, Nat.add_succ_r, <- !app_assoc. reflexivity. }
        split.
        { intros a Ha. destruct (decide (a = j)) as [->|Hne'].
          - split; [eauto | congruence].
          - apply Hfail. lia. }
        replace (j + S c) with (S j + c) by lia.
        replace (j + S n) with (S j + n) by lia. exact Hend. }
      destruct (delay config j) eqn:Hd.
      * apply (Hnext _ eq_refl). discriminate.
      * apply (Hnext _ eq_refl). discriminate.
      * exists 0. split; [lia|]. unfold attempts_trace. simpl.
        rewrite !Nat.add_0_r.
        split; [reflexivity|]. split; [intros a Ha; lia|].
        right. right. split; [lia|]. split; [eauto|]. split; [exact Hd|].
        reflexivity.
    + exists 0. split; [lia|]. unfold attempts_trace, ends_with. simpl.
      rewrite !Nat.add_0_r.
      split; [reflexivity|]. split; [intros a Ha; lia|].
      left. exists v. split; [first [assumption | reflexivity] | reflexivity].
Qed.

Lemma with_retry_unfolded n :
  Z.to_nat (max_retries config) = S n ->
  exists c,
    c <= n /\
    fst (with_retry func config on_failure) = attempts_trace config 0 c /\
    (forall a, a < c -> retried a) /\
    ends_with c n (snd (with_retry func config on_failure)).
Proof.
  intros Hn. unfold with_retry. rewrite Hn.
  destruct (retry_loop_shape n 0) as (c & Hc & Hev & Hfail & Hend); [lia|].
  exists c. split; [exact Hc|]. split; [exact Hev|].
  split; [intros a Ha; apply Hfail; lia|].
  exact Hend.
Qed.



Lemma calls_attempts_trace j c :
  calls (attempts_trace config j c) = seq j (S c).
Proof. apply calls_flat_map. Qed.

Lemma sleep_count_attempts_trace j c :
  (forall a, j <= a < j + c -> delay config a <> OverflowError) ->
  sleep_count (attempts_trace config j c) = c.
Proof. apply sleep_count_flat_map. Qed.

Lemma delay_capped attempt d :
  delay config attempt = Seconds d -> (d <= max_delay config)%Q.
Proof.
  unfold delay. destruct (float_pow _ _) as [p|]; [|discriminate].
  destruct (Binary64.round _) as [x|[|]]; try discriminate.
  - destruct (Qle_bool x (max_delay config)) eqn:Hle; intros [= <-].
    + now apply Qle_bool_iff.
    + apply Qle_refl.
  - intros [= <-]. apply Qle_refl.
Qed.

Lemma sleeps_attempts_trace c : forall j,
  Forall (fun d => (d <= max_delay config)%Q)
         (sleeps (attempts_trace config j c)).
Proof.
  unfold attempts_trace.
  induction c as [|c IH]; intros j; [constructor|].
  cbn [seq flat_map]. specialize (IH (S j)).
  rewrite Nat.add_succ_r. simpl in IH.
  destruct (delay config j) eqn:Hd; simpl; try exact IH.
  constructor; [|exact IH]. now apply (delay_capped j).
Qed.

(** Whatever the run does: it is called at most [max_retries] times, in
    the order of the attempts; there is one sleep between two consecutive
    calls and none after the last; and no sleep is longer than
    [max_delay]. *)
Theorem with_retry_bounds :
  let events := fst (with_retry func config on_failure) in
  length (calls events) <= Z.to_nat (max_retries config) /\
  calls events = seq 0 (length (calls events)) /\
  sleep_count events = length (calls events) - 1 /\
  Forall (fun d => (d <= max_delay config)%Q) (sleeps events).
Proof.
  cbv zeta.
  destruct (Z.le_gt_cases 1 (max_retries config)) as [Hpos|Hneg].
  - destruct (with_retry_unfolded (Z.to_nat (max_retries config) - 1))
      as (c & Hc & -> & Hfail & _); [lia|].
    rewrite calls_attempts_trace, sleep_count_attempts_trace
      by (intros a Ha; apply Hfail; lia).
    rewrite length_seq.
    split; [lia|]. split; [reflexivity|]. split; [lia|].
    apply sleeps_attempts_trace.
  - unfold with_retry.
    replace (Z.to_nat (max_retries config)) with 0 by lia. simpl.
    repeat split; [lia | constructor].
Qed.

(** [with_retry] returns [None] without a word exactly when no attempt is
    allowed ([max_retries <= 0]), and then the run is never called. *)
Theorem with_retry_returns_None :
  (snd (with_retry func config on_failure) = ReturnedNone
   <-> (max_retries config <= 0)%Z) /\
  (fst (with_retry func config on_failure) = []
   <-> (max_retries config <= 0)%Z).
Proof.
  destruct (Z.le_gt_cases 1 (max_retries config)) as [Hpos|Hneg].
  - destruct (with_retry_unfolded (Z.to_nat (max_retries config) - 1))
      as (c & _ & Hev & _ & Hend); [lia|].
    split; (split; [intros H; exfalso | lia]).
    + destruct Hend as [(v & _ & Hr)|[(_ & e & _ & Hr)|(_ & _ & _ & Hr)]];
        rewrite Hr in H; try discriminate.
      unfold on_exhaustion in H. destruct on_failure; discriminate.
    + rewrite H in Hev. unfold attempts_trace in Hev.
      symmetry in Hev. apply app_eq_nil in Hev as (_ & Hev). discriminate.
  - unfold with_retry.
    replace (Z.to_nat (max_retries config)) with 0 by lia. simpl.
    split; (split; [lia | reflexivity]).
Qed.

End AnyRun.



(** The default doubling overflows at the attempt 1024: with 1026 attempts
    allowed, a run that always fails is called 1025 times and the caller
    gets [OverflowError]. *)
Example with_retry_doubling_overflows :
  let (events, result) :=
    with_retry (A := nat) (fun _ => inl "boom"%string)
               {| max_retries := 1026; base_delay := 1; max_delay := 30;
                  exponential_base := 2 |} None in
  length (calls events) = 1025 /\ sleep_count events = 1024 /\
  result = RaisedOverflowError.
Proof. vm_compute. repeat split. Qed.

(** The products are rounded: a tenth of a second tripled is the double
    next above three tenths. *)
Example delay_is_rounded :
  delay tenth_config 1 = Seconds (1351079888211149 # 4503599627370496) /\
  ~ (1351079888211149 # 4503599627370496 == 3 # 10)%Q.
Proof. split; [vm_compute; reflexivity | intros H; discriminate H]. Qed.

End RetryMore.

(* ===================================================================== *)
(** * The outline editor: updating, moving back, adding and removing *)
(* ===================================================================== *)

Module PlanEditorMore.

Import PlanEditorPage PlanEditorFacts Samples Notions.

Lemma with_slides_same p : with_slides p (slides p) = p.
Proof. now destruct p. Qed.

Lemma same_id_true a b : same_id a b = true <-> slide_id a = slide_id b.
Proof. unfold same_id. apply bool_decide_eq_true. Qed.

(** [updateSlide] replaces, in place, every slide that has the id of the
    updated slide by the updated slide and touches nothing else: the number
    of slides, their ids in order, the title and the theme stay; with no
    slide of that id the outline is unchanged; updating twice is updating
    once. *)
Theorem updateSlide_in_place updatedSlide p :
  length (slides (updateSlide updatedSlide p)) = length (slides p) /\
  map slide_id (slides (updateSlide updatedSlide p))
  = map slide_id (slides p) /\
  (forall i,
     slides (updateSlide updatedSlide p) !! i
     = (fun s => if decide (slide_id s = slide_id updatedSlide)
                 then updatedSlide else s) <$> slides p !! i) /\
  pres_title (updateSlide updatedSlide p) = pres_title p /\
  theme (updateSlide updatedSlide p) = theme p /\
  updateSlide updatedSlide (updateSlide updatedSlide p)
  = updateSlide updatedSlide p /\
  ((forall s, s ∈ slides p -> slide_id s <> slide_id updatedSlide) ->
   updateSlide updatedSlide p = p).
Proof.
  unfold updateSlide. simpl.
  split; [apply length_map|].
  split.
  { rewrite map_map. apply map_ext. intros s.
    destruct (same_id s updatedSlide) eqn:E; [|reflexivity].
    apply same_id_true in E. now rewrite E. }
  split.
  { intros i. change (map ?f ?l) with (f <$> l).
    rewrite list_lookup_fmap. destruct (slides p !! i) as [s|]; [|reflexivity].
    simpl. f_equal. unfold same_id.
    destruct (decide (slide_id s = slide_id updatedSlide)) as [H|H].
    - now rewrite bool_decide_eq_true_2.
    - now rewrite bool_decide_eq_false_2. }
  split; [reflexivity|]. split; [reflexivity|].
  split.
  { unfold with_slides. simpl. f_equal. rewrite map_map.
    apply map_ext. intros s.
    destruct (same_id s updatedSlide) eqn:E; [|now rewrite E].
    assert (H : same_id updatedSlide updatedSlide = true)
      by now apply same_id_true.
    now rewrite H. }
  intros Hnone.
  transitivity (with_slides p (slides p)); [|apply with_slides_same].
  f_equal. rewrite <- (map_id (slides p)) at 2. apply map_ext_in.
  intros s Hs. apply list_elem_of_In in Hs.
  destruct (same_id s updatedSlide) eqn:E; [|reflexivity].
  apply same_id_true in E. now apply Hnone in Hs.
Qed.

Lemma updateSlide_in_place_witness :
  updateSlide (plain_slide "zz" "Other") trio = trio.
Proof.
  destruct (updateSlide_in_place (plain_slide "zz" "Other") trio)
    as (_ & _ & _ & _ & _ & _ & H).
  apply H. intros s Hs.
  repeat (apply elem_of_cons in Hs as [->|Hs]; [discriminate|]).
  inversion Hs.
Defined.

(** Exchanging two neighbours twice gives the list back. *)
Lemma swap_back {A} (l : list A) i j a b :
  i <> j -> l !! i = Some a -> l !! j = Some b ->
  <[i := a]> (<[j := b]> (<[j := a]> (<[i := b]> l))) = l.
Proof.
  intros Hij Ha Hb.
  rewrite list_insert_insert_eq.
  rewrite (list_insert_insert_ne _ j i) by congruence.
  rewrite list_insert_insert_eq.
  rewrite (list_insert_id _ j b) by assumption.
  now apply list_insert_id.
Qed.

Lemma moveSlide_in_range index direction p :
  let target := match direction with
                | up => (index - 1)%Z | down => (index + 1)%Z end in
  (0 <= index < Z.of_nat (length (slides p)))%Z ->
  (0 <= target < Z.of_nat (length (slides p)))%Z ->
  exists a b,
    slides p !! Z.to_nat index = Some a /\
    slides p !! Z.to_nat target = Some b /\
    moveSlide index direction p
    = Some (with_slides p (<[Z.to_nat target := a]>
                             (<[Z.to_nat index := b]> (slides p)))).
Proof.
  intros target Hi Ht.
  destruct (lookup_lt_is_Some_2 (slides p) (Z.to_nat index)) as [a Ha];
    [lia|].
  destruct (lookup_lt_is_Some_2 (slides p) (Z.to_nat target)) as [b Hb];
    [lia|].
  exists a, b. split; [assumption|]. split; [assumption|].
  unfold moveSlide. fold target.
  destruct (Z.leb_spec 0 target); [|lia].
  destruct (Z.ltb_spec target (Z.of_nat (length (slides p)))); [|lia].
  destruct (Z.leb_spec 0 index); [|lia].
  simpl. now rewrite Ha, Hb.
Qed.

(** Moving a card and then moving it back, from where it landed, restores
    the outline exactly. *)
Theorem moveSlide_back index direction p :
  let target := match direction with
                | up => (index - 1)%Z | down => (index + 1)%Z end in
  (0 <= index < Z.of_nat (length (slides p)))%Z ->
  (0 <= target < Z.of_nat (length (slides p)))%Z ->
  exists p',
    moveSlide index direction p = Some p' /\
    moveSlide target (opposite direction) p' = Some p.
Proof.
  intros target Hi Ht.
  destruct (moveSlide_in_range index direction p Hi Ht)
    as (a & b & Ha & Hb & Hmove).
  fold target in Hb, Hmove.
  eexists. split; [exact Hmove|].
  set (l' := <[Z.to_nat target := a]> (<[Z.to_nat index := b]> (slides p))).
  assert (Hne : Z.to_nat index <> Z.to_nat target)
    by (subst target; destruct direction; lia).
  assert (Hlen : length l' = length (slides p))
    by (unfold l'; now rewrite !length_insert).
  destruct (moveSlide_in_range target (opposite direction) (with_slides p l'))
    as (a' & b' & Ha' & Hb' & Hback).
  { simpl. lia. }
  { simpl. subst target. destruct direction; simpl; lia. }
  rewrite Hback. f_equal. simpl in *.
  replace (match opposite direction with
           | up => (target - 1)%Z | down => (target + 1)%Z end)
    with index in * by (subst target; destruct direction; simpl; lia).
  assert (a' = a) as ->.
  { unfold l' in Ha'. rewrite list_lookup_insert_eq in Ha'; [congruence|].
    rewrite length_insert. now apply lookup_lt_Some in Hb. }
  assert (b' = b) as ->.
  { unfold l' in Hb'. rewrite list_lookup_insert_ne in Hb' by congruence.
    rewrite list_lookup_insert_eq in Hb'; [congruence|].
    now apply lookup_lt_Some in Ha. }
  unfold l'. unfold with_slides. simpl.
  rewrite (swap_back (slides p) (Z.to_nat index) (Z.to_nat target) a b)
    by assumption.
  now destruct p.
Qed.

Lemma moveSlide_back_witness :
  exists p', moveSlide 2 up trio = Some p' /\
             map slide_id (slides p') = [Some (lit "s1"); Some (lit "s3");
                                         Some (lit "s2")] /\
             moveSlide 1 down p' = Some trio.
Proof.
  destruct (moveSlide_back 2 up trio) as (p' & Hp' & Hback);
    [simpl; lia | simpl; lia |].
  exists p'. split; [exact Hp'|]. split; [|exact Hback].
  vm_compute in Hp'. injection Hp' as <-. reflexivity.
Defined.

(** At the ends nothing moves: "up" on the first card and "down" on the
    last leave the outline as it is. *)
Theorem moveSlide_at_the_ends p :
  moveSlide 0 up p = Some p /\
  moveSlide (Z.of_nat (length (slides p)) - 1) down p = Some p.
Proof.
  split; unfold moveSlide; simpl.
  - reflexivity.
  - destruct (Z.leb_spec 0 (Z.of_nat (length (slides p)) - 1 + 1));
      [|reflexivity].
    destruct (Z.ltb_spec (Z.of_nat (length (slides p)) - 1 + 1)
                         (Z.of_nat (length (slides p)))); [lia|].
    reflexivity.
Qed.

(** A slide just added can be removed again, which restores the outline,
    when the outline had a slide before and none with the new id; added to
    an empty outline it stays, because the last slide is never removed. *)
Theorem addSlide_then_removeSlide now p :
  let id := lit "slide_" ++ String_of_N now in
  (1 <= length (slides p) ->
   (forall s, s ∈ slides p -> slide_id s <> Some id) ->
   removeSlide id (addSlide now p) = p) /\
  (slides p = [] ->
   removeSlide id (addSlide now p) = addSlide now p).
Proof.
  cbv zeta. split.
  - intros Hlen Hfresh. unfold removeSlide, addSlide. simpl.
    rewrite length_app. simpl.
    destruct (Nat.leb_spec (length (slides p) + 1) 1); [lia|].
    unfold with_slides. simpl.
    rewrite List.filter_app, filter_other_ids, filter_all by assumption.
    simpl. unfold id_is, newSlide. simpl.
    rewrite bool_decide_eq_true_2 by reflexivity. simpl.
    rewrite app_nil_r. now destruct p.
  - intros Hempty. apply removeSlide_short. unfold addSlide. simpl.
    rewrite Hempty. simpl. lia.
Qed.

Lemma addSlide_then_removeSlide_witness :
  removeSlide (lit "slide_1700000000000") (addSlide 1700000000000 trio)
  = trio /\
  slides (removeSlide (lit "slide_5") (addSlide 5 INITIAL_PRESENTATION))
  = [newSlide 5].
Proof.
  destruct (addSlide_then_removeSlide 1700000000000 trio) as (Hundo & _).
  destruct (addSlide_then_removeSlide 5 INITIAL_PRESENTATION) as (_ & Hstay).
  split.
  - apply Hundo; [simpl; lia|]. intros s Hs.
    repeat (apply elem_of_cons in Hs as [->|Hs]; [discriminate|]).
    inversion Hs.
  - change (lit "slide_" ++ String_of_N 5) with (lit "slide_5") in Hstay.
    now rewrite Hstay.
Defined.

End PlanEditorMore.

(* ===================================================================== *)
(** * The generation monitor: regenerate, start all, progress bar *)
(* ===================================================================== *)

Module GenerationMore.

Import GenerationPage GenerationHandlers Samples Notions.

Lemma running_not_queued : running <> queued.
Proof. discriminate. Qed.

Lemma handleRegenerate_ids id l :
  map g_id (handleRegenerate id l) = map g_id l.
Proof.
  unfold handleRegenerate. rewrite map_map. apply map_ext.
  intros s. now destruct (bool_decide (g_id s = id)).
Qed.

(** [handleRegenerate] keeps the slides, their ids and titles in place;
    every slide with the given id is shown running with a progress of at
    most 5, never more than it had; the other slides are untouched; doing
    it twice changes nothing more. *)
Theorem handleRegenerate_in_place id l :
  let l' := handleRegenerate id l in
  map g_id l' = map g_id l /\
  map g_title l' = map g_title l /\
  (forall i,
     l' !! i
     = (fun s => if decide (g_id s = id)
                 then with_status s running (Z.min (g_progress s) 5)
                 else s) <$> l !! i) /\
  Forall (fun s => g_id s = id ->
                   g_status s = running /\ (g_progress s <= 5)%Z) l' /\
  Forall2 (fun s s' => (g_progress s' <= g_progress s)%Z) l l' /\
  handleRegenerate id l' = l'.
Proof.
  cbv zeta. unfold handleRegenerate.
  split.
  { rewrite map_map. apply map_ext. intros s.
    now destruct (bool_decide (g_id s = id)). }
  split.
  { rewrite map_map. apply map_ext. intros s.
    now destruct (bool_decide (g_id s = id)). }
  split.
  { intros i. change (map ?f ?l) with (f <$> l).
    rewrite list_lookup_fmap. destruct (l !! i) as [s|]; [|reflexivity].
    simpl. f_equal.
    destruct (decide (g_id s = id)) as [H|H].
    - now rewrite bool_decide_eq_true_2.
    - now rewrite bool_decide_eq_false_2. }
  split.
  { apply Forall_forall. intros s' Hs'.
    apply list_elem_of_fmap in Hs' as (s & -> & _).
    destruct (bool_decide (g_id s = id)) eqn:E; simpl.
    - intros _. split; [reflexivity | lia].
    - apply bool_decide_eq_false in E. tauto. }
  split.
  { induction l as [|s l IH]; simpl; constructor; [|exact IH].
    destruct (bool_decide (g_id s = id)); simpl; lia. }
  rewrite map_map. apply map_ext. intros s.
  destruct (bool_decide (g_id s = id)) eqn:E; simpl; rewrite E;
    [|reflexivity].
  unfold with_status. simpl. f_equal. lia.
Qed.

Lemma revertOptimistic_markQueuedRunning l :
  Forall settled l -> revertOptimistic (markQueuedRunning l) = l.
Proof.
  intros H. unfold revertOptimistic, markQueuedRunning.
  rewrite map_map. rewrite <- (map_id l) at 2. apply map_ext_in.
  intros s Hs. rewrite Forall_forall in H.
  apply list_elem_of_In in Hs. destruct (H s Hs) as (Hq & Hr).
  destruct (bool_decide (g_status s = queued)) eqn:E.
  - apply bool_decide_eq_true in E. simpl.
    rewrite ?bool_decide_eq_true_2 by reflexivity. simpl.
    unfold with_status. simpl. destruct s; simpl in *.
    now rewrite E, (Hq E).
  - destruct (bool_decide (g_status s = running)) eqn:E'; [|reflexivity].
    apply bool_decide_eq_true in E'. apply Hr in E'.
    destruct (Z.leb_spec (g_progress s) 1); [lia | reflexivity].
Qed.

(** "Start all": without a task id nothing happens; when the request goes
    through, no slide is left queued, the ids stay and the page is
    generating; when it fails, the page is not generating and, if all
    slides were settled, the list is exactly what it was. *)
Theorem handleStartAllQueued_outcomes taskId l generating :
  handleStartAllQueued None true (l, generating) = (l, generating) /\
  handleStartAllQueued None false (l, generating) = (l, generating) /\
  (taskId <> [] ->
   let after := handleStartAllQueued (Some taskId) true (l, generating) in
   snd after = true /\
   map g_id (fst after) = map g_id l /\
   Forall (fun s => g_status s <> queued) (fst after)) /\
  (taskId <> [] -> Forall settled l ->
   handleStartAllQueued (Some taskId) false (l, generating) = (l, false)).
Proof.
  split; [reflexivity|]. split; [reflexivity|].
  assert (Htruthy : taskId <> [] -> truthy (or_else (Some taskId) []) = true).
  { intros H. destruct taskId; [congruence | reflexivity]. }
  split.
  - intros H. cbv zeta. unfold handleStartAllQueued. rewrite (Htruthy H).
    simpl. split; [reflexivity|]. unfold markQueuedRunning. split.
    + rewrite map_map. apply map_ext. intros s.
      now destruct (bool_decide (g_status s = queued)).
    + apply Forall_forall. intros s' Hs'.
      apply list_elem_of_fmap in Hs' as (s & -> & _).
      destruct (bool_decide (g_status s = queued)) eqn:E; simpl.
      * apply running_not_queued.
      * now apply bool_decide_eq_false in E.
  - intros H Hsettled. unfold handleStartAllQueued. rewrite (Htruthy H).
    simpl. now rewrite revertOptimistic_markQueuedRunning.
Qed.

Lemma handleStartAllQueued_outcomes_witness :
  handleStartAllQueued (Some (lit "t1")) false (numbered, true)
  = (numbered, false) /\
  map g_status
      (fst (handleStartAllQueued (Some (lit "t1")) true (numbered, false)))
  = [done; done; running].
Proof.
  destruct (handleStartAllQueued_outcomes (lit "t1") numbered true)
    as (_ & _ & _ & Hfail).
  split; [|reflexivity].
  apply Hfail; [discriminate|].
  repeat constructor; simpl; try discriminate; intros H; discriminate H.
Defined.

(** A failed "start all" takes back more than it did: a slide whose
    regeneration was just requested, with a progress of at most 1, is
    running when "start all" begins and is shown queued, progress 0, after
    it failed. *)
Theorem failed_start_demotes_regenerating taskId s generating :
  taskId <> [] -> (g_progress s <= 1)%Z ->
  handleStartAllQueued (Some taskId) false
    (handleRegenerate (g_id s) [s], generating)
  = ([with_status s queued 0], false).
Proof.
  intros Htask Hp.
  assert (Hreg : handleRegenerate (g_id s) [s]
                 = [with_status s running (Z.min (g_progress s) 5)]).
  { unfold handleRegenerate. simpl.
    now rewrite (bool_decide_eq_true_2 (g_id s = g_id s)). }
  rewrite Hreg. unfold handleStartAllQueued.
  destruct taskId as [|c t]; [congruence|].
  vm_compute or_else. cbn [truthy fst snd markQueuedRunning map].
  unfold with_status at 2 3. cbn [g_status].
  rewrite (bool_decide_eq_false_2 (running = queued))
    by apply running_not_queued.
  cbn [revertOptimistic map]. unfold with_status at 2 3.
  cbn [g_status g_progress].
  rewrite (bool_decide_eq_true_2 (running = running)) by reflexivity.
  destruct (Z.leb_spec (Z.min (g_progress s) 5) 1); [reflexivity | lia].
Qed.

Lemma failed_start_demotes_regenerating_witness :
  handleStartAllQueued (Some (lit "t1")) false
    (handleRegenerate (lit "7") [monitor_slide "7" "failed"], true)
  = ([monitor_slide "7" "queued"], false).
Proof.
  apply (failed_start_demotes_regenerating (lit "t1")
           (monitor_slide "7" "failed") true); [discriminate | simpl; lia].
Defined.

(** The progress bar: [pct] of a finite number is a whole number between 0
    and 100, grows with its argument, is the argument itself on the whole
    numbers from 0 to 100, and is within one half of any argument between
    0 and 100. *)
Theorem pct_clamps n :
  (0 <= pct n <= 100)%Z /\
  (forall m, (n <= m)%Q -> (pct n <= pct m)%Z) /\
  (forall k : Z, (0 <= k <= 100)%Z -> pct (inject_Z k) = k) /\
  ((0 <= n)%Q -> (n <= 100)%Q ->
   (inject_Z (pct n) - (1 # 2) <= n)%Q /\
   (n < inject_Z (pct n) + (1 # 2))%Q).
Proof.
  unfold pct, Math_round.
  split; [lia|].
  split.
  { intros m Hnm.
    assert (Qfloor (n + (1 # 2)) <= Qfloor (m + (1 # 2)))%Z.
    { apply Qfloor_resp_le. now apply Qplus_le_l. }
    lia. }
  split.
  { intros k Hk.
    assert (Hf : Qfloor (inject_Z k + (1 # 2)) = k).
    { unfold Qfloor, Qplus, inject_Z. simpl.
      rewrite Z.mul_1_r. change (Z.pos (1 * 2)) with 2%Z.
      replace (k * 2 + 1)%Z with (1 + k * 2)%Z by lia.
      rewrite Z.div_add by lia. reflexivity. }
    rewrite Hf. lia. }
  intros Hlo Hhi.
  pose proof (Qfloor_le (n + (1 # 2))) as Hle.
  pose proof (Qlt_floor (n + (1 # 2))) as Hlt.
  assert (H0 : (0 <= Qfloor (n + (1 # 2)))%Z).
  { change 0%Z with (Qfloor 0). apply Qfloor_resp_le.
    apply Qle_trans with n; [assumption|].
    rewrite <- (Qplus_0_r n) at 1. apply Qplus_le_r. discriminate. }
  assert (H100 : (Qfloor (n + (1 # 2)) <= 100)%Z).
  { change 100%Z with (Qfloor (100 + (1 # 2))). apply Qfloor_resp_le.
    now apply Qplus_le_l. }
  replace (Z.max 0 (Z.min 100 (Qfloor (n + (1 # 2)))))
    with (Qfloor (n + (1 # 2))) by lia.
  rewrite inject_Z_plus in Hlt. change (inject_Z 1) with 1%Q in Hlt.
  split; lra.
Qed.

Lemma pct_clamps_witness :
  pct (5 # 2) = 3%Z /\ pct (251 # 2) = 100%Z /\ pct (- (7 # 1)) = 0%Z /\
  (inject_Z (pct (149 # 4)) - (1 # 2) <= 149 # 4)%Q /\
  (pct (5 # 2) <= pct (7 # 2))%Z /\ pct (inject_Z 42) = 42%Z.
Proof.
  destruct (pct_clamps (149 # 4)) as (_ & _ & _ & Hnear).
  destruct (pct_clamps (5 # 2)) as (_ & Hmono & Hid & _).
  split; [reflexivity|]. split; [reflexivity|]. split; [reflexivity|].
  split; [apply Hnear; discriminate|].
  split; [apply Hmono; discriminate|].
  apply Hid. lia.
Defined.

End GenerationMore.

(* ===================================================================== *)
(** * Loading the monitor and the editor from plan and progress *)
(* ===================================================================== *)

Module LoadingFacts.

Import SlideEditorPage GenerationPage GenerationHandlers SlideEditorState.
Import Samples SlideIdFacts Notions.

Lemma mapi_from_lookup {A B} (f : A -> nat -> B) (l : list A) : forall k i,
  mapi_from f k l !! i = (fun x => f x (k + i)) <$> l !! i.
Proof.
  induction l as [|x l IH]; intros k i; [reflexivity|].
  destruct i as [|i]; simpl.
  - now rewrite Nat.add_0_r.
  - rewrite IH. now replace (S k + i) with (k + S i) by lia.
Qed.

Lemma mapi_lookup {A B} (f : A -> nat -> B) (l : list A) i :
  mapi f l !! i = (fun x => f x i) <$> l !! i.
Proof. apply mapi_from_lookup. Qed.

Lemma mapi_length {A B} (f : A -> nat -> B) (l : list A) :
  length (mapi f l) = length l.
Proof. apply SlideEditorFacts.mapi_from_length. Qed.

Lemma map_mapi_from {A B C} (g : B -> C) (f : A -> nat -> B) (l : list A) :
  forall k, map g (mapi_from f k l) = mapi_from (fun x i => g (f x i)) k l.
Proof. induction l as [|x l IH]; intros k; simpl; [|rewrite IH]; reflexivity. Qed.


(** The map of the monitor holds, for each id, the last progress entry
    with that id. *)
Lemma progressMap_lookup l id :
  progressMap l !! id
  = List.find (fun p => bool_decide (g_id p = id)) (rev l).
Proof.
  unfold progressMap. induction l as [|x l IH] using rev_ind; [reflexivity|].
  rewrite foldl_snoc, rev_unit. simpl.
  rewrite lookup_insert. destruct (decide (g_id x = id)) as [H|H].
  - now rewrite bool_decide_eq_true_2.
  - now rewrite bool_decide_eq_false_2.
Qed.




(** The monitor loaded from a plan with slides: one entry per slide of the
    plan, in plan order, under the slide's id or [slide_{i+1}]; its status
    and progress are those of the last progress entry with that id, and
    queued and 0 when there is none (or when its status is empty); progress
    entries of other ids are not shown. *)
Theorem monitor_loadData_from_plan pl progress current :
  0 < length (slides pl) ->
  let l := GenerationHandlers.loadData (Some pl) progress current in
  length l = length (slides pl) /\
  (forall i,
     g_id <$> l !! i = (fun s => plan_id s i) <$> slides pl !! i) /\
  (forall i s r,
     slides pl !! i = Some s -> l !! i = Some r ->
     match List.find (fun p => bool_decide (g_id p = plan_id s i))
                     (rev (default [] progress)) with
     | Some p => g_status r = or_else (Some (g_status p)) queued /\
                 g_progress r = g_progress p
     | None => g_status r = queued /\ g_progress r = 0%Z
     end).
Proof.
  intros Hlen. cbv zeta. unfold GenerationHandlers.loadData.
  destruct (Nat.ltb_spec 0 (length (slides pl))); [|lia].
  split; [apply mapi_length|].
  split.
  { intros i. rewrite mapi_lookup.
    destruct (slides pl !! i); reflexivity. }
  intros i s r Hs Hr. rewrite mapi_lookup, Hs in Hr. simpl in Hr.
  injection Hr as <-. unfold slideWithProgress. cbv zeta. simpl.
  fold (plan_id s i). rewrite progressMap_lookup.
  destruct (List.find _ _); simpl; split; reflexivity.
Qed.

Lemma monitor_loadData_from_plan_witness :
  map g_status
      (GenerationHandlers.loadData (Some trio)
         (Some [monitor_slide "s2" "running"; monitor_slide "zz" "done";
                monitor_slide "s2" "failed"]) [])
  = [queued; failed; queued] /\
  length (GenerationHandlers.loadData (Some trio) None numbered) = 3.
Proof.
  destruct (monitor_loadData_from_plan trio None numbered) as (Hlen & _);
    [simpl; lia|].
  split; [reflexivity | exact Hlen].
Defined.

(** Without a plan, or with a plan without slides, the monitor shows the
    progress entries as they are; when there are none either, it keeps what
    it showed. *)
Theorem monitor_loadData_without_plan plan progress current :
  (forall pl, plan = Some pl -> slides pl = []) ->
  GenerationHandlers.loadData plan progress current
  = match progress with
    | Some (p :: ps) => p :: ps
    | _ => current
    end.
Proof.
  intros H. unfold GenerationHandlers.loadData.
  destruct plan as [pl|]; [|reflexivity].
  now rewrite (H pl eq_refl).
Qed.

Lemma monitor_loadData_without_plan_witness :
  GenerationHandlers.loadData None (Some numbered) mixed = numbered /\
  GenerationHandlers.loadData (Some PlanEditorPage.INITIAL_PRESENTATION)
                              (Some []) mixed = mixed.
Proof.
  split; rewrite monitor_loadData_without_plan; try reflexivity.
  - intros pl H. discriminate H.
  - intros pl [= <-]. reflexivity.
Defined.



(** With two progress entries under one id the pages differ: the monitor
    shows the last one, the editor the first. *)
Example pages_differ_on_repeated_ids :
  let progress := Some [monitor_slide "s1" "running";
                        monitor_slide "s1" "done"] in
  map g_status (GenerationHandlers.loadData (Some trio) progress [])
  = [done; queued; queued] /\
  map generationStatus (SlideEditorState.loadData (Some trio) progress [])
  = [running; queued; queued].
Proof. split; reflexivity. Qed.

Lemma filter_ids_distinct (p : SlideGenerationStatus -> bool) l :
  NoDup (map g_id l) -> NoDup (map g_id (List.filter p l)).
Proof.
  induction l as [|x l IH]; intros Hnd; [constructor|].
  simpl in Hnd. apply NoDup_cons in Hnd as (Hx & Hnd).
  simpl. destruct (p x); [|now apply IH].
  simpl. apply NoDup_cons. split; [|now apply IH].
  intros Hin. apply Hx.
  apply list_elem_of_fmap in Hin as (y & Hy & Hin).
  apply list_elem_of_In, filter_In in Hin as (Hin & _).
  apply list_elem_of_fmap. exists y.
  split; [assumption | now apply list_elem_of_In].
Qed.

(** The handlers of the monitor keep the ids of its slides pairwise
    distinct: deleting, regenerating and starting leave distinct ids
    distinct, and so does adding a slide when every id converts to an
    integer below [2^53 - 1]. *)
Theorem monitor_ids_stay_distinct l :
  NoDup (map g_id l) ->
  (forall id, NoDup (map g_id (handleDelete id l))) /\
  (forall id, NoDup (map g_id (handleRegenerate id l))) /\
  (forall taskId started generating,
     NoDup (map g_id (fst (handleStartAllQueued taskId started
                             (l, generating))))) /\
  (Forall (fun s => integer_below (2 ^ 53 - 1) (Number (g_id s))) l ->
   NoDup (map g_id (handleAddSlide l))).
Proof.
  intros Hnd.
  assert (Hmark : forall k, map g_id (markQueuedRunning k) = map g_id k).
  { intros k. unfold markQueuedRunning. rewrite map_map. apply map_ext.
    intros s. now destruct (bool_decide (g_status s = queued)). }
  assert (Hrev : forall k, map g_id (revertOptimistic k) = map g_id k).
  { intros k. unfold revertOptimistic. rewrite map_map. apply map_ext.
    intros s. now destruct (_ && _)%bool. }
  split; [intros id; now apply filter_ids_distinct|].
  split.
  { intros id. rewrite GenerationMore.handleRegenerate_ids. exact Hnd. }
  split.
  { intros taskId started generating. unfold handleStartAllQueued.
    destruct (truthy _); [|exact Hnd].
    destruct started; simpl; rewrite ?Hrev, Hmark; exact Hnd. }
  intros Hall.
  unfold handleAddSlide. cbv zeta. rewrite map_app. simpl.
  apply NoDup_app. split; [exact Hnd|].
  split; [|apply NoDup_singleton].
  intros x Hx Hin. apply list_elem_of_singleton in Hin as ->.
  now apply (nextId_fresh l).
Qed.

Lemma monitor_ids_stay_distinct_witness :
  NoDup (map g_id (handleDelete (lit "2") numbered)) /\
  NoDup (map g_id (handleAddSlide numbered)).
Proof.
  assert (Hnd : NoDup (map g_id numbered)).
  { simpl. repeat constructor; intros H;
      repeat (apply elem_of_cons in H as [H|H]; [discriminate|]);
      inversion H. }
  destruct (monitor_ids_stay_distinct numbered Hnd) as (Hdel & _ & _ & Hadd).
  split; [apply Hdel|].
  apply Hadd. repeat constructor.
  - exists 1%Z. split; [vm_compute; reflexivity | reflexivity].
  - exists 2%Z. split; [vm_compute; reflexivity | reflexivity].
  - exists 3%Z. split; [vm_compute; reflexivity | reflexivity].
Defined.

End LoadingFacts.

(* ===================================================================== *)
(** * The slide editor: items, current slide, navigation, polling *)
(* ===================================================================== *)

Module SlideEditorMore.

Import SlideEditorPage SlideEditorState SlideEditorFacts JSFacts MoreSamples.

Lemma String_of_nat_inj n m : String_of_nat n = String_of_nat m -> n = m.
Proof.
  unfold String_of_nat. intros H. apply String_of_N_inj in H. lia.
Qed.

Lemma content_id_inj index i j :
  content_id index i = content_id index j -> i = j.
Proof.
  unfold content_id. intros H.
  apply app_inv_head in H. apply app_inv_head in H.
  apply app_inv_head in H. now apply String_of_nat_inj.
Qed.

Lemma mapi_from_seq {A B} (g : nat -> B) (l : list A) : forall k,
  mapi_from (fun _ i => g i) k l = map g (seq k (length l)).
Proof.
  induction l as [|x l IH]; intros k; simpl; [|rewrite IH]; reflexivity.
Qed.

Lemma content_ids_distinct index n :
  NoDup (map (content_id index) (seq 0 n)).
Proof.
  apply (NoDup_fmap_2_strong (content_id index)); [|apply NoDup_seq].
  intros i j _ _. apply content_id_inj.
Qed.

Lemma contentItems_ids slide index :
  map item_id (contentItems slide index)
  = map (content_id index) (seq 0 (length (contentItems slide index))) /\
  map item_label (contentItems slide index)
  = map (fun i => point_label ++ String_of_nat (i + 1))
        (seq 0 (length (contentItems slide index))).
Proof.
  rewrite contentItems_length. unfold contentItems, mapi.
  destruct (slide_content slide) as [s|items|];
    [| |split; reflexivity];
    rewrite !LoadingFacts.map_mapi_from; simpl;
    split; apply mapi_from_seq.
Qed.

Lemma converted_ids slide index :
  map item_id (d_content (convertToDetailedSlide slide index))
  = map (content_id index)
        (seq 0 (length (d_content (convertToDetailedSlide slide index)))).
Proof.
  unfold convertToDetailedSlide. simpl.
  destruct (Nat.ltb_spec 0 (length (contentItems slide index)));
    [apply contentItems_ids | reflexivity].
Qed.

Lemma converted_ids_distinct slide index :
  NoDup (map item_id (d_content (convertToDetailedSlide slide index))).
Proof. rewrite converted_ids. apply content_ids_distinct. Qed.

(** The items of a converted slide are numbered: the item [i] has the id
    [c{index}_{i}] and the label [要点 {i+1}], so that the ids of the items
    of one slide are pairwise distinct. *)
Theorem converted_items_numbered slide index :
  let items := d_content (convertToDetailedSlide slide index) in
  map item_id items = map (content_id index) (seq 0 (length items)) /\
  map item_label items
  = map (fun i => point_label ++ String_of_nat (i + 1))
        (seq 0 (length items)) /\
  NoDup (map item_id items).
Proof.
  cbv zeta.
  assert (H : map item_id (d_content (convertToDetailedSlide slide index))
              = map (content_id index)
                    (seq 0 (length (d_content
                                      (convertToDetailedSlide slide index))))
              /\ map item_label (d_content (convertToDetailedSlide slide index))
              = map (fun i => point_label ++ String_of_nat (i + 1))
                    (seq 0 (length (d_content
                                      (convertToDetailedSlide slide index))))).
  { unfold convertToDetailedSlide. simpl.
    destruct (Nat.ltb_spec 0 (length (contentItems slide index)));
      [apply contentItems_ids | split; reflexivity]. }
  destruct H as (Hid & Hlabel).
  split; [exact Hid|]. split; [exact Hlabel|].
  rewrite Hid. apply content_ids_distinct.
Qed.

Lemma converted_has_item slide index :
  1 <= length (d_content (convertToDetailedSlide slide index)).
Proof.
  unfold convertToDetailedSlide. simpl.
  destruct (contentItems slide index) as [|x l]; simpl; lia.
Qed.

(** ** The current slide and its index *)

Lemma findIndex_from_find {A} (p : A -> bool) (l : list A) : forall k,
  match List.find p l with
  | Some x =>
      exists i, findIndex_from p k l = (k + Z.of_nat i)%Z /\
                l !! i = Some x /\ p x = true
  | None => findIndex_from p k l = (-1)%Z
  end.
Proof.
  induction l as [|x l IH]; intros k; [reflexivity|].
  simpl. destruct (p x) eqn:Hx.
  - exists 0. split; [lia|]. split; [reflexivity | assumption].
  - specialize (IH (k + 1)%Z). destruct (List.find p l) as [y|]; [|exact IH].
    destruct IH as (i & Hi & Hl & Hy). exists (S i).
    split; [lia|]. split; assumption.
Qed.

Lemma find_sid_none (slides : list SlideWithGeneration) id :
  List.find (fun s => bool_decide (sid s = id)) slides = None
  <-> id ∉ map sid slides.
Proof.
  induction slides as [|s l IH]; simpl.
  - split; [intros _ H; inversion H | reflexivity].
  - destruct (decide (sid s = id)) as [H|H].
    + rewrite bool_decide_eq_true_2 by assumption.
      split; [discriminate|]. intros Hn. exfalso. apply Hn. rewrite H. left.
    + rewrite bool_decide_eq_false_2 by assumption. rewrite IH.
      split; intros Hn Hin.
      * apply elem_of_cons in Hin as [Hin|Hin]; [congruence | tauto].
      * apply Hn. now right.
Qed.

Lemma current_found slides currentSlideId :
  currentSlideId ∈ map sid slides ->
  exists s i,
    currentSlide slides currentSlideId = Some s /\
    sid s = currentSlideId /\
    currentIdx slides currentSlideId = Z.of_nat i /\
    slides !! i = Some s.
Proof.
  intros Hin.
  pose proof (findIndex_from_find
                (fun s => bool_decide (sid s = currentSlideId)) slides 0)
    as Hidx.
  pose proof (find_sid_none slides currentSlideId) as Hnone.
  unfold currentSlide, currentIdx, findIndex.
  destruct (List.find _ slides) as [s|] eqn:Hfind.
  - destruct Hidx as (i & Hi & Hl & Hp).
    exists s, i. split; [reflexivity|].
    split; [now apply bool_decide_eq_true in Hp|].
    split; [lia | assumption].
  - exfalso. now apply (proj1 Hnone).
Qed.

Lemma current_missing slides currentSlideId :
  currentSlideId ∉ map sid slides ->
  currentSlide slides currentSlideId = head slides /\
  currentIdx slides currentSlideId = (-1)%Z.
Proof.
  intros Hnot.
  pose proof (findIndex_from_find
                (fun s => bool_decide (sid s = currentSlideId)) slides 0)
    as Hidx.
  pose proof (find_sid_none slides currentSlideId) as Hnone.
  unfold currentSlide, currentIdx, findIndex.
  destruct (List.find _ slides) as [s|] eqn:Hfind.
  - apply Hnone in Hnot. discriminate.
  - split; [reflexivity | exact Hidx].
Qed.

(** The current slide and the current index come from two lookups: when a
    slide has the current id, the current slide is the first such slide and
    the current index is its index; when none has, the current slide is the
    first slide of the list while the current index is -1, and the preview
    of that slide, once it is done, is asked for under the index -1. *)
Theorem current_slide_and_index taskId slides currentSlideId :
  (currentSlideId ∈ map sid slides ->
   exists s i,
     currentSlide slides currentSlideId = Some s /\
     sid s = currentSlideId /\
     currentIdx slides currentSlideId = Z.of_nat i /\
     slides !! i = Some s) /\
  (currentSlideId ∉ map sid slides ->
   currentSlide slides currentSlideId = head slides /\
   currentIdx slides currentSlideId = (-1)%Z /\
   (taskId <> [] ->
    (exists s, head slides = Some s /\
               generationStatus s = GenerationPage.done) ->
    htmlRequest (Some taskId) slides currentSlideId
    = Some (lit "/api/tasks/" ++ taskId ++ lit "/slides/-1/html"))).
Proof.
  split; [apply current_found|].
  intros Hnot. destruct (current_missing _ _ Hnot) as (Hcur & Hidx).
  split; [exact Hcur|]. split; [exact Hidx|].
  intros Htask (s & Hs & Hdone). unfold htmlRequest.
  rewrite Hcur, Hs, Hidx.
  destruct taskId as [|c t]; [congruence|]. cbn [truthy andb].
  rewrite bool_decide_eq_true_2 by assumption. reflexivity.
Qed.

Lemma current_slide_and_index_witness :
  (exists s i,
     currentSlide deck (lit "b") = Some s /\
     sid s = lit "b" /\
     currentIdx deck (lit "b") = Z.of_nat i /\
     deck !! i = Some s) /\
  currentIdx deck (lit "gone") = (-1)%Z /\
  htmlRequest (Some (lit "t1")) deck (lit "gone")
  = Some (lit "/api/tasks/t1/slides/-1/html").
Proof.
  split.
  - apply (current_slide_and_index [] deck (lit "b")).
    simpl. apply elem_of_cons. right. apply elem_of_cons. left. reflexivity.
  - destruct (current_slide_and_index (lit "t1") deck (lit "gone"))
      as (_ & H).
    destruct H as (_ & Hidx & Hreq).
    { intros H. repeat (apply elem_of_cons in H as [H|H]; [discriminate|]).
      inversion H. }
    split; [exact Hidx|]. apply Hreq; [discriminate|].
    eexists. split; reflexivity.
Defined.

End SlideEditorMore.

(* ===================================================================== *)
(** * The slide editor: the footer buttons and the polling update *)
(* ===================================================================== *)

Module NavigationFacts.

Import SlideEditorPage SlideEditorState SlideEditorMore MoreSamples.

Lemma currentIdx_at slides i s :
  NoDup (map sid slides) -> slides !! i = Some s ->
  currentIdx slides (sid s) = Z.of_nat i.
Proof.
  intros Hnd Hs.
  destruct (current_found slides (sid s)) as (s' & i' & _ & Hid & Hidx & Hs').
  { apply list_elem_of_fmap. exists s. split; [reflexivity|].
    eapply list_elem_of_lookup_2. eassumption. }
  rewrite Hidx. f_equal.
  apply (NoDup_lookup (map sid slides) i' i (sid s)); [assumption| |].
  - change (map sid slides) with (sid <$> slides).
    now rewrite list_lookup_fmap, Hs', <- Hid.
  - change (map sid slides) with (sid <$> slides).
    now rewrite list_lookup_fmap, Hs.
Qed.

(** With pairwise distinct slide ids the footer buttons walk the list:
    "next" on the slide [i] selects the slide [i+1] and "previous" there
    selects the slide [i] again; "previous" is disabled on the first slide
    and "next" on the last. *)
Theorem footer_walks_the_list slides :
  NoDup (map sid slides) ->
  (forall i s s',
     slides !! i = Some s -> slides !! S i = Some s' ->
     goNext slides (sid s) = Selected (sid s') /\
     goPrevious slides (sid s') = Selected (sid s)) /\
  (forall s, slides !! 0 = Some s -> goPrevious slides (sid s) = Disabled) /\
  (forall s, slides !! (length slides - 1) = Some s ->
             goNext slides (sid s) = Disabled).
Proof.
  intros Hnd. split; [|split].
  - intros i s s' Hs Hs'.
    pose proof (lookup_lt_Some _ _ _ Hs') as Hlen.
    unfold goNext, goPrevious.
    rewrite (currentIdx_at slides i s), (currentIdx_at slides (S i) s')
      by assumption.
    split.
    + destruct (Z.eqb_spec (Z.of_nat i) (Z.of_nat (length slides) - 1));
        [lia|].
      unfold at_index. destruct (Z.ltb_spec (Z.of_nat i + 1) 0); [lia|].
      replace (Z.to_nat (Z.of_nat i + 1)) with (S i) by lia.
      now rewrite Hs'.
    + destruct (Z.eqb_spec (Z.of_nat (S i)) 0); [lia|].
      unfold at_index. destruct (Z.ltb_spec (Z.of_nat (S i) - 1) 0); [lia|].
      replace (Z.to_nat (Z.of_nat (S i) - 1)) with i by lia.
      now rewrite Hs.
  - intros s Hs. unfold goPrevious.
    now rewrite (currentIdx_at slides 0 s).
  - intros s Hs. pose proof (lookup_lt_Some _ _ _ Hs) as Hlen.
    unfold goNext. rewrite (currentIdx_at slides _ s Hnd Hs).
    destruct (Z.eqb_spec (Z.of_nat (length slides - 1))
                         (Z.of_nat (length slides) - 1)); [reflexivity|lia].
Qed.

Lemma deck_ids_distinct : NoDup (map sid deck).
Proof.
  simpl. repeat constructor; intros H;
    repeat (apply elem_of_cons in H as [H|H]; [discriminate|]);
    inversion H.
Qed.

Lemma footer_walks_the_list_witness :
  goNext deck (lit "a") = Selected (lit "b") /\
  goPrevious deck (lit "b") = Selected (lit "a") /\
  goPrevious deck (lit "a") = Disabled /\
  goNext deck (lit "c") = Disabled.
Proof.
  destruct (footer_walks_the_list deck deck_ids_distinct)
    as (Hwalk & Hfirst & Hlast).
  destruct (Hwalk 0 (editor_slide "a" "done") (editor_slide "b" "running"))
    as (Hn & Hp); [reflexivity | reflexivity |].
  split; [exact Hn|]. split; [exact Hp|].
  split.
  - apply (Hfirst (editor_slide "a" "done")). reflexivity.
  - apply (Hlast (editor_slide "c" "queued")). reflexivity.
Defined.

(** The footer is shown when there are slides.  When none of them has the
    current id, "previous" is enabled and its click reads the id of
    [slides[-2]], a TypeError; "next" selects the first slide. *)
Theorem footer_on_unknown_id s rest currentSlideId :
  currentSlideId ∉ map sid (s :: rest) ->
  goPrevious (s :: rest) currentSlideId = TypeError /\
  goNext (s :: rest) currentSlideId = Selected (sid s).
Proof.
  intros Hnot.
  destruct (current_missing _ _ Hnot) as (_ & Hidx).
  unfold goPrevious, goNext. rewrite Hidx. split; [reflexivity|].
  destruct (Z.eqb_spec (-1) (Z.of_nat (length (s :: rest)) - 1)) as [e|_].
  - simpl in e. lia.
  - reflexivity.
Qed.

Lemma footer_on_unknown_id_witness :
  goPrevious deck (lit "gone") = TypeError /\
  goNext deck (lit "gone") = Selected (lit "a").
Proof.
  apply (footer_on_unknown_id (editor_slide "a" "done")
           [editor_slide "b" "running"; editor_slide "c" "queued"]
           (lit "gone")).
  simpl. intros H.
  repeat (apply elem_of_cons in H as [H|H]; [discriminate|]).
  inversion H.
Defined.

(** With a repeated id "next" does not get past the repetition: from the
    first [b] it selects the second [b], whose index is again that of the
    first. *)
Example footer_stuck_on_twins :
  goNext deck_with_twins (lit "b") = Selected (lit "b") /\
  currentIdx deck_with_twins (lit "b") = 1%Z.
Proof. split; reflexivity. Qed.

(** The polling update changes statuses only: the slides stay in place
    with their content, a slide takes the status of the first progress
    entry with its id and keeps its status when there is none, and
    applying the same progress again changes nothing. *)
Theorem applyProgress_changes_status_only progress slides :
  map base (applyProgress progress slides) = map base slides /\
  map htmlContent (applyProgress progress slides) = map htmlContent slides /\
  (forall i,
     generationStatus <$> applyProgress progress slides !! i
     = (fun s =>
          match List.find (fun p => bool_decide (g_id p = sid s)) progress with
          | Some p => g_status p
          | None => generationStatus s
          end) <$> slides !! i) /\
  applyProgress progress (applyProgress progress slides)
  = applyProgress progress slides.
Proof.
  unfold applyProgress.
  split.
  { rewrite map_map. apply map_ext. intros s.
    now destruct (List.find _ progress). }
  split.
  { rewrite map_map. apply map_ext. intros s.
    now destruct (List.find _ progress). }
  split.
  { intros i. change (map ?f ?l) with (f <$> l).
    rewrite list_lookup_fmap. destruct (slides !! i) as [s|]; [|reflexivity].
    simpl. now destruct (List.find _ progress). }
  rewrite map_map. apply map_ext. intros s. unfold sid.
  destruct (List.find (fun p => bool_decide (g_id p = d_id (base s)))
                      progress) as [p|] eqn:Hp; simpl; rewrite Hp;
    reflexivity.
Qed.

End NavigationFacts.

(* ===================================================================== *)
(** * The slide detail editor: content items *)
(* ===================================================================== *)

Module SlideDetailFacts.

Import SlideEditorPage SlideDetailEditor SlideEditorMore MoreSamples.

Lemma filter_items_other id (l : list SlideContentItem) :
  (forall item, item ∈ l -> item_id item <> id) ->
  List.filter (fun item => negb (bool_decide (item_id item = id))) l = l.
Proof.
  induction l as [|x l IH]; intros H; [reflexivity|].
  simpl. rewrite bool_decide_eq_false_2 by (apply H; left).
  simpl. f_equal. apply IH. intros item Hin. apply H. now right.
Qed.

Lemma filter_items_keeps id (l : list SlideContentItem) item :
  item ∈ l -> item_id item <> id ->
  1 <= length (List.filter
                 (fun item => negb (bool_decide (item_id item = id))) l).
Proof.
  intros Hin Hid.
  assert (H : In item (List.filter
                         (fun item => negb (bool_decide (item_id item = id)))
                         l)).
  { apply filter_In. split; [now apply list_elem_of_In|].
    now rewrite bool_decide_eq_false_2. }
  destruct (List.filter _ l); [inversion H | simpl; lia].
Qed.

(** Removing a content item never touches the other fields of the slide
    and never removes the only item; with pairwise distinct item ids the
    slide keeps at least one item whatever is removed, and that is the case
    for every slide [convertToDetailedSlide] returns. *)
Theorem handleRemoveContentItem_keeps_an_item slide id :
  let slide' := after slide (handleRemoveContentItem slide id) in
  d_id slide' = d_id slide /\ d_title slide' = d_title slide /\
  d_subtitle slide' = d_subtitle slide /\ d_layout slide' = d_layout slide /\
  (length (d_content slide) <= 1 -> slide' = slide) /\
  (forall item, item ∈ d_content slide' <->
                item ∈ d_content slide /\
                (1 < length (d_content slide) -> item_id item <> id)) /\
  (NoDup (map item_id (d_content slide)) -> 1 <= length (d_content slide) ->
   1 <= length (d_content slide')) /\
  (forall source index,
     slide = convertToDetailedSlide source index ->
     1 <= length (d_content slide')).
Proof.
  cbv zeta. unfold handleRemoveContentItem, after.
  assert (Hdistinct :
            NoDup (map item_id (d_content slide)) ->
            1 <= length (d_content slide) ->
            1 <= length
                   (d_content
                      (default slide
                         (if length (d_content slide) <=? 1 then None
                          else Some (with_content slide
                                 (List.filter
                                    (fun item =>
                                       negb (bool_decide (item_id item = id)))
                                    (d_content slide))))))).
  { intros Hnd Hlen.
    destruct (Nat.leb_spec (length (d_content slide)) 1); simpl;
      [assumption|].
    destruct (d_content slide) as [|a [|b l]] eqn:Hc; simpl in *; try lia.
    apply NoDup_cons in Hnd as (Hab & _).
    destruct (decide (item_id a = id)) as [Ha|Ha].
    - apply (filter_items_keeps id (a :: b :: l) b); [right; left|].
      intros Hb. apply Hab. rewrite Ha, <- Hb. left.
    - apply (filter_items_keeps id (a :: b :: l) a); [left | assumption]. }
  do 4 (split; [now destruct (length (d_content slide) <=? 1)|]).
  destruct (Nat.leb_spec (length (d_content slide)) 1) as [Hle|Hgt];
    cbn [default from_option with_content d_content].
  - split; [reflexivity|]. split; [|split].
    + intros item. split; [intros H0; split; [exact H0 | lia] | tauto].
    + intros _ H0. exact H0.
    + intros source index ->. apply converted_has_item.
  - split; [lia|]. split; [|split].
    + intros item. split.
      * intros H0. apply list_elem_of_In, filter_In in H0 as (H0 & H1).
        split; [now apply list_elem_of_In|]. intros _.
        apply negb_true_iff, bool_decide_eq_false in H1. exact H1.
      * intros (Hin & Hid). apply list_elem_of_In, filter_In.
        split; [now apply list_elem_of_In|].
        rewrite bool_decide_eq_false_2; [reflexivity | now apply Hid].
    + intros Hnd Hlen. specialize (Hdistinct Hnd Hlen).
      destruct (Nat.leb_spec (length (d_content slide)) 1); [lia|].
      exact Hdistinct.
    + intros source index Hs.
      assert (Hnd : NoDup (map item_id (d_content slide))).
      { rewrite Hs. apply converted_ids_distinct. }
      specialize (Hdistinct Hnd ltac:(lia)).
      destruct (Nat.leb_spec (length (d_content slide)) 1); [lia|].
      exact Hdistinct.
Qed.

Lemma handleRemoveContentItem_keeps_an_item_witness :
  map item_value
      (d_content (after converted
                    (handleRemoveContentItem converted (lit "c4_0"))))
  = [lit "beta"] /\
  1 <= length (d_content
                 (after converted
                    (handleRemoveContentItem converted (lit "c4_1")))).
Proof.
  destruct (handleRemoveContentItem_keeps_an_item converted (lit "c4_1"))
    as (_ & _ & _ & _ & _ & _ & _ & H).
  split; [reflexivity|]. apply (H Samples.bare_slide 4). reflexivity.
Defined.

(** The decimal of a number begins with a digit. *)
Lemma String_of_N_digit n :
  exists c rest, String_of_N n = c :: rest /\ (48 <= c <= 57)%N.
Proof.
  unfold String_of_N.
  assert (H : N.to_uint n <> Decimal.Nil).
  { destruct n; [discriminate|]. apply DecimalPos.Unsigned.to_uint_nonnil. }
  destruct (N.to_uint n); [congruence|..]; simpl; do 2 eexists;
    (split; [reflexivity | lia]).
Qed.

Lemma newItem_id_not_converted now index i :
  item_id (newItem now) <> content_id index i.
Proof.
  unfold newItem, content_id, String_of_nat. simpl.
  destruct (String_of_N_digit (N.of_nat index)) as (c & rest & -> & Hc).
  simpl. intros H. injection H as H _. lia.
Qed.

(** An item added in the editor can be removed again, which restores the
    slide, when the slide had an item before and none under the id of the
    new item; that is the case for every slide [convertToDetailedSlide]
    returns, whatever the clock reads. *)
Theorem add_then_remove_content_item slide now :
  let added := after slide (handleAddContentItem slide now) in
  d_content added = d_content slide ++ [newItem now] /\
  (1 <= length (d_content slide) ->
   (forall item, item ∈ d_content slide ->
                 item_id item <> item_id (newItem now)) ->
   after added (handleRemoveContentItem added (item_id (newItem now)))
   = slide) /\
  (forall source index,
     slide = convertToDetailedSlide source index ->
     after added (handleRemoveContentItem added (item_id (newItem now)))
     = slide).
Proof.
  cbv zeta.
  assert (Hundo :
            1 <= length (d_content slide) ->
            (forall item, item ∈ d_content slide ->
                          item_id item <> item_id (newItem now)) ->
            after (after slide (handleAddContentItem slide now))
                  (handleRemoveContentItem
                     (after slide (handleAddContentItem slide now))
                     (item_id (newItem now)))
            = slide).
  { intros Hlen Hfresh.
    unfold handleAddContentItem, handleRemoveContentItem, after. simpl.
    rewrite length_app. simpl.
    destruct (Nat.leb_spec (length (d_content slide) + 1) 1); [lia|].
    simpl. unfold with_content. simpl.
    rewrite List.filter_app, filter_items_other by assumption. simpl.
    rewrite bool_decide_eq_true_2 by reflexivity. simpl.
    rewrite app_nil_r. now destruct slide. }
  split; [reflexivity|]. split; [exact Hundo|].
  intros source index Hs. apply Hundo.
  - rewrite Hs. apply converted_has_item.
  - intros item Hin Heq.
    pose proof (converted_ids source index) as Hids.
    rewrite <- Hs in Hids.
    assert (Hid : item_id item ∈ map item_id (d_content slide)).
    { apply list_elem_of_fmap. exists item. split; [reflexivity|assumption]. }
    rewrite Hids in Hid. apply list_elem_of_fmap in Hid as (i & Hi & _).
    apply (newItem_id_not_converted now index i). congruence.
Qed.

Lemma add_then_remove_content_item_witness :
  let added := after converted (handleAddContentItem converted 1700000000000) in
  length (d_content added) = 3 /\
  after added (handleRemoveContentItem added (lit "c-1700000000000"))
  = converted.
Proof.
  destruct (add_then_remove_content_item converted 1700000000000)
    as (_ & _ & H).
  split; [reflexivity|]. apply (H Samples.bare_slide 4). reflexivity.
Defined.

(** Editing an item changes the named field of the items with that id and
    nothing else: the items keep their place and their ids, the other field
    and the other fields of the slide stay. *)
Theorem handleContentItemChange_in_place slide id field value :
  let slide' := after slide (handleContentItemChange slide id field value) in
  map item_id (d_content slide') = map item_id (d_content slide) /\
  d_id slide' = d_id slide /\ d_title slide' = d_title slide /\
  d_subtitle slide' = d_subtitle slide /\ d_layout slide' = d_layout slide /\
  (forall i,
     d_content slide' !! i
     = (fun item => if decide (item_id item = id)
                    then set_field item field value else item)
         <$> d_content slide !! i) /\
  match field with
  | FLabel => map item_value (d_content slide')
              = map item_value (d_content slide)
  | FValue => map item_label (d_content slide')
              = map item_label (d_content slide)
  end.
Proof.
  cbv zeta. unfold handleContentItemChange, after. simpl.
  split.
  { rewrite map_map. apply map_ext. intros item.
    destruct (bool_decide (item_id item = id)); [|reflexivity].
    now destruct field. }
  repeat (split; [reflexivity|]).
  split.
  { intros i. change (map ?f ?l) with (f <$> l).
    rewrite list_lookup_fmap.
    destruct (d_content slide !! i) as [item|]; [|reflexivity].
    simpl. f_equal. destruct (decide (item_id item = id)) as [H|H].
    - now rewrite bool_decide_eq_true_2.
    - now rewrite bool_decide_eq_false_2. }
  destruct field; rewrite map_map; apply map_ext; intros item;
    now destruct (bool_decide (item_id item = id)).
Qed.

End SlideDetailFacts.

(* ===================================================================== *)
(** * The request helper: headers *)
(* ===================================================================== *)

Module ApiFacts.

Import Api.

(** The request [fetchAPI] sends carries the method, the body and every
    other property of the caller's options unchanged.  Its headers are the
    JSON content type alone when the options have no [headers]; when they
    have, the headers sent are exactly the caller's: the merged headers are
    overwritten by the spread of the options, and the content type is sent
    only if the caller's headers name it. *)
Theorem fetchAPI_headers options init :
  request_init options = Some init ->
  (forall key, key <> "headers"%string ->
     init !! key = default ∅ options !! key) /\
  (default ∅ options !! "headers"%string = None ->
   init !! "headers"%string = Some (VRecord default_headers)) /\
  (forall given, default ∅ options !! "headers"%string = Some given ->
   init !! "headers"%string = Some given).
Proof.
  unfold request_init, spread.
  destruct (spread_headers _ _) as [merged|] eqn:Hm; [|discriminate].
  intros [= <-]. unfold JSObject in *. split; [|split].
  - intros key Hkey. rewrite lookup_union.
    rewrite lookup_singleton_ne by congruence.
    now destruct (default ∅ options !! key).
  - intros Hnone. rewrite lookup_union, Hnone, lookup_singleton_eq.
    rewrite Hnone in Hm. simpl in Hm. now injection Hm as <-.
  - intros given Hgiven. rewrite lookup_union, Hgiven.
    now rewrite lookup_singleton_eq.
Qed.

Lemma fetchAPI_headers_witness :
  exists init,
    request_init (Some MoreSamples.post_options) = Some init /\
    init !! "headers"%string
    = Some (VRecord {[ "Authorization"%string := lit "Bearer t" ]}) /\
    init !! "method"%string = Some (VText (lit "POST")) /\
    init !! "body"%string = None.
Proof.
  eexists. split; [reflexivity|].
  destruct (fetchAPI_headers (Some MoreSamples.post_options) _ eq_refl)
    as (Hother & _ & Hgiven).
  split; [apply Hgiven; vm_compute; reflexivity|].
  split; (rewrite Hother by discriminate; vm_compute; reflexivity).
Defined.

End ApiFacts.
